(** * fujin: robust grid navigation by per-cell zero-sum games

    A shallow embedding of [solver_tools.py] (grid connectivity, adversary
    action space, outcome function, payoff matrix builder, the Williams
    fictitious-play solver and the cost-to-go propagation engine), followed
    by the properties of the specification checked against it.

    The program is Python 2 code over numpy arrays ([xrange], [len] of a
    [zip], a list-comprehension variable read after the comprehension).
    Conventions of the embedding:

    - a Python exception is an explicit [Raise] outcome; every function that
      can raise returns a [result]; the one unbounded loop (the worklist of
      a sweep) runs on fuel, [None] standing for fuel exhausted, and is
      shown never to exhaust the fuel it is given;
    - a numpy array or Python list is a [list]; indexing follows Python:
      index [k] of a sequence of length [n] is valid for [-n <= k < n], a
      negative index counts from the end, anything else is [IndexError];
    - Python floats (and numpy float64) are an abstract number type [F] with
      the operations the program uses (class [Num]); two instances are
      given, IEEE binary64 (Rocq's primitive floats, which evaluate) and the
      real numbers (exact arithmetic, for the order and field facts);
    - [print] calls have no effect on the values computed and are left out. *)

From Stdlib Require Import ZArith List String Ascii Bool Lia.
From Stdlib Require Import Reals Lra.
From Stdlib Require Import Floats Uint63.
Import ListNotations.

Open Scope string_scope.
Open Scope list_scope.
Open Scope Z_scope.

(* ------------------------------------------------------------------ *)
(** * Python outcomes *)

Inductive exn : Type :=
  | IndexError | NameError | KeyError | TypeError | ValueError
  | ZeroDivisionError | ImportError.

Inductive result (A : Type) : Type :=
  | Ok (a : A)
  | Raise (e : exn).

Arguments Ok {A} a.
Arguments Raise {A} e.

Definition bind {A B : Type} (x : result A) (k : A -> result B) : result B :=
  match x with
  | Ok a => k a
  | Raise e => Raise e
  end.

Notation "x <- c1 ;; c2" := (bind c1 (fun x => c2))
  (at level 61, c1 at next level, right associativity).
Notation "' pat <- c1 ;; c2" := (bind c1 (fun x => match x with pat => c2 end))
  (at level 61, pat pattern, c1 at next level, right associativity).

(** [mapM f l]: a list comprehension or a [for] loop building a list, left
    to right, stopping at the first exception. *)
Fixpoint mapM {A B : Type} (f : A -> result B) (l : list A) : result (list B) :=
  match l with
  | [] => Ok []
  | a :: l' => b <- f a ;; bs <- mapM f l' ;; Ok (b :: bs)
  end.

(* ------------------------------------------------------------------ *)
(** * Sequences and grids with Python indexing *)

Definition len {A : Type} (l : list A) : Z := Z.of_nat (List.length l).

(** The position Python reads for index [k] in a sequence of length [n]. *)
Definition norm_index (n k : Z) : option nat :=
  if (0 <=? k) && (k <? n) then Some (Z.to_nat k)
  else if (- n <=? k) && (k <? 0) then Some (Z.to_nat (n + k))
  else None.

(** [l[k]] *)
Definition pyget {A : Type} (l : list A) (k : Z) : result A :=
  match norm_index (len l) k with
  | Some p => match nth_error l p with Some a => Ok a | None => Raise IndexError end
  | None => Raise IndexError
  end.

Fixpoint set_nth {A : Type} (l : list A) (p : nat) (a : A) : list A :=
  match l, p with
  | [], _ => []
  | _ :: l', O => a :: l'
  | x :: l', S p' => x :: set_nth l' p' a
  end.

(** [l[k] = a] *)
Definition pyset {A : Type} (l : list A) (k : Z) (a : A) : result (list A) :=
  match norm_index (len l) k with
  | Some p => Ok (set_nth l p a)
  | None => Raise IndexError
  end.

Definition Grid (A : Type) : Type := list (list A).

(** [g[r][c]] *)
Definition get2 {A : Type} (g : Grid A) (r c : Z) : result A :=
  row <- pyget g r ;; pyget row c.

(** [g[r][c] = a] (the row is a view: the write reaches the grid) *)
Definition set2 {A : Type} (g : Grid A) (r c : Z) (a : A) : result (Grid A) :=
  row <- pyget g r ;; row' <- pyset row c a ;; pyset g r row'.

(** [g.shape] of a two-dimensional array. *)
Definition shape {A : Type} (g : Grid A) : Z * Z :=
  (len g, match g with [] => 0 | row :: _ => len row end).

(** [np.zeros((m, n)) + x], [[x for col in range(n)] for row in range(m)] *)
Definition full {A : Type} (m n : Z) (x : A) : Grid A :=
  repeat (repeat x (Z.to_nat n)) (Z.to_nat m).

(** An [m] by [n] array. *)
Definition rect {A : Type} (m n : Z) (g : Grid A) : Prop :=
  len g = m /\ Forall (fun row => len row = n) g.

(* ------------------------------------------------------------------ *)
(** * Numbers *)

Class Num (F : Type) : Type := {
  ofZ   : Z -> F;            (* an int used where a float is expected *)
  fadd  : F -> F -> F;
  fsub  : F -> F -> F;
  fmul  : F -> F -> F;
  fdiv  : F -> F -> F;
  feqb  : F -> F -> bool;    (* == *)
  fltb  : F -> F -> bool;    (* <  *)
  fleb  : F -> F -> bool;    (* <= *)
  fsqrt : F -> F;            (* math.sqrt *)
  fcos  : F -> F;            (* math.cos *)
  fsin  : F -> F;            (* math.sin *)
  fpi   : F                  (* math.pi *)
}.

Definition cell : Type := (Z * Z)%type.

Definition cell_eqb (a b : cell) : bool :=
  (fst a =? fst b) && (snd a =? snd b).

(** A neighbor as [getNeighbors] reports it: [(row, col, move)]. *)
Definition nbr : Type := (Z * Z * string)%type.

(* ------------------------------------------------------------------ *)
(** * Grid connectivity: [getNeighbors] *)

(** One guarded test of the function,
    [if guard: if env[r][c] != obstacleFlag: ...]; the array is read only
    when the guard holds. *)
Definition probe (guard : bool) (env : Grid Z) (r c : Z) (obstacleFlag : Z)
  : result bool :=
  if guard then v <- get2 env r c ;; Ok (negb (v =? obstacleFlag))
  else Ok false.

(** [B.append(x)] when the test succeeded. *)
Definition emit (ok : bool) (x : nbr) : list nbr := if ok then [x] else [].

Definition getNeighbors (i : cell) (m n : Z) (env : Grid Z) (obstacleFlag : Z)
  : result (list nbr) :=
  let '(i0, i1) := i in
  upAllowed        <- probe (i0 - 1 >=? 0) env (i0 - 1) i1 obstacleFlag ;;
  downAllowed      <- probe (i0 + 1 <? m) env (i0 + 1) i1 obstacleFlag ;;
  leftAllowed      <- probe (i1 - 1 >=? 0) env i0 (i1 - 1) obstacleFlag ;;
  rightAllowed     <- probe (i1 + 1 <? n) env i0 (i1 + 1) obstacleFlag ;;
  upleftAllowed    <- probe ((i0 - 1 >=? 0) && (i1 - 1 >=? 0))
                            env (i0 - 1) (i1 - 1) obstacleFlag ;;
  uprightAllowed   <- probe ((i0 - 1 >=? 0) && (i1 + 1 <? n))
                            env (i0 - 1) (i1 + 1) obstacleFlag ;;
  downleftAllowed  <- probe ((i0 + 1 <? m) && (i1 - 1 >=? 0))
                            env (i0 + 1) (i1 - 1) obstacleFlag ;;
  downrightAllowed <- probe ((i0 + 1 <? m) && (i1 + 1 <? n))
                            env (i0 + 1) (i1 + 1) obstacleFlag ;;
  mv_m <- probe ((i0 - 2 >=? 0) && (i1 - 1 >=? 0)
                 && upAllowed && upleftAllowed && leftAllowed)
                env (i0 - 2) (i1 - 1) obstacleFlag ;;
  mv_n <- probe ((i0 - 2 >=? 0) && (i1 + 1 <? n)
                 && upAllowed && uprightAllowed && rightAllowed)
                env (i0 - 2) (i1 + 1) obstacleFlag ;;
  mv_o <- probe ((i0 - 1 >=? 0) && (i1 - 2 >=? 0)
                 && upAllowed && upleftAllowed && leftAllowed)
                env (i0 - 1) (i1 - 2) obstacleFlag ;;
  mv_p <- probe ((i0 - 1 >=? 0) && (i1 + 2 <? n)
                 && upAllowed && uprightAllowed && rightAllowed)
                env (i0 - 1) (i1 + 2) obstacleFlag ;;
  mv_w <- probe ((i0 + 2 <? m) && (i1 - 1 >=? 0)
                 && downAllowed && downleftAllowed && leftAllowed)
                env (i0 + 2) (i1 - 1) obstacleFlag ;;
  mv_x <- probe ((i0 + 2 <? m) && (i1 + 1 <? n)
                 && downAllowed && downrightAllowed && rightAllowed)
                env (i0 + 2) (i1 + 1) obstacleFlag ;;
  mv_y <- probe ((i0 + 1 <? m) && (i1 - 2 >=? 0)
                 && downAllowed && downleftAllowed && leftAllowed)
                env (i0 + 1) (i1 - 2) obstacleFlag ;;
  mv_z <- probe ((i0 + 1 <? m) && (i1 + 2 <? n)
                 && downAllowed && downrightAllowed && rightAllowed)
                env (i0 + 1) (i1 + 2) obstacleFlag ;;
  Ok (emit upAllowed (i0 - 1, i1, "^")
      ++ emit downAllowed (i0 + 1, i1, "v")
      ++ emit leftAllowed (i0, i1 - 1, "<")
      ++ emit rightAllowed (i0, i1 + 1, ">")
      ++ emit upleftAllowed (i0 - 1, i1 - 1, "a")
      ++ emit uprightAllowed (i0 - 1, i1 + 1, "b")
      ++ emit downleftAllowed (i0 + 1, i1 - 1, "c")
      ++ emit downrightAllowed (i0 + 1, i1 + 1, "d")
      ++ emit mv_m (i0 - 2, i1 - 1, "m")
      ++ emit mv_n (i0 - 2, i1 + 1, "n")
      ++ emit mv_o (i0 - 1, i1 - 2, "o")
      ++ emit mv_p (i0 - 1, i1 + 2, "p")
      ++ emit mv_w (i0 + 2, i1 - 1, "w")
      ++ emit mv_x (i0 + 2, i1 + 1, "x")
      ++ emit mv_y (i0 + 1, i1 - 2, "y")
      ++ emit mv_z (i0 + 1, i1 + 2, "z")).

(* ------------------------------------------------------------------ *)
(** * Loops and library functions *)

(** A [for] loop threading a state, stopping at the first exception. *)
Fixpoint foldM {A S : Type} (f : S -> A -> result S) (l : list A) (s : S)
  : result S :=
  match l with
  | [] => Ok s
  | a :: l' => s' <- f s a ;; foldM f l' s'
  end.

(** [range(n)] *)
Definition range (n : Z) : list Z := map Z.of_nat (seq 0 (Z.to_nat n)).

(** [itertools.product] of the unpacked ranges: tuples in lexicographic order, the last
    position varying fastest; one empty tuple when there is no range. *)
Fixpoint product {A : Type} (ranges : list (list A)) : list (list A) :=
  match ranges with
  | [] => [[]]
  | r :: rest => flat_map (fun x => map (cons x) (product rest)) r
  end.

(** [d[k]] for a dict written as its list of items. *)
Fixpoint dict_get {V : Type} (d : list (string * V)) (k : string) : result V :=
  match d with
  | [] => Raise KeyError
  | (k', v) :: d' => if String.eqb k k' then Ok v else dict_get d' k
  end.

Section Solver.

Context {F : Type} {N : Num F}.

(** [np.linspace(start, stop, num)] as numpy documents it: [num] evenly
    spaced samples over the closed interval, the last one [stop] itself. *)
Definition linspace (start stop : F) (num : nat) : list F :=
  match num with
  | O => []
  | S O => [start]
  | S d =>
      let step := fdiv (fsub stop start) (ofZ (Z.of_nat d)) in
      map (fun k => fadd (fmul (ofZ (Z.of_nat k)) step) start) (seq 0 d)
      ++ [stop]
  end.

(* ------------------------------------------------------------------ *)
(** * Force and adversary model *)

(** The dict [getWorldActionsForCell] returns. *)
Record world_actionspace : Type := {
  uactions : list (list F);
  vactions : list (list F);
  num      : Z
}.

(** The two sample ranges of source [g] (one pass of the loop's body). *)
Definition sample_ranges (row col : Z) (ugrids vgrids : list (Grid F))
  (errors : list F) (g : Z) : result (list F * list F) :=
  ug <- pyget ugrids g ;;
  u  <- get2 ug row col ;;
  e  <- pyget errors g ;;
  vg <- pyget vgrids g ;;
  v  <- get2 vg row col ;;
  Ok (linspace (fsub u e) (fadd u e) 10, linspace (fsub v e) (fadd v e) 10).

Definition getWorldActionsForCell (row col : Z) (ugrids vgrids : list (Grid F))
  (errors : list F) : result world_actionspace :=
  let numVectors := len ugrids in
  ranges <- mapM (sample_ranges row col ugrids vgrids errors) (range numVectors) ;;
  let uranges := map fst ranges in
  let vranges := map snd ranges in
  let numActions := fold_left (fun acc r => acc * len r) uranges 1 in
  let uactionspace := product uranges in
  let vactionspace := product vranges in
  Ok {| uactions := uactionspace;
        vactions := uactionspace;
        num      := numActions |}.

Definition getVectorSum (us vs weights : list F) : result (F * F) :=
  foldM (fun '(utotal, vtotal) i =>
           w <- pyget weights i ;;
           u <- pyget us i ;;
           v <- pyget vs i ;;
           Ok (fadd utotal (fmul w u), fadd vtotal (fmul w v)))
        (range (len us)) (ofZ 0, ofZ 0).

Definition getVectorDiff (us vs weights : list F) : result (F * F) :=
  foldM (fun '(utotal, vtotal) i =>
           w <- pyget weights i ;;
           u <- pyget us i ;;
           v <- pyget vs i ;;
           Ok (fsub utotal (fmul w u), fsub vtotal (fmul w v)))
        (range (len us)) (ofZ 0, ofZ 0).

Definition magdir2uv (mag dir_radians : F) : F * F :=
  (fmul mag (fcos dir_radians), fmul mag (fsin dir_radians)).

(** The magnitude component of [uv2magdir]; its direction component
    ([atan2]) is dropped by the only caller. *)
Definition uv2magdir (u v : F) : F :=
  fsqrt (fadd (fmul u u) (fmul v v)).

(* ------------------------------------------------------------------ *)
(** * Outcome function *)

Record Traveler : Type := {
  start          : cell;
  target         : cell;
  actionspace    : list string;
  action2radians : list (string * F);
  speed_cps      : F
}.

(** The dynamic-programming branch of [getOutcome]: the if/elif chain over
    the move symbol. The branch for ["*"] reads the name [d_max], which is
    bound neither in the function nor in the module. *)
Definition outcome_cost (move : string) (work : F) (cost2go : Grid F)
  (row col : Z) : result F :=
  if (move =? "^")%string then x <- get2 cost2go (row - 1) col ;; Ok (fadd work x)
  else if (move =? "v")%string then x <- get2 cost2go (row + 1) col ;; Ok (fadd work x)
  else if (move =? "<")%string then x <- get2 cost2go row (col - 1) ;; Ok (fadd work x)
  else if (move =? ">")%string then x <- get2 cost2go row (col + 1) ;; Ok (fadd work x)
  else if (move =? "a")%string then x <- get2 cost2go (row - 1) (col - 1) ;; Ok (fadd work x)
  else if (move =? "b")%string then x <- get2 cost2go (row - 1) (col + 1) ;; Ok (fadd work x)
  else if (move =? "c")%string then x <- get2 cost2go (row + 1) (col - 1) ;; Ok (fadd work x)
  else if (move =? "d")%string then x <- get2 cost2go (row + 1) (col + 1) ;; Ok (fadd work x)
  else if (move =? "m")%string then x <- get2 cost2go (row - 2) (col - 1) ;; Ok (fadd work x)
  else if (move =? "n")%string then x <- get2 cost2go (row - 2) (col + 1) ;; Ok (fadd work x)
  else if (move =? "o")%string then x <- get2 cost2go (row - 1) (col - 2) ;; Ok (fadd work x)
  else if (move =? "p")%string then x <- get2 cost2go (row - 1) (col + 2) ;; Ok (fadd work x)
  else if (move =? "w")%string then x <- get2 cost2go (row + 2) (col - 1) ;; Ok (fadd work x)
  else if (move =? "x")%string then x <- get2 cost2go (row + 2) (col + 1) ;; Ok (fadd work x)
  else if (move =? "y")%string then x <- get2 cost2go (row + 1) (col - 2) ;; Ok (fadd work x)
  else if (move =? "z")%string then x <- get2 cost2go (row + 1) (col + 2) ;; Ok (fadd work x)
  else if (move =? "*")%string then Raise NameError
  else Ok work.

(** Returns [(workc, work)]. [cost2go], [row] and [col] default to [None]. *)
Definition getOutcome (move : string) (us vs weights : list F)
  (traveler : Traveler) (D_max : F)
  (cost2go : option (Grid F)) (row col : option Z) : result (F * F) :=
  '(uw, vw) <- getVectorSum us vs weights ;;
  rad <- dict_get (action2radians traveler) move ;;
  let '(ut, vt) := magdir2uv (speed_cps traveler) rad in
  '(ua, va) <- getVectorDiff [uw; ut] [vw; vt] [ofZ 1; ofZ 1] ;;
  let maga := uv2magdir ua va in
  let work := maga in
  match cost2go, row, col with
  | Some c2g, Some r, Some c =>
      _ <- pyget c2g 0 ;;                   (* n = len(cost2go[0]) *)
      workc <- outcome_cost move work c2g r c ;;
      Ok (workc, work)
  | _, _, _ => Ok (work, work)
  end.

(* ------------------------------------------------------------------ *)
(** * Payoff matrix builder *)

(** Returns [(game, game_work)]: one row per traveler action, one column
    per world action. *)
Definition getGameForCell (row col : Z) (traveler : Traveler)
  (ugrids vgrids : list (Grid F)) (errors weights : list F)
  (env : Grid Z) (D_max : F) (cost2go : option (Grid F))
  : result (Grid F * Grid F) :=
  was <- getWorldActionsForCell row col ugrids vgrids errors ;;
  B <- getNeighbors (row, col) (fst (shape env)) (snd (shape env)) env 1 ;;
  let Bmove := map (fun b : nbr => snd b) B in
  cells <- mapM (fun ta =>
             let Bvalid := existsb (String.eqb ta) Bmove in
             mapM (fun c =>
                     if Bvalid then
                       ua <- pyget (uactions was) c ;;
                       va <- pyget (vactions was) c ;;
                       getOutcome ta ua va weights traveler D_max
                                  cost2go (Some row) (Some col)
                     else Ok (D_max, D_max))
                  (range (num was)))
           (actionspace traveler) ;;
  Ok (map (map fst) cells, map (map snd) cells).

(* ------------------------------------------------------------------ *)
(** * Zero-sum game solver *)

(** [zip] of the unpacked rows: the columns, as many as the shortest row has
    entries. *)
Fixpoint zip_star {A : Type} (rows : list (list A)) : list (list A) :=
  match rows with
  | [] => []
  | [r] => map (fun x => [x]) r
  | r :: rest => map (fun '(x, col) => x :: col) (combine r (zip_star rest))
  end.

(** [map(add, xs, ys)]: Python 2 pads the shorter list with [None], and
    adding [None] to a number is a [TypeError]. *)
Fixpoint map_add (xs ys : list F) : result (list F) :=
  match xs, ys with
  | [], [] => Ok []
  | x :: xs', y :: ys' => r <- map_add xs' ys' ;; Ok (fadd x y :: r)
  | _, _ => Raise TypeError
  end.

(** Python's order on the tuples [(payoff, position)]: the first components
    decide unless they are equal. *)
Definition pair_ltb (p q : F * Z) : bool :=
  if feqb (fst p) (fst q) then snd p <? snd q else fltb (fst p) (fst q).

Definition pair_gtb (p q : F * Z) : bool :=
  if feqb (fst p) (fst q) then snd q <? snd p else fltb (fst q) (fst p).

(** [min(l)] and [max(l)]: the first least (greatest) item. *)
Definition pymin (l : list (F * Z)) : result (F * Z) :=
  match l with
  | [] => Raise ValueError
  | x :: l' => Ok (fold_left (fun cur it => if pair_ltb it cur then it else cur) l' x)
  end.

Definition pymax (l : list (F * Z)) : result (F * Z) :=
  match l with
  | [] => Raise ValueError
  | x :: l' => Ok (fold_left (fun cur it => if pair_gtb it cur then it else cur) l' x)
  end.

(** [cnt[k] += 1] *)
Definition incr (cnt : list Z) (k : Z) : result (list Z) :=
  c <- pyget cnt k ;; pyset cnt k (c + 1).

Record williams_state : Type := {
  rowcnt : list Z;
  colcnt : list Z;
  row_cum_payoff : list F;
  col_cum_payoff : list F;
  active : Z
}.

(** One pass of the loop of [solve_williams]. *)
Definition williams_step (payoff_matrix transpose : Grid F)
  (colpos rowpos : list Z) (s : williams_state) : result williams_state :=
  rowcnt' <- incr (rowcnt s) (active s) ;;
  prow <- pyget payoff_matrix (active s) ;;
  col_cum <- map_add prow (col_cum_payoff s) ;;
  cmin <- pymin (combine col_cum colpos) ;;
  let active1 := snd cmin in
  colcnt' <- incr (colcnt s) active1 ;;
  pcol <- pyget transpose active1 ;;
  row_cum <- map_add pcol (row_cum_payoff s) ;;
  rmax <- pymax (combine row_cum rowpos) ;;
  Ok {| rowcnt := rowcnt'; colcnt := colcnt';
        row_cum_payoff := row_cum; col_cum_payoff := col_cum;
        active := - snd rmax |}.

Fixpoint williams_loop (payoff_matrix transpose : Grid F)
  (colpos rowpos : list Z) (k : nat) (s : williams_state)
  : result williams_state :=
  match k with
  | O => Ok s
  | S k' =>
      s' <- williams_step payoff_matrix transpose colpos rowpos s ;;
      williams_loop payoff_matrix transpose colpos rowpos k' s'
  end.

(** Returns the two play-count vectors divided by [iterations]. The value
    of the game the function computes before returning is not returned; what
    is kept of that line is that [max] and [min] of an empty list raise. *)
Definition solve_williams (payoff_matrix : Grid F) (iterations : Z)
  : result (list F * list F) :=
  let payoff_matrix := map (map (fun x => fmul (ofZ (-1)) x)) payoff_matrix in
  let transpose := zip_star payoff_matrix in
  let numrows := len payoff_matrix in
  let numcols := len transpose in
  let colpos := range numcols in
  let rowpos := map Z.opp (range numrows) in
  s <- williams_loop payoff_matrix transpose colpos rowpos (Z.to_nat iterations)
         {| rowcnt := repeat 0 (Z.to_nat numrows);
            colcnt := repeat 0 (Z.to_nat numcols);
            row_cum_payoff := repeat (ofZ 0) (Z.to_nat numrows);
            col_cum_payoff := repeat (ofZ 0) (Z.to_nat numcols);
            active := 0 |} ;;
  _ <- (match row_cum_payoff s, col_cum_payoff s with
        | _ :: _, _ :: _ => Ok tt
        | _, _ => Raise ValueError
        end) ;;
  _ <- (if iterations =? 0 then Raise ZeroDivisionError else Ok tt) ;;
  Ok (map (fun c => fdiv (ofZ c) (ofZ iterations)) (rowcnt s),
      map (fun c => fdiv (ofZ c) (ofZ iterations)) (colcnt s)).

(** [np.argmax(l)]: the position of the first greatest entry. *)
Fixpoint argmax_from (l : list F) (idx best_idx : Z) (best : F) : Z :=
  match l with
  | [] => best_idx
  | x :: l' =>
      if fltb best x then argmax_from l' (idx + 1) idx x
      else argmax_from l' (idx + 1) best_idx best
  end.

Definition argmax (l : list F) : result Z :=
  match l with
  | [] => Raise ValueError
  | x :: l' => Ok (argmax_from l' 1 0 x)
  end.

(** The solvers of methods 1 and 2 call the packages gambit and nashpy. *)
Variable solve_gambit : Grid F -> result (list F * list F).
Variable solve_nashpy : Grid F -> result (list F * list F).

Definition solution : Type := (list F * list F * Z * Z * F)%type.

(** Returns [(y, z, i, j, v)]. With a [method] other than 0, 1 and 2 the
    names [y] and [z] are unbound when they are read. *)
Definition solveGame (game : Grid F) (method : Z) : result solution :=
  '(y, z) <- (if method =? 0 then solve_williams game 100
              else if method =? 1 then solve_gambit game
              else if method =? 2 then solve_nashpy game
              else Raise NameError) ;;
  i <- argmax y ;;
  j <- argmax z ;;
  v <- get2 game i j ;;
  Ok (y, z, i, j, v).

(* ------------------------------------------------------------------ *)
(** * Cost-to-go propagation engine *)

Record Bounds : Type := {
  upperleft  : cell;
  lowerright : cell
}.

(** A name of the enclosing function read from a nested function: unbound
    names raise [NameError] when they are read. *)
Definition deref (name : option Z) : result Z :=
  match name with
  | Some v => Ok v
  | None => Raise NameError
  end.

(** [f_work], nested in [getCost2go]. Its body reads [row] and [col], which
    are not among its parameters: they are names of [getCost2go], given
    here as the first two arguments. Returns the value of the cell's game
    and the traveler's pure action. *)
Definition f_work (row col : option Z)
  (i : cell) (m n : Z) (cost2go : Grid F) (D_max : F) (env : Grid Z)
  (traveler : Traveler) (ugrids vgrids egrids wgrids : list (Grid F))
  (method : Z) : result (F * string) :=
  errors  <- mapM (fun e => r <- deref row ;; c <- deref col ;; get2 e r c) egrids ;;
  weights <- mapM (fun w => r <- deref row ;; c <- deref col ;; get2 w r c) wgrids ;;
  '(g, g_work) <- getGameForCell (fst i) (snd i) traveler ugrids vgrids
                    errors weights env D_max (Some cost2go) ;;
  '(_, _, s2, _, s4) <- solveGame g method ;;
  a <- pyget (actionspace traveler) s2 ;;
  Ok (s4, a).

(** [x and y], [y] evaluated only when [x] holds. *)
Definition and_then (x : result bool) (y : result bool) : result bool :=
  b <- x ;; if b then y else Ok false.

(** [cost2go[r][c] == D_max] *)
Definition at_D_max (cost2go : Grid F) (D_max : F) (r c : Z) : result bool :=
  x <- get2 cost2go r c ;; Ok (feqb x D_max).

(** The third test of [getNewCost], its eight comparisons in the order of
    the text. *)
Definition surrounded (cost2go : Grid F) (D_max : F) (i : cell) : result bool :=
  let '(i0, i1) := i in
  and_then (at_D_max cost2go D_max (i0 - 1) i1)
 (and_then (at_D_max cost2go D_max (i0 - 1) (i1 - 1))
 (and_then (at_D_max cost2go D_max (i0 - 1) i1)
 (and_then (at_D_max cost2go D_max (i0 - 1) (i1 + 1))
 (and_then (at_D_max cost2go D_max i0 (i1 - 1))
 (and_then (at_D_max cost2go D_max (i0 + 1) (i1 - 1))
 (and_then (at_D_max cost2go D_max i0 (i1 + 1))
           (at_D_max cost2go D_max (i0 + 1) (i1 + 1)))))))).

(** [getNewCost], nested in [getCost2go]; [row] and [col] are the names
    [f_work] reads. Returns [(cost, action)]. *)
Definition getNewCost (row col : option Z)
  (i G : cell) (occgrid : Grid Z) (m n : Z) (cost2go : Grid F) (D_max : F)
  (traveler : Traveler) (ugrids vgrids egrids wgrids : list (Grid F))
  : result (F * string) :=
  if cell_eqb i G then Ok (ofZ 0, "*")
  else
    occ <- get2 occgrid (fst i) (snd i) ;;
    if occ =? 1 then Ok (D_max, " ")
    else
      s <- surrounded cost2go D_max i ;;
      if s then Ok (D_max, "-")
      else
        '(c, b) <- f_work row col i (fst (shape occgrid)) (snd (shape occgrid))
                     cost2go D_max occgrid traveler ugrids vgrids egrids wgrids 0 ;;
        if fleb D_max c then Ok (D_max, "-") else Ok (c, b).

(** The test guarding [visitQueue.append(b)]. *)
Definition in_bounds (bounds : Bounds) (b : cell) : bool :=
  (fst b >? fst (upperleft bounds)) && (fst b <? fst (lowerright bounds)) &&
  (snd b >? snd (upperleft bounds)) && (snd b <? snd (lowerright bounds)).

(** [b in visitHistory] *)
Definition visited (visitHistory : list cell) (b : cell) : bool :=
  existsb (cell_eqb b) visitHistory.

(** The loop [for b in B] at the end of the body of the [while] loop. *)
Fixpoint enqueue (bounds : Bounds) (B : list nbr)
  (visitQueue visitHistory : list cell) : list cell * list cell :=
  match B with
  | [] => (visitQueue, visitHistory)
  | (b0, b1, _) :: B' =>
      let b := (b0, b1) in
      if in_bounds bounds b then
        if negb (visited visitHistory b)
        then enqueue bounds B' (visitQueue ++ [b]) (b :: visitHistory)
        else enqueue bounds B' visitQueue visitHistory
      else enqueue bounds B' visitQueue visitHistory
  end.

(** The state one sweep changes. *)
Record sweep_state : Type := {
  cost2go      : Grid F;
  action2go    : Grid string;
  visitQueue   : list cell;
  visitHistory : list cell
}.

(** The body of the [while] loop for the popped cell [i]. *)
Definition visit (row col : option Z) (G : cell) (occgrid : Grid Z) (m n : Z)
  (D_max : F) (traveler : Traveler) (ugrids vgrids egrids wgrids : list (Grid F))
  (bounds : Bounds) (i : cell) (s : sweep_state) : result sweep_state :=
  '(cost, action) <- getNewCost row col i G occgrid m n (cost2go s) D_max
                       traveler ugrids vgrids egrids wgrids ;;
  cost2go' <- set2 (cost2go s) (fst i) (snd i) cost ;;
  action2go' <- set2 (action2go s) (fst i) (snd i) action ;;
  B <- getNeighbors i (fst (shape occgrid)) (snd (shape occgrid)) occgrid 1 ;;
  let '(q, h) := enqueue bounds B (visitQueue s) (visitHistory s) in
  Ok {| cost2go := cost2go'; action2go := action2go';
        visitQueue := q; visitHistory := h |}.

(** The state after [i = visitQueue.pop(0)]. *)
Definition popped (s : sweep_state) (rest : list cell) : sweep_state :=
  {| cost2go := cost2go s; action2go := action2go s;
     visitQueue := rest; visitHistory := visitHistory s |}.

(** [while visitQueue: ...]; [fuel] bounds the number of passes, and [None]
    says that it did not suffice. *)
Fixpoint sweep_loop (fuel : nat) (row col : option Z) (G : cell)
  (occgrid : Grid Z) (m n : Z) (D_max : F) (traveler : Traveler)
  (ugrids vgrids egrids wgrids : list (Grid F)) (bounds : Bounds)
  (s : sweep_state) : option (result sweep_state) :=
  match visitQueue s with
  | [] => Some (Ok s)
  | i :: rest =>
      match fuel with
      | O => None
      | S fuel' =>
          match visit row col G occgrid m n D_max traveler
                      ugrids vgrids egrids wgrids bounds i (popped s rest) with
          | Ok s' => sweep_loop fuel' row col G occgrid m n D_max traveler
                                ugrids vgrids egrids wgrids bounds s'
          | Raise e => Some (Raise e)
          end
      end
  end.

(** The number of cells strictly inside the bounds, plus one for the seed:
    no sweep makes more passes (theorem [sweep_loop_fuel]). *)
Definition sweep_fuel (bounds : Bounds) : nat :=
  S (Z.to_nat (Z.max 0 (fst (lowerright bounds) - fst (upperleft bounds) - 1)
               * Z.max 0 (snd (lowerright bounds) - snd (upperleft bounds) - 1))).

(** One pass of [for k in range(iterations)]. *)
Definition sweep (row col : option Z) (G : cell)
  (occgrid : Grid Z) (m n : Z) (D_max : F) (traveler : Traveler)
  (ugrids vgrids egrids wgrids : list (Grid F)) (bounds : Bounds)
  (grids : Grid F * Grid string) : option (result (Grid F * Grid string)) :=
  match sweep_loop (sweep_fuel bounds) row col G occgrid m n D_max traveler
          ugrids vgrids egrids wgrids bounds
          {| cost2go := fst grids; action2go := snd grids;
             visitQueue := [G]; visitHistory := [] |} with
  | Some (Ok s) => Some (Ok (cost2go s, action2go s))
  | Some (Raise e) => Some (Raise e)
  | None => None
  end.

Fixpoint sweeps (k : nat) (row col : option Z) (G : cell)
  (occgrid : Grid Z) (m n : Z) (D_max : F) (traveler : Traveler)
  (ugrids vgrids egrids wgrids : list (Grid F)) (bounds : Bounds)
  (grids : Grid F * Grid string) : option (result (Grid F * Grid string)) :=
  match k with
  | O => Some (Ok grids)
  | S k' =>
      match sweep row col G occgrid m n D_max traveler
                  ugrids vgrids egrids wgrids bounds grids with
      | Some (Ok grids') =>
          sweeps k' row col G occgrid m n D_max traveler
                 ugrids vgrids egrids wgrids bounds grids'
      | other => other
      end
  end.

(** [d_max] and [D_max] of [getCost2go] for a region of [M] cells. *)
Definition d_max : F := fmul (fsqrt (ofZ 2)) (ofZ 10).

Definition D_max_of (M : Z) : F :=
  fmul (fmul (fmul (ofZ M) d_max) (ofZ 100000000000)) (ofZ 10000000000).

(** What [getCost2go] returns: [(cost2go, work2go, action2go, history)],
    the history always [None]. *)
Record cost2go_output : Type := {
  out_cost2go   : Grid F;
  out_work2go   : Grid F;
  out_action2go : Grid string
}.

(** [getCost2go]. [bounds] and [iterations] default to [None]; subscripting
    [None] is a [TypeError]. The comprehension that builds [action2go]
    leaves its loop variables [row] and [col] bound in the function (Python
    2), at the last row and column of the grid; they are unbound when the
    grid has no row, or no column. The nested functions [distance] and [f]
    are never called. *)
Definition getCost2go (traveler : Traveler) (occgrid : Grid Z)
  (ugrids vgrids egrids wgrids : list (Grid F))
  (bounds : option Bounds) (iterations : option Z)
  : option (result cost2go_output) :=
  let G := target traveler in
  let '(full_m, full_n) := shape occgrid in
  match bounds with
  | None => Some (Raise TypeError)
  | Some bounds =>
      let m := Z.abs (fst (lowerright bounds) - fst (upperleft bounds)) in
      let n := Z.abs (snd (lowerright bounds) - snd (upperleft bounds)) in
      let M := m * n in
      let D_max := D_max_of M in
      let iterations := match iterations with None => M | Some k => k end in
      let cost2go0 := full full_m full_n (fadd (ofZ 0) D_max) in
      let work2go := full full_m full_n (ofZ 0) in
      let action2go0 := full full_m full_n "-" in
      let row := if 0 <? full_m then Some (full_m - 1) else None in
      let col := if (0 <? full_m) && (0 <? full_n) then Some (full_n - 1) else None in
      match sweeps (Z.to_nat iterations) row col G occgrid m n D_max
                   traveler ugrids vgrids egrids wgrids bounds
                   (cost2go0, action2go0) with
      | Some (Ok (c2g, a2g)) =>
          Some (Ok {| out_cost2go := c2g; out_work2go := work2go;
                      out_action2go := a2g |})
      | Some (Raise e) => Some (Raise e)
      | None => None
      end
  end.

(* ------------------------------------------------------------------ *)
(** * The traveler of [env_setup.getTraveler] *)

(** The literals 0.75, 1.25, 1.5, 1.75 and 0.5 are quotients of small
    integers, which binary floating point represents exactly. *)
Definition lit (p q : Z) : F := fdiv (ofZ p) (ofZ q).

Definition getTraveler_action2radians : list (string * F) :=
  let pi := fpi in
  [ (">", lit 0 1);
    ("b", fdiv pi (lit 4 1));
    ("^", fdiv pi (lit 2 1));
    ("a", fmul pi (lit 3 4));
    ("<", pi);
    ("c", fmul pi (lit 5 4));
    ("v", fmul pi (lit 3 2));
    ("d", fmul pi (lit 7 4));
    ("m", fadd (fdiv pi (lit 2 1))
               (fmul (lit 1 2) (fsub (fmul pi (lit 3 4)) (fdiv pi (lit 2 1)))));
    ("n", fadd (fdiv pi (lit 4 1))
               (fmul (lit 1 2) (fsub (fdiv pi (lit 2 1)) (fdiv pi (lit 4 1)))));
    ("o", fadd (fmul pi (lit 3 4))
               (fmul (lit 1 2) (fsub pi (fmul pi (lit 3 4)))));
    ("p", fadd (lit 0 1)
               (fmul (lit 1 2) (fsub (fdiv pi (lit 4 1)) (lit 0 1))));
    ("w", fadd (fmul pi (lit 5 4))
               (fmul (lit 1 2) (fsub (fmul pi (lit 3 2)) (fmul pi (lit 5 4)))));
    ("x", fadd (fmul pi (lit 3 2))
               (fmul (lit 1 2) (fsub (fmul pi (lit 7 4)) (fmul pi (lit 3 2)))));
    ("y", fadd pi
               (fmul (lit 1 2) (fsub (fmul pi (lit 5 4)) pi)));
    ("z", fadd (fmul pi (lit 7 4))
               (fmul (lit 1 2) (fsub (fmul pi (ofZ 2)) (fmul pi (lit 7 4)))));
    ("*", ofZ 0);
    ("-", ofZ 0);
    (" ", ofZ 0) ].

(** The action space [getTraveler] selects for a travel type; any other
    string leaves it [None]. *)
Definition getTraveler_actionspace (travelType : string) : option (list string) :=
  if (travelType =? "4way")%string then Some ["^"; "v"; "<"; ">"]
  else if (travelType =? "8way")%string then
    Some ["^"; "v"; "<"; ">"; "a"; "b"; "c"; "d"]
  else if (travelType =? "16way")%string then
    Some ["^"; "v"; "<"; ">"; "a"; "b"; "c"; "d";
          "m"; "n"; "o"; "p"; "w"; "x"; "y"; "z"]
  else None.

(** [getTraveler] for one of the three travel types. *)
Definition getTraveler (start target : cell) (speed_cps : F)
  (travelType : string) : option Traveler :=
  match getTraveler_actionspace travelType with
  | Some acts =>
      Some {| start := start; target := target; actionspace := acts;
              action2radians := getTraveler_action2radians;
              speed_cps := speed_cps |}
  | None => None
  end.

End Solver.

Arguments world_actionspace F : clear implicits.
Arguments Traveler F : clear implicits.
Arguments sweep_state F : clear implicits.
Arguments cost2go_output F : clear implicits.
Arguments williams_state F : clear implicits.
Arguments solution F : clear implicits.

(* ------------------------------------------------------------------ *)
(** * The grids of [env_setup] *)

Section EnvSetup.

Context {F : Type} {N : Num F}.

(** [np.loadtxt] and [getComponentGrid] read files. *)
Variable loadtxt : string -> result (Grid F).
Variable getComponentGrid : string -> result (Grid F).

(** [getVectorGrids]: one zero grid for each component unless both lists of
    files are given; then one pair of grids per u-component file. *)
Definition getVectorGrids (ucomponentImageFiles vcomponentImageFiles
                           : option (list string)) (occgrid : Grid Z)
  : result (list (Grid F) * list (Grid F)) :=
  match ucomponentImageFiles, vcomponentImageFiles with
  | Some ufiles, Some vfiles =>
      grids <- mapM (fun i =>
                 uf <- pyget ufiles i ;;
                 u <- getComponentGrid uf ;;
                 vf <- pyget vfiles i ;;
                 v <- getComponentGrid vf ;;
                 Ok (u, v))
               (range (len ufiles)) ;;
      Ok (map fst grids, map snd grids)
  | _, _ =>
      Ok ([full (fst (shape occgrid)) (snd (shape occgrid)) (ofZ 0)],
          [full (fst (shape occgrid)) (snd (shape occgrid)) (ofZ 0)])
  end.

(** [getWeightGrids]: the files have priority, then the constants
    ([np.ones(occgrid.shape) * weights[i]]); without either, every weight
    is one. *)
Definition getWeightGrids (occgrid : Grid Z) (weights : option (list F))
  (weightgridFiles : option (list string)) (numGrids : Z)
  : result (list (Grid F)) :=
  match weightgridFiles, weights with
  | Some files, _ =>
      mapM (fun i => f <- pyget files i ;; loadtxt f) (range numGrids)
  | None, Some weights =>
      mapM (fun i =>
              w <- pyget weights i ;;
              Ok (full (fst (shape occgrid)) (snd (shape occgrid))
                       (fmul (ofZ 1) w)))
           (range numGrids)
  | None, None =>
      Ok (map (fun _ => full (fst (shape occgrid)) (snd (shape occgrid)) (ofZ 1))
              (range numGrids))
  end.

(** [getErrorGrids]: as [getWeightGrids], except that without files and
    constants every error is zero. *)
Definition getErrorGrids (occgrid : Grid Z) (errors : option (list F))
  (errorgridFiles : option (list string)) (numGrids : Z)
  : result (list (Grid F)) :=
  match errorgridFiles, errors with
  | Some files, _ =>
      mapM (fun i => f <- pyget files i ;; loadtxt f) (range numGrids)
  | None, Some errors =>
      mapM (fun i =>
              e <- pyget errors i ;;
              Ok (full (fst (shape occgrid)) (snd (shape occgrid))
                       (fmul (ofZ 1) e)))
           (range numGrids)
  | None, None =>
      Ok (map (fun _ => full (fst (shape occgrid)) (snd (shape occgrid)) (ofZ 0))
              (range numGrids))
  end.

End EnvSetup.




Section OccupancyGrid.

(** [os.path.splitext], [np.loadtxt(f, dtype = int, delimiter = ",")], and
    the branches of [getOccupancyGrid] that read images through PIL and
    gdal. *)
Variable splitext : string -> string * string.
Variable loadtxt_int : string -> result (Grid Z).
Variable occupancy_of_png : list string -> result (Grid Z).
Variable occupancy_of_tif : list string -> result (Grid Z).


End OccupancyGrid.

(* ------------------------------------------------------------------ *)
(** * Two number systems *)

(** ** IEEE binary64, the floats of Python and numpy *)

(** An [int] converted to a float (exact below 2^53 in absolute value). *)
Definition float_ofZ (z : Z) : float :=
  if z <? 0 then PrimFloat.opp (PrimFloat.of_uint63 (Uint63.of_Z (- z)))
  else PrimFloat.of_uint63 (Uint63.of_Z z).

(** The C library's [cos] and [sin] at the sixteen headings of
    [getTraveler], as [(angle, (cos angle, sin angle))]. *)
Definition libm_table : list (float * (float * float)) :=
  [ (0x0.0p+0, (0x1.0000000000000p+0, 0x0.0p+0));
    (0x1.921fb54442d18p-1, (0x1.6a09e667f3bcdp-1, 0x1.6a09e667f3bccp-1));
    (0x1.921fb54442d18p+0, (0x1.1a62633145c07p-54, 0x1.0000000000000p+0));
    (0x1.2d97c7f3321d2p+1, (-0x1.6a09e667f3bccp-1, 0x1.6a09e667f3bcdp-1));
    (0x1.921fb54442d18p+1, (-0x1.0000000000000p+0, 0x1.1a62633145c07p-53));
    (0x1.f6a7a2955385ep+1, (-0x1.6a09e667f3bcep-1, -0x1.6a09e667f3bccp-1));
    (0x1.2d97c7f3321d2p+2, (-0x1.a79394c9e8a0ap-53, -0x1.0000000000000p+0));
    (0x1.5fdbbe9bba775p+2, (0x1.6a09e667f3bcbp-1, -0x1.6a09e667f3bcep-1));
    (0x1.f6a7a2955385ep+0, (-0x1.87de2a6aea962p-2, 0x1.d906bcf328d46p-1));
    (0x1.2d97c7f3321d2p+0, (0x1.87de2a6aea964p-2, 0x1.d906bcf328d46p-1));
    (0x1.5fdbbe9bba775p+1, (-0x1.d906bcf328d46p-1, 0x1.87de2a6aea965p-2));
    (0x1.921fb54442d18p-2, (0x1.d906bcf328d46p-1, 0x1.87de2a6aea963p-2));
    (0x1.1475cc9eedf00p+2, (-0x1.87de2a6aea96dp-2, -0x1.d906bcf328d44p-1));
    (0x1.46b9c347764a4p+2, (0x1.87de2a6aea967p-2, -0x1.d906bcf328d45p-1));
    (0x1.c463abeccb2bbp+1, (-0x1.d906bcf328d47p-1, -0x1.87de2a6aea961p-2));
    (0x1.78fdb9effea46p+2, (0x1.d906bcf328d44p-1, -0x1.87de2a6aea96ep-2))
  ]%float.

Fixpoint libm_lookup (t : list (float * (float * float))) (x : float)
  : float * float :=
  match t with
  | [] => (PrimFloat.nan, PrimFloat.nan)
  | (a, cs) :: t' => if PrimFloat.eqb x a then cs else libm_lookup t' x
  end.

#[export] Instance float_Num : Num float := {
  ofZ   := float_ofZ;
  fadd  := PrimFloat.add;
  fsub  := PrimFloat.sub;
  fmul  := PrimFloat.mul;
  fdiv  := PrimFloat.div;
  feqb  := PrimFloat.eqb;
  fltb  := PrimFloat.ltb;
  fleb  := PrimFloat.leb;
  fsqrt := PrimFloat.sqrt;
  fcos  := fun x => fst (libm_lookup libm_table x);
  fsin  := fun x => snd (libm_lookup libm_table x);
  fpi   := 0x1.921fb54442d18p+1%float
}.

(** ** The real numbers: the program in exact arithmetic *)

Definition R_eqb (x y : R) : bool := if Req_dec_T x y then true else false.
Definition R_ltb (x y : R) : bool := if Rlt_dec x y then true else false.
Definition R_leb (x y : R) : bool := if Rle_dec x y then true else false.

#[export] Instance R_Num : Num R := {
  ofZ   := IZR;
  fadd  := Rplus;
  fsub  := Rminus;
  fmul  := Rmult;
  fdiv  := Rdiv;
  feqb  := R_eqb;
  fltb  := R_ltb;
  fleb  := R_leb;
  fsqrt := R_sqrt.sqrt;
  fcos  := cos;
  fsin  := sin;
  fpi   := PI
}.

(** The external solvers are not part of the program: where a value is
    needed for them, they fail to import. *)
Definition no_solver {F : Type} (_ : Grid F) : result (list F * list F) :=
  Raise ImportError.

(* ================================================================== *)
(** * Properties *)

(** ** Indexing *)

Lemma len_nonneg {A : Type} (l : list A) : 0 <= len l.
Proof. unfold len. lia. Qed.

Lemma norm_index_in_range (n k : Z) :
  0 <= k < n -> norm_index n k = Some (Z.to_nat k).
Proof.
  intros Hk. unfold norm_index.
  destruct (0 <=? k) eqn:E1; [| lia].
  destruct (k <? n) eqn:E2; [reflexivity | lia].
Qed.

Lemma norm_index_nonneg_inv (n k : Z) (p : nat) :
  0 <= k -> norm_index n k = Some p -> p = Z.to_nat k /\ k < n.
Proof.
  intros Hk. unfold norm_index.
  destruct (0 <=? k) eqn:E1; [| lia].
  destruct (k <? n) eqn:E2; simpl.
  - intros [= <-]. split; [reflexivity | lia].
  - destruct (- n <=? k); simpl; [| discriminate].
    destruct (k <? 0) eqn:E3; [lia | discriminate].
Qed.

Lemma norm_index_lt (n k : Z) (p : nat) :
  norm_index n k = Some p -> (Z.of_nat p < n).
Proof.
  unfold norm_index.
  destruct ((0 <=? k) && (k <? n)) eqn:E1.
  - apply andb_prop in E1 as [H1 H2]. intros [= <-]. lia.
  - destruct ((- n <=? k) && (k <? 0)) eqn:E2; [| discriminate].
    apply andb_prop in E2 as [H1 H2]. intros [= <-]. lia.
Qed.

Lemma pyget_in_range {A : Type} (l : list A) (k : Z) :
  0 <= k < len l -> exists a, pyget l k = Ok a /\ nth_error l (Z.to_nat k) = Some a.
Proof.
  intros Hk. unfold pyget. rewrite (norm_index_in_range _ _ Hk).
  destruct (nth_error l (Z.to_nat k)) as [a |] eqn:E.
  - exists a. split; reflexivity.
  - apply nth_error_None in E. unfold len in Hk. lia.
Qed.

Lemma pyget_nonneg_inv {A : Type} (l : list A) (k : Z) (a : A) :
  0 <= k -> pyget l k = Ok a -> nth_error l (Z.to_nat k) = Some a /\ k < len l.
Proof.
  intros Hk. unfold pyget.
  destruct (norm_index (len l) k) as [p |] eqn:E; [| discriminate].
  apply norm_index_nonneg_inv in E as [-> Hlt]; [| exact Hk].
  destruct (nth_error l (Z.to_nat k)); [| discriminate].
  intros [= <-]. split; [reflexivity | exact Hlt].
Qed.

Lemma pyget_In {A : Type} (l : list A) (k : Z) (a : A) :
  pyget l k = Ok a -> In a l.
Proof.
  unfold pyget. destruct (norm_index (len l) k) as [p |]; [| discriminate].
  destruct (nth_error l p) eqn:E; [| discriminate].
  intros [= <-]. eapply nth_error_In; eassumption.
Qed.

Lemma rect_row {A : Type} (m n : Z) (g : Grid A) (row : list A) :
  rect m n g -> In row g -> len row = n.
Proof.
  intros [_ Hall] Hin. rewrite Forall_forall in Hall. apply Hall, Hin.
Qed.

Lemma get2_in_range {A : Type} (m n : Z) (g : Grid A) (r c : Z) :
  rect m n g -> 0 <= r < m -> 0 <= c < n -> exists v, get2 g r c = Ok v.
Proof.
  intros Hrect Hr Hc. unfold get2.
  destruct (pyget_in_range g r) as (row & Hrow & Hnth).
  { destruct Hrect as [Hlen _]. lia. }
  rewrite Hrow. simpl.
  assert (Hlen : len row = n).
  { eapply rect_row; [eassumption |]. eapply nth_error_In; eassumption. }
  destruct (pyget_in_range row c) as (v & Hv & _); [lia |].
  exists v. exact Hv.
Qed.

(** ** Grid connectivity *)

(** The entry a test reads, where the array has one. *)
Definition cellval (env : Grid Z) (r c : Z) : Z :=
  match get2 env r c with
  | Ok v => v
  | _ => 0
  end.

(** A cell a traveler may enter: inside the [m] by [n] grid and not an
    obstacle. *)
Definition passable (env : Grid Z) (m n obstacleFlag : Z) (r c : Z) : Prop :=
  0 <= r < m /\ 0 <= c < n /\
  exists v, get2 env r c = Ok v /\ v <> obstacleFlag.

Definition passableb (env : Grid Z) (m n obstacleFlag : Z) (r c : Z) : bool :=
  (0 <=? r) && (r <? m) && (0 <=? c) && (c <? n)
  && negb (cellval env r c =? obstacleFlag).

Lemma passable_iff (env : Grid Z) (m n flag r c : Z) :
  rect m n env ->
  passable env m n flag r c <-> passableb env m n flag r c = true.
Proof.
  intros Hrect. unfold passable, passableb, cellval.
  rewrite !andb_true_iff, negb_true_iff, Z.eqb_neq, !Z.leb_le, !Z.ltb_lt.
  split.
  - intros (Hr & Hc & v & Hv & Hne). rewrite Hv. lia.
  - intros ((((H1 & H2) & H3) & H4) & Hne).
    destruct (get2_in_range m n env r c Hrect) as (v & Hv); [lia | lia |].
    rewrite Hv in Hne. repeat split; try lia. exists v. split; assumption.
Qed.

Lemma probe_rect (env : Grid Z) (m n flag : Z) (guard : bool) (r c : Z) :
  rect m n env ->
  (guard = true -> 0 <= r < m /\ 0 <= c < n) ->
  probe guard env r c flag = Ok (guard && negb (cellval env r c =? flag)).
Proof.
  intros Hrect Hg. unfold probe, cellval. destruct guard; [| reflexivity].
  destruct Hg as [Hr Hc]; [reflexivity |].
  destruct (get2_in_range m n env r c Hrect Hr Hc) as (v & Hv).
  rewrite Hv. reflexivity.
Qed.

Lemma probe_true_guard (guard : bool) (env : Grid Z) (r c flag : Z) :
  probe guard env r c flag = Ok true -> guard = true.
Proof. unfold probe. destruct guard; [reflexivity | discriminate]. Qed.

Lemma In_emit (ok : bool) (x y : nbr) : In x (emit ok y) <-> ok = true /\ y = x.
Proof.
  unfold emit. destruct ok; simpl.
  - split; [intros [H | []]; auto | intros [_ H]; auto].
  - split; [intros [] | intros [H _]; discriminate].
Qed.

(** Turning the guards of [getNeighbors] into arithmetic. *)
Ltac bool_to_prop :=
  repeat match goal with
  | H : _ && _ = true |- _ => apply andb_prop in H; destruct H
  | H : (_ >=? _) = true |- _ => apply Z.geb_le in H
  | H : (_ <? _) = true |- _ => apply Z.ltb_lt in H
  | H : (_ <=? _) = true |- _ => apply Z.leb_le in H
  | H : (_ >? _) = true |- _ => apply Z.gtb_lt in H
  | H : negb _ = true |- _ => apply negb_true_iff in H
  | H : (_ =? _) = false |- _ => apply Z.eqb_neq in H
  end.

Ltac guard_side := intro; bool_to_prop; lia.

(** *** Knight moves *)

Ltac run_probes Hrect :=
  repeat (erewrite (probe_rect _ _ _ _ _ _ _ Hrect) by guard_side;
          cbn [bind]).

Ltac props_of_bools :=
  rewrite ?andb_true_iff, ?negb_true_iff, ?Z.eqb_neq, ?Z.geb_le,
          ?Z.leb_le, ?Z.ltb_lt.

(** Membership in the list [getNeighbors] builds, item by item. *)
Ltac in_emits H :=
  lazymatch type of H with
  | In _ (emit _ _ ++ _) =>
      apply in_app_or in H; destruct H as [H | H];
      [ apply In_emit in H | in_emits H ]
  | In _ (emit _ _) => apply In_emit in H
  end.

Ltac find_emit :=
  first [ apply In_emit; split; [ | reflexivity ]
        | apply in_or_app;
          first [ left; apply In_emit; split; [ | reflexivity ]
                | right; find_emit ] ].

(** C8, as the code has it: a knight move is reported exactly when its
    destination and all three cells of its quadrant (the vertical neighbor,
    the diagonal neighbor and the horizontal neighbor) are inside the grid
    and free of obstacles. *)
Theorem getNeighbors_knight_moves (env : Grid Z) (m n flag i0 i1 : Z) :
  rect m n env -> 0 <= i0 < m -> 0 <= i1 < n ->
  let P := passable env m n flag in
  exists B, getNeighbors (i0, i1) m n env flag = Ok B /\
    (In (i0 - 2, i1 - 1, "m") B <->
       P (i0 - 2) (i1 - 1) /\ P (i0 - 1) i1 /\ P (i0 - 1) (i1 - 1) /\ P i0 (i1 - 1)) /\
    (In (i0 - 2, i1 + 1, "n") B <->
       P (i0 - 2) (i1 + 1) /\ P (i0 - 1) i1 /\ P (i0 - 1) (i1 + 1) /\ P i0 (i1 + 1)) /\
    (In (i0 - 1, i1 - 2, "o") B <->
       P (i0 - 1) (i1 - 2) /\ P (i0 - 1) i1 /\ P (i0 - 1) (i1 - 1) /\ P i0 (i1 - 1)) /\
    (In (i0 - 1, i1 + 2, "p") B <->
       P (i0 - 1) (i1 + 2) /\ P (i0 - 1) i1 /\ P (i0 - 1) (i1 + 1) /\ P i0 (i1 + 1)) /\
    (In (i0 + 2, i1 - 1, "w") B <->
       P (i0 + 2) (i1 - 1) /\ P (i0 + 1) i1 /\ P (i0 + 1) (i1 - 1) /\ P i0 (i1 - 1)) /\
    (In (i0 + 2, i1 + 1, "x") B <->
       P (i0 + 2) (i1 + 1) /\ P (i0 + 1) i1 /\ P (i0 + 1) (i1 + 1) /\ P i0 (i1 + 1)) /\
    (In (i0 + 1, i1 - 2, "y") B <->
       P (i0 + 1) (i1 - 2) /\ P (i0 + 1) i1 /\ P (i0 + 1) (i1 - 1) /\ P i0 (i1 - 1)) /\
    (In (i0 + 1, i1 + 2, "z") B <->
       P (i0 + 1) (i1 + 2) /\ P (i0 + 1) i1 /\ P (i0 + 1) (i1 + 1) /\ P i0 (i1 + 1)).
Proof.
  intros Hrect Hi0 Hi1 P. subst P.
  unfold getNeighbors. run_probes Hrect.
  eexists. split; [reflexivity |].
  repeat match goal with |- _ /\ _ => split end.
  all: split; intros H.
  all: try (in_emits H; destruct H as [Hb Heq]; try discriminate Heq;
            clear Heq; bool_to_prop;
            repeat match goal with |- _ /\ _ => split end;
            apply (passable_iff _ _ _ _ _ _ Hrect);
            unfold passableb; props_of_bools; repeat split;
            solve [lia | assumption]).
  all: destruct H as (H1 & H2 & H3 & H4);
       apply (passable_iff _ _ _ _ _ _ Hrect) in H1, H2, H3, H4;
       unfold passableb in H1, H2, H3, H4; bool_to_prop;
       find_emit; props_of_bools; repeat split; solve [lia | assumption].
Qed.

(** A 3 by 3 grid without obstacle, and the same grid with cell (2, 0)
    blocked. *)
Definition free3 : Grid Z := [[0; 0; 0]; [0; 0; 0]; [0; 0; 0]].
Definition left_blocked3 : Grid Z := [[0; 0; 0]; [0; 0; 0]; [1; 0; 0]].

Lemma rect_free3 : rect 3 3 free3.
Proof. split; [reflexivity | repeat constructor]. Qed.

Lemma passable_free3 (r c : Z) : 0 <= r < 3 -> 0 <= c < 3 -> passable free3 3 3 1 r c.
Proof.
  intros Hr Hc. apply (passable_iff _ _ _ _ _ _ rect_free3).
  assert (Hr' : r = 0 \/ r = 1 \/ r = 2) by lia.
  assert (Hc' : c = 0 \/ c = 1 \/ c = 2) by lia.
  destruct Hr' as [-> | [-> | ->]]; destruct Hc' as [-> | [-> | ->]]; reflexivity.
Qed.

(** From (2, 1) of the free grid the move "m" to (0, 0) is reported. *)
Lemma getNeighbors_knight_moves_witness :
  exists B, getNeighbors (2, 1) 3 3 free3 1 = Ok B /\ In (0, 0, "m") B.
Proof.
  destruct (getNeighbors_knight_moves free3 3 3 1 2 1 rect_free3
              ltac:(lia) ltac:(lia)) as (B & HB & Hm & _).
  exists B. split; [exact HB |].
  apply Hm.
  repeat match goal with |- _ /\ _ => split end; apply passable_free3; lia.
Defined.

(** C8, as the claim states it, fails: with the destination (0, 0), the
    cell above (1, 1) and the cell above-left (1, 0) all inside the grid and
    free, the move "m" from (2, 1) is still not reported when the cell to
    the left, (2, 0), is an obstacle. *)
Lemma knight_m_depends_on_left_cell :
  passable left_blocked3 3 3 1 0 0 /\
  passable left_blocked3 3 3 1 1 1 /\
  passable left_blocked3 3 3 1 1 0 /\
  exists B, getNeighbors (2, 1) 3 3 left_blocked3 1 = Ok B /\
            ~ In (0, 0, "m") B.
Proof.
  assert (P : forall r c v, 0 <= r < 3 -> 0 <= c < 3 ->
                get2 left_blocked3 r c = Ok v -> v <> 1 ->
                passable left_blocked3 3 3 1 r c).
  { intros r c v Hr Hc Hv Hne. repeat split; try lia. exists v. split; assumption. }
  split; [apply (P 0 0 0); [lia | lia | reflexivity | lia] |].
  split; [apply (P 1 1 0); [lia | lia | reflexivity | lia] |].
  split; [apply (P 1 0 0); [lia | lia | reflexivity | lia] |].
  eexists. split; [vm_compute; reflexivity |].
  simpl. intros H. repeat (destruct H as [H | H]; [discriminate H |]). exact H.
Qed.

(** ** Outcome function *)

Section OutcomeFacts.

Context {F : Type} {N : Num F}.

(** The difference of two vectors with weights 1 and 1, as the loop of
    [getVectorDiff] computes it: both are subtracted from zero. *)
Lemma getVectorDiff_two (u1 u2 v1 v2 w1 w2 : F) :
  getVectorDiff [u1; u2] [v1; v2] [w1; w2]
  = Ok (fsub (fsub (ofZ 0) (fmul w1 u1)) (fmul w2 u2),
        fsub (fsub (ofZ 0) (fmul w1 v1)) (fmul w2 v2)).
Proof. reflexivity. Qed.

Lemma getVectorSum_one (u v w : F) :
  getVectorSum [u] [v] [w]
  = Ok (fadd (ofZ 0) (fmul w u), fadd (ofZ 0) (fmul w v)).
Proof. reflexivity. Qed.

(** The work [getOutcome] computes, in the program's own operations. *)
Definition applied_u (speed rad uw : F) : F :=
  fsub (fsub (ofZ 0) (fmul (ofZ 1) uw)) (fmul (ofZ 1) (fmul speed (fcos rad))).

Definition applied_v (speed rad vw : F) : F :=
  fsub (fsub (ofZ 0) (fmul (ofZ 1) vw)) (fmul (ofZ 1) (fmul speed (fsin rad))).

Lemma getOutcome_work (move : string) (us vs weights : list F)
  (traveler : Traveler F) (D_max uw vw rad : F) :
  getVectorSum us vs weights = Ok (uw, vw) ->
  dict_get (action2radians traveler) move = Ok rad ->
  let ua := applied_u (speed_cps traveler) rad uw in
  let va := applied_v (speed_cps traveler) rad vw in
  let work := fsqrt (fadd (fmul ua ua) (fmul va va)) in
  getOutcome move us vs weights traveler D_max None None None = Ok (work, work).
Proof.
  intros Hsum Hrad. unfold getOutcome. rewrite Hsum. cbn [bind].
  rewrite Hrad. cbn [bind]. unfold magdir2uv.
  rewrite getVectorDiff_two. reflexivity.
Qed.

(** C7: with the move "*" and a cost-to-go grid, a row and a column
    supplied, [getOutcome] returns nothing: every such call ends in an
    exception (the [NameError] of the unbound [d_max] when nothing fails
    before it). *)
Theorem getOutcome_target_symbol_raises (us vs weights : list F)
  (traveler : Traveler F) (D_max : F) (cost2go : Grid F) (row col : Z) :
  exists e,
    getOutcome "*" us vs weights traveler D_max
               (Some cost2go) (Some row) (Some col) = Raise e.
Proof.
  unfold getOutcome.
  destruct (getVectorSum us vs weights) as [[uw vw] | e] eqn:Esum; cbn [bind].
  2: { exists e. reflexivity. }
  destruct (dict_get (action2radians traveler) "*") as [rad | e] eqn:Erad;
    cbn [bind].
  2: { exists e. reflexivity. }
  unfold magdir2uv. rewrite getVectorDiff_two. cbn [bind].
  destruct (pyget cost2go 0) as [row0 | e] eqn:Erow; cbn [bind].
  - exists NameError. reflexivity.
  - exists e. reflexivity.
Qed.

End OutcomeFacts.

(** The traveler [getTraveler] builds for "4way" travel at speed 1, over
    the reals and over the floats. *)
Definition traveler_R : Traveler R :=
  {| start := (0, 0); target := (0, 0);
     actionspace := ["^"; "v"; "<"; ">"];
     action2radians := getTraveler_action2radians;
     speed_cps := 1%R |}.

(** "The effort the traveler must additionally exert beyond what the
    environment provides": the magnitude of the desired vector minus the
    resultant environmental vector [(uw, vw)]. *)
Definition effort_beyond_environment (speed rad uw vw : R) : R :=
  R_sqrt.sqrt ((speed * cos rad - uw) * (speed * cos rad - uw)
               + (speed * sin rad - vw) * (speed * sin rad - vw))%R.

(** In exact arithmetic the work of [getOutcome] is the magnitude of the
    sum of the desired vector and the environmental vector. *)
Lemma getOutcome_work_R (move : string) (us vs weights : list R)
  (traveler : Traveler R) (D_max uw vw rad : R) :
  getVectorSum us vs weights = Ok (uw, vw) ->
  dict_get (action2radians traveler) move = Ok rad ->
  let ut := (speed_cps traveler * cos rad)%R in
  let vt := (speed_cps traveler * sin rad)%R in
  let work := R_sqrt.sqrt ((uw + ut) * (uw + ut) + (vw + vt) * (vw + vt))%R in
  getOutcome move us vs weights traveler D_max None None None = Ok (work, work).
Proof.
  intros Hsum Hrad ut vt work.
  rewrite (getOutcome_work move us vs weights traveler D_max uw vw rad Hsum Hrad).
  cbv zeta. unfold applied_u, applied_v. simpl.
  assert (E : ((0 - 1 * uw - 1 * (speed_cps traveler * cos rad))
               * (0 - 1 * uw - 1 * (speed_cps traveler * cos rad))
               + (0 - 1 * vw - 1 * (speed_cps traveler * sin rad))
                 * (0 - 1 * vw - 1 * (speed_cps traveler * sin rad))
               = (uw + ut) * (uw + ut) + (vw + vt) * (vw + vt))%R).
  { subst ut vt. ring. }
  rewrite E. reflexivity.
Qed.

(** C3 at a failing input: a traveler of speed 1 heading right (angle 0) in
    a current that already carries it right at speed 1 (one source,
    [u = 1], [v = 0], weight 1). The desired vector and the environmental
    vector coincide, so the effort beyond what the environment provides is
    0; [getOutcome] reports the work 2. *)
Theorem getOutcome_work_counts_environment_twice :
  exists rad uw vw : R,
    dict_get (action2radians traveler_R) ">" = Ok rad /\
    getVectorSum [1%R] [0%R] [1%R] = Ok (uw, vw) /\
    getOutcome ">" [1%R] [0%R] [1%R] traveler_R 0%R None None None
      = Ok (2%R, 2%R) /\
    effort_beyond_environment (speed_cps traveler_R) rad uw vw = 0%R.
Proof.
  exists (0 / 1)%R, (0 + 1 * 1)%R, (0 + 1 * 0)%R.
  assert (Hrad : dict_get (action2radians traveler_R) ">" = Ok (0 / 1)%R)
    by reflexivity.
  assert (Hsum : getVectorSum [1%R] [0%R] [1%R]
                 = Ok ((0 + 1 * 1)%R, (0 + 1 * 0)%R)) by reflexivity.
  assert (H0 : (0 / 1 = 0)%R) by lra.
  repeat split; try assumption.
  - rewrite (getOutcome_work_R ">" _ _ _ traveler_R 0%R _ _ _ Hsum Hrad).
    cbv zeta. simpl speed_cps. rewrite H0, cos_0, sin_0.
    replace ((0 + 1 * 1 + 1 * 1) * (0 + 1 * 1 + 1 * 1)
             + (0 + 1 * 0 + 1 * 0) * (0 + 1 * 0 + 1 * 0))%R
      with (2 * 2)%R by ring.
    rewrite sqrt_square by lra. reflexivity.
  - unfold effort_beyond_environment. simpl speed_cps.
    rewrite H0, cos_0, sin_0.
    replace ((1 * 1 - (0 + 1 * 1)) * (1 * 1 - (0 + 1 * 1))
             + (1 * 0 - (0 + 1 * 0)) * (1 * 0 - (0 + 1 * 0)))%R
      with 0%R by ring.
    apply sqrt_0.
Qed.

(** ** Force and adversary model *)

Section WorldActions.

Context {F : Type} {N : Num F}.

(** Whatever the inputs, the list returned under "vactions" is the list
    returned under "uactions". *)
Lemma getWorldActionsForCell_vactions (row col : Z)
  (ugrids vgrids : list (Grid F)) (errors : list F) (w : world_actionspace F) :
  getWorldActionsForCell row col ugrids vgrids errors = Ok w ->
  vactions w = uactions w.
Proof.
  unfold getWorldActionsForCell.
  destruct (mapM _ _) as [ranges | e]; cbn [bind]; try discriminate.
  intros [= <-]. reflexivity.
Qed.

(** The number of tuples of a Cartesian product. *)
Lemma fold_count_scale {A : Type} (rs : list (list A)) (a : Z) :
  fold_left (fun acc r => acc * len r) rs a
  = a * fold_left (fun acc r => acc * len r) rs 1.
Proof.
  revert a. induction rs as [| r rs IH]; intros a; cbn [fold_left]; [lia |].
  rewrite (IH (a * len r)), (IH (1 * len r)). lia.
Qed.

Lemma len_product {A : Type} (rs : list (list A)) :
  len (product rs) = fold_left (fun acc r => acc * len r) rs 1.
Proof.
  induction rs as [| r rs IH]; [reflexivity |].
  cbn [product fold_left]. rewrite fold_count_scale, <- IH.
  generalize (product rs). intros P. clear IH.
  induction r as [| x r IHr]; [reflexivity |].
  cbn [flat_map]. unfold len in *.
  rewrite length_app, length_map, Nat2Z.inj_add, IHr.
  change (List.length (x :: r)) with (S (List.length r)).
  rewrite Nat2Z.inj_succ. ring.
Qed.

(** What is right in the returned dict: "uactions" is the product of the
    u-sample ranges, "num" is its length, and the two lists have one
    length. *)
Lemma getWorldActionsForCell_uactions (row col : Z)
  (ugrids vgrids : list (Grid F)) (errors : list F) (w : world_actionspace F) :
  getWorldActionsForCell row col ugrids vgrids errors = Ok w ->
  exists ranges,
    mapM (sample_ranges row col ugrids vgrids errors) (range (len ugrids))
      = Ok ranges /\
    uactions w = product (map fst ranges) /\
    num w = len (uactions w) /\
    len (vactions w) = len (uactions w).
Proof.
  unfold getWorldActionsForCell.
  destruct (mapM _ _) as [ranges | e]; cbn [bind]; try discriminate.
  intros [= <-]. exists ranges. cbn [uactions vactions num].
  split; [reflexivity |]. split; [reflexivity |].
  split; [symmetry; apply len_product | reflexivity].
Qed.

End WorldActions.

(** Two floats that compare unequal (one of them not a NaN) differ. *)
Lemma float_neq (x y : float) :
  PrimFloat.eqb x x = true -> PrimFloat.eqb x y = false -> x <> y.
Proof.
  intros Hx Hxy Heq. rewrite <- Heq in Hxy. rewrite Hx in Hxy. discriminate.
Qed.

(** One source whose field is [u = 0], [v = 1] at the only cell of a 1 by 1
    grid, known without error. *)
Definition u_zero : Grid float := [[0%float]].
Definition v_one  : Grid float := [[1%float]].

(** "The Cartesian product across sources of the 10-point v-sample
    ranges", for one source. *)
Definition v_product_one_source (v e : float) : list (list float) :=
  product [linspace (fsub v e) (fadd v e) 10].

(** C1 at a failing input: for that source the ten v-samples are all 1, so
    the v-action list must be ten tuples [(1,)]; [getWorldActionsForCell]
    returns under "vactions" the ten tuples [(0,)] of the u-samples. *)
Theorem getWorldActionsForCell_vactions_are_u_samples :
  exists w : world_actionspace float,
    getWorldActionsForCell 0 0 [u_zero] [v_one] [0%float] = Ok w /\
    num w = 10 /\
    uactions w = repeat [0%float] 10 /\
    vactions w = repeat [0%float] 10 /\
    v_product_one_source 1 0 = repeat [1%float] 10 /\
    vactions w <> v_product_one_source 1 0.
Proof.
  eexists. split; [vm_compute; reflexivity |].
  cbn [num uactions vactions].
  split; [reflexivity |].
  split; [reflexivity |].
  split; [reflexivity |].
  split; [vm_compute; reflexivity |].
  intros H.
  apply (f_equal (fun l => match l with
                           | (x :: _) :: _ => x
                           | _ => 0%float
                           end)) in H.
  vm_compute in H. revert H. apply float_neq; reflexivity.
Qed.

(** ** Reading and writing grids *)

Lemma length_set_nth {A : Type} (l : list A) (p : nat) (a : A) :
  List.length (set_nth l p a) = List.length l.
Proof.
  revert p. induction l as [| x l IH]; intros [| p]; simpl; auto.
Qed.

Lemma nth_error_set_nth_eq {A : Type} (l : list A) (p : nat) (a : A) :
  (p < List.length l)%nat -> nth_error (set_nth l p a) p = Some a.
Proof.
  revert p. induction l as [| x l IH]; intros [| p]; simpl; intros Hp;
    try lia; [reflexivity | apply IH; lia].
Qed.

Lemma nth_error_set_nth_neq {A : Type} (l : list A) (p q : nat) (a : A) :
  p <> q -> nth_error (set_nth l p a) q = nth_error l q.
Proof.
  revert p q. induction l as [| x l IH]; intros [| p] [| q] Hpq; simpl;
    try reflexivity; try congruence.
  apply IH. congruence.
Qed.

Lemma pyset_len {A : Type} (l l' : list A) (k : Z) (a : A) :
  pyset l k a = Ok l' -> len l' = len l.
Proof.
  unfold pyset. destruct (norm_index (len l) k); [| discriminate].
  intros [= <-]. unfold len. rewrite length_set_nth. reflexivity.
Qed.

Lemma pyget_pyset_same {A : Type} (l l' : list A) (k : Z) (a : A) :
  pyset l k a = Ok l' -> pyget l' k = Ok a.
Proof.
  intros H. unfold pyget. rewrite (pyset_len _ _ _ _ H).
  unfold pyset in H. destruct (norm_index (len l) k) as [p |] eqn:E; [| discriminate].
  injection H as <-.
  rewrite nth_error_set_nth_eq; [reflexivity |].
  apply norm_index_lt in E. unfold len in E. lia.
Qed.

Lemma pyget_pyset_other {A : Type} (l l' : list A) (k k' : Z) (a : A) :
  pyset l k a = Ok l' -> 0 <= k -> 0 <= k' -> k <> k' ->
  pyget l' k' = pyget l k'.
Proof.
  intros H Hk Hk' Hne. unfold pyget. rewrite (pyset_len _ _ _ _ H).
  unfold pyset in H. destruct (norm_index (len l) k) as [p |] eqn:E; [| discriminate].
  injection H as <-.
  apply norm_index_nonneg_inv in E as [-> _]; [| exact Hk].
  destruct (norm_index (len l) k') as [q |] eqn:E'; [| reflexivity].
  apply norm_index_nonneg_inv in E' as [-> _]; [| exact Hk'].
  rewrite nth_error_set_nth_neq; [reflexivity | lia].
Qed.

Lemma set2_same {A : Type} (g g' : Grid A) (r c : Z) (a : A) :
  set2 g r c a = Ok g' -> get2 g' r c = Ok a.
Proof.
  unfold set2, get2.
  destruct (pyget g r) as [row | e]; cbn [bind]; [| discriminate].
  destruct (pyset row c a) as [row' | e] eqn:Erow; cbn [bind]; [| discriminate].
  intros H. rewrite (pyget_pyset_same _ _ _ _ H). cbn [bind].
  eapply pyget_pyset_same; eassumption.
Qed.

Lemma set2_other {A : Type} (g g' : Grid A) (r c r' c' : Z) (a : A) :
  set2 g r c a = Ok g' ->
  0 <= r -> 0 <= c -> 0 <= r' -> 0 <= c' -> (r, c) <> (r', c') ->
  get2 g' r' c' = get2 g r' c'.
Proof.
  unfold set2, get2. intros H Hr Hc Hr' Hc' Hne.
  destruct (pyget g r) as [row | e] eqn:Eg; cbn [bind] in H; [| discriminate].
  destruct (pyset row c a) as [row' | e] eqn:Erow; cbn [bind] in H; [| discriminate].
  destruct (Z.eq_dec r r') as [<- | Hrr].
  - rewrite (pyget_pyset_same _ _ _ _ H), Eg. cbn [bind].
    eapply pyget_pyset_other; [eassumption | assumption | assumption |].
    intros ->. apply Hne. reflexivity.
  - rewrite (pyget_pyset_other _ _ _ _ _ H Hr Hr' Hrr). reflexivity.
Qed.

(** ** Cells reported by [getNeighbors] *)

Definition nonneg (c : cell) : Prop := 0 <= fst c /\ 0 <= snd c.

Lemma cell_eqb_eq (a b : cell) : cell_eqb a b = true <-> a = b.
Proof.
  destruct a as [a0 a1], b as [b0 b1]. unfold cell_eqb. simpl.
  rewrite andb_true_iff, !Z.eqb_eq. split.
  - intros [-> ->]. reflexivity.
  - intros [= -> ->]. split; reflexivity.
Qed.

Lemma Forall_emit (P : nbr -> Prop) (ok : bool) (x : nbr) :
  (ok = true -> P x) -> Forall P (emit ok x).
Proof.
  intros H. destruct ok; simpl; [| constructor].
  constructor; [apply H; reflexivity | constructor].
Qed.

(** Unfolding a successful call of [getNeighbors] into its sixteen tests. *)
Ltac open_probes H :=
  repeat match type of H with
  | bind (probe ?g ?e ?r ?c ?f) _ = Ok _ =>
      let b := fresh "b" in
      let E := fresh "E" in
      destruct (probe g e r c f) as [b | ?] eqn:E; cbn [bind] in H;
      [| discriminate H]
  end.

(** From a cell with nonnegative coordinates, every reported neighbor has
    nonnegative coordinates: the tests guard every decrement. *)
Lemma getNeighbors_nonneg (i : cell) (m n : Z) (env : Grid Z) (flag : Z)
  (B : list nbr) :
  getNeighbors i m n env flag = Ok B -> nonneg i ->
  Forall (fun b : nbr => nonneg (fst b)) B.
Proof.
  destruct i as [i0 i1]. unfold nonneg. simpl. intros H [Hi0 Hi1].
  unfold getNeighbors in H. open_probes H. injection H as <-.
  repeat (apply Forall_app; split).
  all: apply Forall_emit; intros ->; simpl;
       match goal with
       | E : probe _ _ _ _ _ = Ok true |- _ => apply probe_true_guard in E
       end;
       bool_to_prop; lia.
Qed.

(** ** The worklist *)

Lemma visited_In (h : list cell) (b : cell) : visited h b = true <-> In b h.
Proof.
  unfold visited. rewrite existsb_exists. split.
  - intros (x & Hx & Heq). apply cell_eqb_eq in Heq. subst x. exact Hx.
  - intros Hin. exists b. split; [exact Hin | apply cell_eqb_eq; reflexivity].
Qed.

Lemma in_bounds_iff (bounds : Bounds) (b : cell) :
  in_bounds bounds b = true <->
  fst (upperleft bounds) < fst b < fst (lowerright bounds) /\
  snd (upperleft bounds) < snd b < snd (lowerright bounds).
Proof.
  unfold in_bounds. rewrite !andb_true_iff, !Z.gtb_lt, !Z.ltb_lt. lia.
Qed.

(** What [enqueue] adds is in bounds and was not visited; the queue and
    the history grow by the same cells. *)
Lemma enqueue_spec (bounds : Bounds) (B : list nbr) :
  forall q h q' h',
    enqueue bounds B q h = (q', h') ->
    exists added,
      q' = q ++ added /\ h' = rev added ++ h /\
      Forall (fun b => in_bounds bounds b = true) added /\
      Forall (fun b => exists s, In (fst b, snd b, s) B) added /\
      (NoDup h -> NoDup h').
Proof.
  induction B as [| [[b0 b1] s] B IH]; intros q h q' h' H; simpl in H.
  - injection H as <- <-. exists []. rewrite app_nil_r. simpl.
    repeat split; auto.
  - destruct (in_bounds bounds (b0, b1)) eqn:Ein.
    + destruct (visited h (b0, b1)) eqn:Ev; simpl in H.
      * destruct (IH _ _ _ _ H) as (added & -> & -> & Hin & Hfrom & Hnd).
        exists added. repeat split; auto.
        eapply Forall_impl; [| exact Hfrom]. intros b (s' & Hs').
        exists s'. right. exact Hs'.
      * destruct (IH _ _ _ _ H) as (added & -> & -> & Hin & Hfrom & Hnd).
        exists ((b0, b1) :: added). rewrite <- app_assoc. simpl.
        rewrite <- app_assoc. simpl. repeat split; auto.
        -- constructor; [exists s; left; reflexivity |].
           eapply Forall_impl; [| exact Hfrom]. intros b (s' & Hs').
           exists s'. right. exact Hs'.
        -- intros Hh. apply Hnd. constructor; [| exact Hh].
           intros Hc. apply visited_In in Hc. congruence.
    + destruct (IH _ _ _ _ H) as (added & -> & -> & Hin & Hfrom & Hnd).
      exists added. repeat split; auto.
      eapply Forall_impl; [| exact Hfrom]. intros b (s' & Hs').
      exists s'. right. exact Hs'.
Qed.

(** A neighbor is appended exactly when it is strictly inside the bounds
    and not yet in the history. *)
Lemma enqueue_In (bounds : Bounds) (B : list nbr) :
  forall q h q' h' b,
    enqueue bounds B q h = (q', h') ->
    (In b q' <->
       In b q \/
       ((exists s, In (fst b, snd b, s) B) /\ in_bounds bounds b = true /\ ~ In b h)).
Proof.
  induction B as [| [[b0 b1] s] B IH]; intros q h q' h' b H; simpl in H.
  - injection H as <- <-. split; [auto |].
    intros [Hq | ((s & []) & _)]. exact Hq.
  - destruct (in_bounds bounds (b0, b1)) eqn:Ein.
    + destruct (visited h (b0, b1)) eqn:Ev; simpl in H.
      * rewrite (IH _ _ _ _ b H). split.
        -- intros [Hq | ((s' & Hs') & Hb & Hh)]; [left; exact Hq |].
           right. split; [exists s'; right; exact Hs' | split; assumption].
        -- intros [Hq | ((s' & [Hs' | Hs']) & Hb & Hh)]; [left; exact Hq | |].
           ++ exfalso. apply Hh. apply visited_In in Ev.
              injection Hs' as -> -> _. destruct b; exact Ev.
           ++ right. split; [exists s'; exact Hs' | split; assumption].
      * rewrite (IH _ _ _ _ b H). rewrite in_app_iff. simpl.
        assert (Hnv : ~ In (b0, b1) h).
        { intros Hc. apply visited_In in Hc. congruence. }
        split.
        -- intros [[Hq | [<- | []]] | ((s' & Hs') & Hb & Hh)].
           ++ left; exact Hq.
           ++ right. split; [exists s; left; reflexivity | split; assumption].
           ++ right. split; [exists s'; right; exact Hs' |].
              split; [exact Hb | intros Hc; apply Hh; right; exact Hc].
        -- intros [Hq | ((s' & [Hs' | Hs']) & Hb & Hh)].
           ++ left. left. exact Hq.
           ++ left. right. left. injection Hs' as -> -> _. destruct b; reflexivity.
           ++ destruct (cell_eqb b (b0, b1)) eqn:Eb.
              ** apply cell_eqb_eq in Eb. left. right. left. symmetry. exact Eb.
              ** right. split; [exists s'; exact Hs' |].
                 split; [exact Hb |]. intros [Hc | Hc]; [| exact (Hh Hc)].
                 subst b. rewrite (proj2 (cell_eqb_eq _ _) eq_refl) in Eb.
                 discriminate.
    + rewrite (IH _ _ _ _ b H). split.
      * intros [Hq | ((s' & Hs') & Hb & Hh)]; [left; exact Hq |].
        right. split; [exists s'; right; exact Hs' | split; assumption].
      * intros [Hq | ((s' & [Hs' | Hs']) & Hb & Hh)]; [left; exact Hq | |].
        -- exfalso. injection Hs' as -> -> _.
           destruct b as [x y]. simpl in Ein. congruence.
        -- right. split; [exists s'; exact Hs' | split; assumption].
Qed.

(** ** Sweeps *)

Section Engine.

Context {F : Type} {N : Num F}.
Variables solve_gambit solve_nashpy : Grid F -> result (list F * list F).
Variables (row col : option Z) (G : cell) (occgrid : Grid Z) (m n : Z)
          (D_max : F) (traveler : Traveler F)
          (ugrids vgrids egrids wgrids : list (Grid F)) (bounds : Bounds).

Local Abbreviation visit' :=
  (visit solve_gambit solve_nashpy row col G occgrid m n D_max traveler
         ugrids vgrids egrids wgrids bounds).
Local Abbreviation sweep_loop' fuel :=
  (sweep_loop solve_gambit solve_nashpy fuel row col G occgrid m n D_max
              traveler ugrids vgrids egrids wgrids bounds).
Local Abbreviation sweep' :=
  (sweep solve_gambit solve_nashpy row col G occgrid m n D_max traveler
         ugrids vgrids egrids wgrids bounds).
Local Abbreviation sweeps' k :=
  (sweeps solve_gambit solve_nashpy k row col G occgrid m n D_max traveler
          ugrids vgrids egrids wgrids bounds).
Local Abbreviation getNewCost' i c2g :=
  (getNewCost solve_gambit solve_nashpy row col i G occgrid m n c2g D_max
              traveler ugrids vgrids egrids wgrids).

(** One pass of the worklist loop, taken apart. *)
Lemma visit_inv (i : cell) (s s' : sweep_state F) :
  visit' i s = Ok s' ->
  exists cost action B,
    getNewCost' i (cost2go s) = Ok (cost, action) /\
    set2 (cost2go s) (fst i) (snd i) cost = Ok (cost2go s') /\
    set2 (action2go s) (fst i) (snd i) action = Ok (action2go s') /\
    getNeighbors i (fst (shape occgrid)) (snd (shape occgrid)) occgrid 1 = Ok B /\
    enqueue bounds B (visitQueue s) (visitHistory s)
      = (visitQueue s', visitHistory s').
Proof.
  unfold visit. intros H.
  destruct (getNewCost' i (cost2go s)) as [[cost action] | e] eqn:Ecost;
    cbn [bind] in H; [| discriminate].
  destruct (set2 (cost2go s) (fst i) (snd i) cost) as [c' | e] eqn:Ec;
    cbn [bind] in H; [| discriminate].
  destruct (set2 (action2go s) (fst i) (snd i) action) as [a' | e] eqn:Ea;
    cbn [bind] in H; [| discriminate].
  destruct (getNeighbors i _ _ occgrid 1) as [B | e] eqn:EB;
    cbn [bind] in H; [| discriminate].
  destruct (enqueue bounds B (visitQueue s) (visitHistory s)) as [q h] eqn:Eq.
  injection H as <-. exists cost, action, B. simpl. auto.
Qed.

(** The target is classified before anything is read. *)
Lemma getNewCost_target (c2g : Grid F) :
  getNewCost' G c2g = Ok (ofZ 0, "*").
Proof.
  unfold getNewCost. rewrite (proj2 (cell_eqb_eq G G) eq_refl). reflexivity.
Qed.

(** Invariants of the worklist loop: a property of the state that every
    pass preserves holds when the loop ends, and the queue is then empty. *)
Lemma sweep_loop_invariant (Inv : sweep_state F -> Prop) :
  (forall s i rest s',
      visitQueue s = i :: rest -> Inv s ->
      visit' i (popped s rest) = Ok s' -> Inv s') ->
  forall fuel s s',
    Inv s -> sweep_loop' fuel s = Some (Ok s') ->
    Inv s' /\ visitQueue s' = [].
Proof.
  intros Hstep. induction fuel as [| fuel IH]; intros s s' Hinv H; simpl in H.
  - destruct (visitQueue s) eqn:Eq; [| discriminate].
    injection H as <-. split; assumption.
  - destruct (visitQueue s) as [| i rest] eqn:Eq.
    + injection H as <-. split; assumption.
    + destruct (visit' i (popped s rest)) as [s1 | e] eqn:Ev; [| discriminate].
      apply (IH s1 s'); [| exact H].
      eapply Hstep; eassumption.
Qed.

(** *** The cells a sweep visits *)

(** A cell the worklist may hold: the target, or a cell strictly inside the
    bounds; its coordinates are not negative. *)
Definition queued (c : cell) : Prop :=
  nonneg c /\ (c = G \/ in_bounds bounds c = true).

Lemma visit_queue (i : cell) (s s' : sweep_state F) :
  nonneg i -> Forall queued (visitQueue s) ->
  visit' i s = Ok s' -> Forall queued (visitQueue s').
Proof.
  intros Hi Hq Hv.
  destruct (visit_inv _ _ _ Hv) as (cost & action & B & _ & _ & _ & HB & Henq).
  destruct (enqueue_spec _ _ _ _ _ _ Henq) as (added & Hq' & _ & Hin & Hfrom & _).
  rewrite Hq'. apply Forall_app. split; [exact Hq |].
  pose proof (getNeighbors_nonneg _ _ _ _ _ _ HB Hi) as Hnn.
  rewrite Forall_forall in *. intros b Hb. split.
  - destruct (Hfrom b Hb) as (sym & Hsym). apply (Hnn _ Hsym).
  - right. apply Hin. exact Hb.
Qed.

(** *** The target's slot *)

Definition target_set (c2g : Grid F) (a2g : Grid string) : Prop :=
  get2 c2g (fst G) (snd G) = Ok (ofZ 0) /\
  get2 a2g (fst G) (snd G) = Ok "*".

Lemma visit_target_set (i : cell) (s s' : sweep_state F) :
  nonneg G -> nonneg i ->
  (i = G \/ target_set (cost2go s) (action2go s)) ->
  visit' i s = Ok s' -> target_set (cost2go s') (action2go s').
Proof.
  intros HG Hi Hpre Hv.
  destruct (visit_inv _ _ _ Hv) as (cost & action & B & Hc & Hs1 & Hs2 & _ & _).
  destruct (cell_eqb i G) eqn:Eq.
  - apply cell_eqb_eq in Eq. subst i. rewrite getNewCost_target in Hc.
    injection Hc as <- <-.
    split; eapply set2_same; eassumption.
  - assert (Hne : i <> G).
    { intros ->. rewrite (proj2 (cell_eqb_eq G G) eq_refl) in Eq. discriminate. }
    destruct Hpre as [-> | [Hc0 Ha0]]; [congruence |].
    destruct HG as [HG0 HG1], Hi as [Hi0 Hi1].
    assert (Hne' : (fst i, snd i) <> (fst G, snd G)).
    { destruct i, G. simpl. exact Hne. }
    split.
    + rewrite (set2_other _ _ _ _ _ _ _ Hs1 Hi0 Hi1 HG0 HG1 Hne'). exact Hc0.
    + rewrite (set2_other _ _ _ _ _ _ _ Hs2 Hi0 Hi1 HG0 HG1 Hne'). exact Ha0.
Qed.

(** When a sweep completes, the target's cost is 0 and its action "*",
    whatever the grids were before. *)
Lemma sweep_target_set (grids grids' : Grid F * Grid string) :
  nonneg G -> sweep' grids = Some (Ok grids') ->
  target_set (fst grids') (snd grids').
Proof.
  intros HG H. unfold sweep in H.
  destruct (sweep_loop' (sweep_fuel bounds) _) as [[s' | e] |] eqn:Eloop;
    try discriminate.
  injection H as <-. simpl.
  pose (Inv := fun s : sweep_state F =>
     Forall queued (visitQueue s) /\
     (hd_error (visitQueue s) = Some G
      \/ target_set (cost2go s) (action2go s))).
  assert (Hres : Inv s' /\ visitQueue s' = []).
  { eapply (sweep_loop_invariant Inv); [| | exact Eloop].
    - intros s i rest s1 Hq [Hall Hpre] Hv.
      rewrite Hq in Hall, Hpre. inversion Hall as [| ? ? [Hi _] Hrest]; subst.
      split.
      + eapply visit_queue; [exact Hi | | exact Hv]. exact Hrest.
      + right. eapply visit_target_set; [exact HG | exact Hi | | exact Hv].
        destruct Hpre as [[= ->] | Hset]; [left; reflexivity | right; exact Hset].
    - split; simpl.
      + constructor; [| constructor]. split; [exact HG | left; reflexivity].
      + left. reflexivity. }
  destruct Hres as [[_ [Hhd | Hset]] Hempty]; [| exact Hset].
  rewrite Hempty in Hhd. discriminate.
Qed.

Lemma sweeps_target_set (k : nat) (grids grids' : Grid F * Grid string) :
  nonneg G -> sweeps' (S k) grids = Some (Ok grids') ->
  target_set (fst grids') (snd grids').
Proof.
  intros HG. revert grids. induction k as [| k IH]; intros grids H.
  - simpl in H.
    destruct (sweep' grids) as [[g1 | e] |] eqn:E1; try discriminate.
    injection H as <-. eapply sweep_target_set; eassumption.
  - change (sweeps' (S (S k)) grids)
      with (match sweep' grids with
            | Some (Ok g1) => sweeps' (S k) g1
            | other => other
            end) in H.
    destruct (sweep' grids) as [[g1 | e] |] eqn:E1; try discriminate.
    eapply IH. exact H.
Qed.

(** *** Cells no sweep writes *)

(** A cell of nonnegative coordinates that is not the target and not
    strictly inside the bounds. *)
Definition outside (x : cell) : Prop :=
  nonneg x /\ x <> G /\ in_bounds bounds x = false.

Definition same_at (x : cell) (g g' : Grid F * Grid string) : Prop :=
  get2 (fst g') (fst x) (snd x) = get2 (fst g) (fst x) (snd x) /\
  get2 (snd g') (fst x) (snd x) = get2 (snd g) (fst x) (snd x).

Lemma visit_frame (i x : cell) (s s' : sweep_state F) :
  queued i -> outside x -> visit' i s = Ok s' ->
  same_at x (cost2go s, action2go s) (cost2go s', action2go s').
Proof.
  intros [[Hi0 Hi1] Hi] [[Hx0 Hx1] [HxG Hxb]] Hv.
  destruct (visit_inv _ _ _ Hv) as (cost & action & B & _ & Hs1 & Hs2 & _ & _).
  assert (Hne : (fst i, snd i) <> (fst x, snd x)).
  { destruct i as [i0 i1], x as [x0 x1]. simpl. intros [= -> ->].
    destruct Hi as [Hi | Hin]; [apply HxG; exact Hi | congruence]. }
  split; simpl.
  - exact (set2_other _ _ _ _ _ _ _ Hs1 Hi0 Hi1 Hx0 Hx1 Hne).
  - exact (set2_other _ _ _ _ _ _ _ Hs2 Hi0 Hi1 Hx0 Hx1 Hne).
Qed.

Lemma sweep_frame (x : cell) (grids grids' : Grid F * Grid string) :
  nonneg G -> outside x -> sweep' grids = Some (Ok grids') ->
  same_at x grids grids'.
Proof.
  intros HG Hx H. unfold sweep in H.
  destruct (sweep_loop' (sweep_fuel bounds) _) as [[s' | e] |] eqn:Eloop;
    try discriminate.
  injection H as <-.
  pose (Inv := fun s : sweep_state F =>
     Forall queued (visitQueue s) /\
     same_at x grids (cost2go s, action2go s)).
  assert (Hres : Inv s' /\ visitQueue s' = []).
  { eapply (sweep_loop_invariant Inv); [| | exact Eloop].
    - intros s i rest s1 Hq [Hall [Hc Ha]] Hv.
      rewrite Hq in Hall. inversion Hall as [| ? ? Hi Hrest]; subst.
      split.
      + eapply visit_queue; [exact (proj1 Hi) | | exact Hv]. exact Hrest.
      + destruct (visit_frame _ _ _ _ Hi Hx Hv) as [Hc' Ha'].
        simpl in Hc', Ha', Hc, Ha. split; simpl; congruence.
    - split; simpl.
      + constructor; [| constructor]. split; [exact HG | left; reflexivity].
      + split; reflexivity. }
  exact (proj2 (proj1 Hres)).
Qed.

Lemma sweeps_frame (x : cell) (k : nat) :
  nonneg G -> outside x ->
  forall grids grids', sweeps' k grids = Some (Ok grids') -> same_at x grids grids'.
Proof.
  intros HG Hx. induction k as [| k IH]; intros grids grids' H; simpl in H.
  - injection H as <-. split; reflexivity.
  - destruct (sweep' grids) as [[g1 | e] |] eqn:E1; try discriminate.
    destruct (sweep_frame _ _ _ HG Hx E1) as [Hc1 Ha1].
    destruct (IH _ _ H) as [Hc2 Ha2].
    split; congruence.
Qed.

(** *** Fuel *)

(** The cells strictly inside the bounds, row by row. *)
Definition inner_rows : list Z :=
  map (fun k => fst (upperleft bounds) + 1 + Z.of_nat k)
      (seq 0 (Z.to_nat (Z.max 0 (fst (lowerright bounds) - fst (upperleft bounds) - 1)))).

Definition inner_cols : list Z :=
  map (fun k => snd (upperleft bounds) + 1 + Z.of_nat k)
      (seq 0 (Z.to_nat (Z.max 0 (snd (lowerright bounds) - snd (upperleft bounds) - 1)))).

Definition inner_cells : list cell := list_prod inner_rows inner_cols.

Lemma inner_cells_complete (b : cell) :
  in_bounds bounds b = true -> In b inner_cells.
Proof.
  intros Hb. apply in_bounds_iff in Hb. destruct b as [b0 b1]. simpl in Hb.
  unfold inner_cells. apply in_prod.
  - unfold inner_rows. apply in_map_iff.
    exists (Z.to_nat (b0 - fst (upperleft bounds) - 1)). split; [lia |].
    apply in_seq. lia.
  - unfold inner_cols. apply in_map_iff.
    exists (Z.to_nat (b1 - snd (upperleft bounds) - 1)). split; [lia |].
    apply in_seq. lia.
Qed.

Lemma inner_cells_length : S (List.length inner_cells) = sweep_fuel bounds.
Proof.
  unfold inner_cells, inner_rows, inner_cols, sweep_fuel.
  f_equal. etransitivity; [apply length_prod |].
  rewrite !length_map, !length_seq.
  rewrite Z2Nat.inj_mul by lia. reflexivity.
Qed.

Lemma history_bound (h : list cell) :
  NoDup h -> Forall (fun b => in_bounds bounds b = true) h ->
  (S (List.length h) <= sweep_fuel bounds)%nat.
Proof.
  intros Hnd Hall. rewrite <- inner_cells_length. apply le_n_S.
  apply NoDup_incl_length; [exact Hnd |].
  intros b Hb. apply inner_cells_complete.
  rewrite Forall_forall in Hall. apply Hall, Hb.
Qed.

(** The worklist loop ends within its fuel when what is queued and what
    may still be queued fit in it: every pass removes one cell from the
    queue, and a cell is appended at most once per sweep. *)
Lemma sweep_loop_fuel (fuel : nat) :
  forall s : sweep_state F,
    NoDup (visitHistory s) ->
    Forall (fun b => in_bounds bounds b = true) (visitHistory s) ->
    (List.length (visitQueue s) + sweep_fuel bounds
     <= S fuel + List.length (visitHistory s))%nat ->
    sweep_loop' fuel s <> None.
Proof.
  induction fuel as [| fuel IH]; intros s Hnd Hall Hfuel; simpl.
  - destruct (visitQueue s) as [| i rest] eqn:Eq; [discriminate |].
    pose proof (history_bound _ Hnd Hall). simpl in Hfuel. lia.
  - destruct (visitQueue s) as [| i rest] eqn:Eq; [discriminate |].
    destruct (visit' i (popped s rest)) as [s1 | e] eqn:Ev; [| discriminate].
    destruct (visit_inv _ _ _ Ev) as (cost & action & B & _ & _ & _ & _ & Henq).
    destruct (enqueue_spec _ _ _ _ _ _ Henq)
      as (added & Hq' & Hh' & Hin & _ & Hnd').
    simpl in Hq', Hh', Hnd'.
    apply IH.
    + apply Hnd'. exact Hnd.
    + rewrite Hh'. apply Forall_app. split; [| exact Hall].
      apply Forall_rev. exact Hin.
    + rewrite Hq', Hh', !length_app, length_rev. simpl in Hfuel. lia.
Qed.

(** A sweep never exhausts the fuel it is given. *)
Lemma sweep_terminates (grids : Grid F * Grid string) : sweep' grids <> None.
Proof.
  unfold sweep.
  destruct (sweep_loop' (sweep_fuel bounds) _) as [[s' | e] |] eqn:Eloop;
    try discriminate.
  exfalso. revert Eloop. unfold sweep_fuel. apply sweep_loop_fuel; simpl.
  - constructor.
  - constructor.
  - unfold sweep_fuel. lia.
Qed.

Lemma sweeps_terminates (k : nat) :
  forall grids : Grid F * Grid string, sweeps' k grids <> None.
Proof.
  induction k as [| k IH]; intros grids; simpl; [discriminate |].
  destruct (sweep' grids) as [[g1 | e] |] eqn:E1.
  - apply IH.
  - discriminate.
  - exfalso. exact (sweep_terminates _ E1).
Qed.

End Engine.

(** ** The propagation engine as a whole *)

(** The number [M] of cells of the bounded region, and the number of
    sweeps [getCost2go] makes. *)
Definition region_cells (bounds : Bounds) : Z :=
  Z.abs (fst (lowerright bounds) - fst (upperleft bounds))
  * Z.abs (snd (lowerright bounds) - snd (upperleft bounds)).

Definition sweep_count (bounds : Bounds) (iterations : option Z) : Z :=
  match iterations with
  | None => region_cells bounds
  | Some k => k
  end.

Section Propagation.

Context {F : Type} {N : Num F}.
Variables solve_gambit solve_nashpy : Grid F -> result (list F * list F).

(** The grids [getCost2go] starts from. *)
Definition initial_cost2go (occgrid : Grid Z) (bounds : Bounds) : Grid F :=
  full (fst (shape occgrid)) (snd (shape occgrid))
       (fadd (ofZ 0) (D_max_of (region_cells bounds))).

Definition initial_action2go (occgrid : Grid Z) : Grid string :=
  full (fst (shape occgrid)) (snd (shape occgrid)) "-".

(** A call of [getCost2go] with bounds, as the sweeps it makes. *)
Lemma getCost2go_sweeps (traveler : Traveler F) (occgrid : Grid Z)
  (ugrids vgrids egrids wgrids : list (Grid F))
  (bounds : Bounds) (iterations : option Z) (out : cost2go_output F) :
  getCost2go solve_gambit solve_nashpy traveler occgrid
             ugrids vgrids egrids wgrids (Some bounds) iterations
    = Some (Ok out) ->
  exists row col m n,
    sweeps solve_gambit solve_nashpy
           (Z.to_nat (sweep_count bounds iterations)) row col
           (target traveler) occgrid m n (D_max_of (region_cells bounds))
           traveler ugrids vgrids egrids wgrids bounds
           (initial_cost2go occgrid bounds, initial_action2go occgrid)
      = Some (Ok (out_cost2go out, out_action2go out)) /\
    out_work2go out
      = full (fst (shape occgrid)) (snd (shape occgrid)) (ofZ 0).
Proof.
  unfold getCost2go, initial_cost2go, initial_action2go, sweep_count, region_cells.
  destruct (shape occgrid) as [full_m full_n]. cbn [fst snd].
  intros H. do 4 eexists.
  match type of H with
  | match ?X with _ => _ end = _ => destruct X as [[[c2g a2g] | e] |] eqn:E
  end; try discriminate.
  injection H as <-. cbn [out_cost2go out_action2go out_work2go].
  split; [| reflexivity].
  destruct iterations; exact E.
Qed.

(** [getCost2go] always ends: with a result or with an exception. *)
Theorem getCost2go_terminates (traveler : Traveler F) (occgrid : Grid Z)
  (ugrids vgrids egrids wgrids : list (Grid F))
  (bounds : option Bounds) (iterations : option Z) :
  getCost2go solve_gambit solve_nashpy traveler occgrid
             ugrids vgrids egrids wgrids bounds iterations <> None.
Proof.
  unfold getCost2go. destruct (shape occgrid) as [full_m full_n].
  destruct bounds as [bounds |]; [| discriminate].
  match goal with
  | |- match ?X with _ => _ end <> _ => destruct X as [[[c2g a2g] | e] |] eqn:E
  end; try discriminate.
  exfalso. revert E. apply sweeps_terminates.
Qed.

(** C6: when [getCost2go] returns after at least one sweep, the target's
    entry of the cost-to-go grid is 0 and its entry of the action grid is
    "*", for every iteration budget and however often the target was
    popped (the target being a cell: its row and column are not
    negative). *)
Theorem getCost2go_target_fixed_point (traveler : Traveler F) (occgrid : Grid Z)
  (ugrids vgrids egrids wgrids : list (Grid F))
  (bounds : Bounds) (iterations : option Z) (out : cost2go_output F) :
  nonneg (target traveler) ->
  0 < sweep_count bounds iterations ->
  getCost2go solve_gambit solve_nashpy traveler occgrid
             ugrids vgrids egrids wgrids (Some bounds) iterations
    = Some (Ok out) ->
  get2 (out_cost2go out) (fst (target traveler)) (snd (target traveler))
    = Ok (ofZ 0) /\
  get2 (out_action2go out) (fst (target traveler)) (snd (target traveler))
    = Ok "*".
Proof.
  intros HG Hk H.
  destruct (getCost2go_sweeps _ _ _ _ _ _ _ _ _ H)
    as (row & col & m & n & Hs & _).
  destruct (Z.to_nat (sweep_count bounds iterations)) as [| k] eqn:Ek; [lia |].
  exact (sweeps_target_set _ _ _ _ _ _ _ _ _ _ _ _ _ _ _ _ _ _ HG Hs).
Qed.

(** C9, as the code has it: a neighbor is appended to the worklist exactly
    when it lies strictly inside the bounds rectangle, on all four sides,
    and is not yet in the sweep's history; and when [getCost2go] returns,
    every cell other than the target that is not strictly inside the
    rectangle (the upper-left row and column as well as the lower-right
    ones) still holds its initial cost and action. *)
Theorem getCost2go_bounds_open_rectangle :
  (forall (bounds : Bounds) (B : list nbr) (q h q' h' : list cell) (b : cell),
      enqueue bounds B q h = (q', h') ->
      (In b q' <->
         In b q \/
         ((exists s, In (fst b, snd b, s) B) /\
          (fst (upperleft bounds) < fst b < fst (lowerright bounds) /\
           snd (upperleft bounds) < snd b < snd (lowerright bounds)) /\
          ~ In b h)))
  /\
  (forall (traveler : Traveler F) (occgrid : Grid Z)
          (ugrids vgrids egrids wgrids : list (Grid F))
          (bounds : Bounds) (iterations : option Z) (out : cost2go_output F)
          (x : cell),
      getCost2go solve_gambit solve_nashpy traveler occgrid
                 ugrids vgrids egrids wgrids (Some bounds) iterations
        = Some (Ok out) ->
      nonneg (target traveler) -> nonneg x -> x <> target traveler ->
      ~ (fst (upperleft bounds) < fst x < fst (lowerright bounds) /\
         snd (upperleft bounds) < snd x < snd (lowerright bounds)) ->
      get2 (out_cost2go out) (fst x) (snd x)
        = get2 (initial_cost2go occgrid bounds) (fst x) (snd x) /\
      get2 (out_action2go out) (fst x) (snd x)
        = get2 (initial_action2go occgrid) (fst x) (snd x)).
Proof.
  split.
  - intros bounds B q h q' h' b H.
    rewrite (enqueue_In _ _ _ _ _ _ b H), in_bounds_iff. reflexivity.
  - intros traveler occgrid ugrids vgrids egrids wgrids bounds iterations out x
           H HG Hx Hne Hout.
    destruct (getCost2go_sweeps _ _ _ _ _ _ _ _ _ H)
      as (row & col & m & n & Hs & _).
    assert (Hoff : outside (target traveler) bounds x).
    { split; [exact Hx |]. split; [exact Hne |].
      destruct (in_bounds bounds x) eqn:E; [| reflexivity].
      exfalso. apply Hout. apply in_bounds_iff. exact E. }
    exact (sweeps_frame _ _ _ _ _ _ _ _ _ _ _ _ _ _ _ _ _ HG Hoff _ _ Hs).
Qed.

End Propagation.

(* ================================================================== *)
(** * The program on IEEE floats: runs *)

(** The traveler [getTraveler] builds for "4way" travel at the default
    speed 10. *)
Definition traveler_float (target : cell) : Traveler float :=
  {| start := (0, 0); target := target;
     actionspace := ["^"; "v"; "<"; ">"];
     action2radians := getTraveler_action2radians;
     speed_cps := 10%float |}.

(** A 4 by 4 region without obstacle, bounded by (0, 0) and (3, 3), with
    one force source that is zero everywhere; its error grid is zero and its
    weight grid is one unless said otherwise. The target is (1, 1). *)
Definition occ4 : Grid Z := full 4 4 0.
Definition zero4 : Grid float := full 4 4 0%float.
Definition one4 : Grid float := full 4 4 1%float.
Definition bounds4 : Bounds := {| upperleft := (0, 0); lowerright := (3, 3) |}.

(** [zero4] with the value [v] at one cell. *)
Definition zero4_but (r c : Z) (v : float) : Grid float :=
  match set2 zero4 r c v with
  | Ok g => g
  | Raise _ => zero4
  end.

Definition one4_but (r c : Z) (v : float) : Grid float :=
  match set2 one4 r c v with
  | Ok g => g
  | Raise _ => one4
  end.

(** One sweep with the error grid [e] and the weight grid [w]. *)
Definition run4 (e w : Grid float) : option (result (cost2go_output float)) :=
  getCost2go no_solver no_solver (traveler_float (1, 1)) occ4
             [zero4] [zero4] [e] [w] (Some bounds4) (Some 1).

Definition D4 : float := D_max_of (region_cells bounds4).

(** What the sweep returns with zero error and unit weight. *)
Definition out4 : cost2go_output float :=
  {| out_cost2go :=
       [ [D4; D4; D4; D4];
         [D4; 0%float; 10%float; D4];
         [D4; 10%float; 20%float; D4];
         [D4; D4; D4; D4] ];
     out_work2go := zero4;
     out_action2go :=
       [ ["-"; "-"; "-"; "-"];
         ["-"; "*"; "<"; "-"];
         ["-"; "^"; "^"; "-"];
         ["-"; "-"; "-"; "-"] ] |}.

Lemma run4_out4 : run4 zero4 one4 = Some (Ok out4).
Proof. vm_compute. reflexivity. Qed.

(** ** C6 and C9 on that run *)

Lemma getCost2go_target_fixed_point_witness :
  get2 (out_cost2go out4) 1 1 = Ok 0%float /\
  get2 (out_action2go out4) 1 1 = Ok "*".
Proof.
  assert (HG : nonneg (target (traveler_float (1, 1)))) by (split; simpl; lia).
  assert (Hk : 0 < sweep_count bounds4 (Some 1)) by (simpl; lia).
  exact (getCost2go_target_fixed_point no_solver no_solver
           (traveler_float (1, 1)) occ4 [zero4] [zero4] [zero4] [one4]
           bounds4 (Some 1) out4 HG Hk run4_out4).
Defined.

(** Why the target must be a cell: Python reads a negative index from the
    end, so the target (-2, -2) of a 4 by 4 grid shares its slot with the
    cell (2, 2); with bounds that admit both, the sweep evaluates (2, 2)
    after the target and leaves its cost and action in that slot. *)
Remark negative_target_is_overwritten :
  exists out,
    getCost2go no_solver no_solver (traveler_float (-2, -2)) occ4
               [zero4] [zero4] [zero4] [one4]
               (Some {| upperleft := (-5, -5); lowerright := (3, 3) |})
               (Some 1) = Some (Ok out) /\
    get2 (out_cost2go out) (-2) (-2) = Ok 20%float /\
    get2 (out_action2go out) (-2) (-2) = Ok "<".
Proof.
  eexists. split; [vm_compute; reflexivity |]. split; reflexivity.
Qed.

(** The cell (0, 1), on the upper-left row of the bounds and next to the
    target, keeps its initial cost and action. *)
Lemma getCost2go_bounds_open_rectangle_witness :
  get2 (out_cost2go out4) 0 1
    = get2 (initial_cost2go (F := float) occ4 bounds4) 0 1 /\
  get2 (out_action2go out4) 0 1 = get2 (initial_action2go occ4) 0 1.
Proof.
  assert (HG : nonneg (target (traveler_float (1, 1)))) by (split; simpl; lia).
  assert (Hx : nonneg (0, 1)) by (split; simpl; lia).
  assert (Hne : (0, 1) <> target (traveler_float (1, 1))) by discriminate.
  assert (Hout : ~ (fst (upperleft bounds4) < fst (0, 1) < fst (lowerright bounds4) /\
                    snd (upperleft bounds4) < snd (0, 1) < snd (lowerright bounds4)))
    by (simpl; lia).
  exact (proj2 (getCost2go_bounds_open_rectangle no_solver no_solver)
           (traveler_float (1, 1)) occ4 [zero4] [zero4] [zero4] [one4]
           bounds4 (Some 1) out4 (0, 1) run4_out4 HG Hx Hne Hout).
Defined.

(** C9, as the claim states it, fails: (0, 1) lies in the half-open
    rectangle from (0, 0) to (3, 3), on its upper-left row, and it is a
    neighbor of the target (1, 1); it is not appended to the worklist, and
    after the sweep it still holds the initial action "-" and cost. *)
Lemma upper_left_row_is_not_enqueued :
  (fst (upperleft bounds4) <= 0 < fst (lowerright bounds4) /\
   snd (upperleft bounds4) <= 1 < snd (lowerright bounds4)) /\
  (exists B, getNeighbors (1, 1) 4 4 occ4 1 = Ok B /\
             In (0, 1, "^") B /\
             ~ In (0, 1) (fst (enqueue bounds4 B [] []))) /\
  (exists out, run4 zero4 one4 = Some (Ok out) /\
               get2 (out_action2go out) 0 1 = Ok "-" /\
               get2 (out_cost2go out) 0 1 = Ok D4).
Proof.
  split; [simpl; lia |]. split.
  - eexists. split; [vm_compute; reflexivity |]. split.
    + left. reflexivity.
    + vm_compute. intros H.
      repeat (destruct H as [H | H]; [discriminate H |]). exact H.
  - exists out4. split; [exact run4_out4 |]. split; reflexivity.
Qed.

(** ** C2: the test for a cell surrounded by [D_max] *)

(** The 3 by 3 grid after the target (2, 1) has been given cost 0: every
    other cell still holds [D_max]. *)
Definition D3 : float := D_max_of 9.
Definition zero3 : Grid float := full 3 3 0%float.
Definition one3 : Grid float := full 3 3 1%float.
Definition cost_below_known : Grid float :=
  [ [D3; D3; D3];
    [D3; D3; D3];
    [D3; 0%float; D3] ].

(** C2 at a failing input: the cell (1, 1), neither target nor obstacle,
    whose neighbor directly below, (2, 1), holds the finite cost 0. The
    eight comparisons of [getNewCost] read the cell above twice and the cell
    below never, so the cell counts as surrounded and is given [D_max] and
    "-" without a game being built; building and solving its game
    ([f_work]) would give the cost 10 with the move "v". *)
Theorem getNewCost_prunes_cell_above_known_cost :
  get2 cost_below_known 2 1 = Ok 0%float /\
  feqb 0%float D3 = false /\
  surrounded cost_below_known D3 (1, 1) = Ok true /\
  getNewCost no_solver no_solver (Some 2) (Some 2) (1, 1) (2, 1) free3 3 3
             cost_below_known D3 (traveler_float (2, 1))
             [zero3] [zero3] [zero3] [one3]
    = Ok (D3, "-") /\
  f_work no_solver no_solver (Some 2) (Some 2) (1, 1) 3 3
         cost_below_known D3 free3 (traveler_float (2, 1))
         [zero3] [zero3] [zero3] [one3] 0
    = Ok (10%float, "v").
Proof.
  split; [reflexivity |].
  split; [vm_compute; reflexivity |].
  split; [vm_compute; reflexivity |].
  split; vm_compute; reflexivity.
Qed.

(** The test never reads the cell below: on a grid with a row above and
    below and a column left and right of the cell, the value stored below
    does not change its outcome. *)
Lemma surrounded_ignores_cell_below {F : Type} {N : Num F}
  (c2g c2g' : Grid F) (D x : F) (i0 i1 : Z) :
  1 <= i0 -> 1 <= i1 ->
  set2 c2g (i0 + 1) i1 x = Ok c2g' ->
  surrounded c2g' D (i0, i1) = surrounded c2g D (i0, i1).
Proof.
  intros H0 H1 Hset. unfold surrounded, at_D_max.
  rewrite !(set2_other _ _ _ _ _ _ _ Hset)
    by (try lia; intros Heq; pose proof (f_equal fst Heq) as Hf;
        pose proof (f_equal snd Heq) as Hs; simpl in Hf, Hs; lia).
  reflexivity.
Qed.

(** ** C4 and C5: what a sweep reads and what it returns *)

(** C4 at a failing input. Error 5 stored at (2, 1), a cell the sweep
    evaluates, changes nothing: the sweep returns what it returns with zero
    error. Error 5 stored at (3, 3), the last cell of the grid, which no
    sweep evaluates, raises the cost computed at (2, 1) above 10; and with
    that error, weight 0 stored at (2, 1) changes nothing either. *)
Theorem f_work_reads_errors_and_weights_at_last_cell :
  run4 (zero4_but 2 1 5%float) one4 = run4 zero4 one4 /\
  get2 (out_cost2go out4) 2 1 = Ok 10%float /\
  (exists out c,
      run4 (zero4_but 3 3 5%float) one4 = Some (Ok out) /\
      get2 (out_cost2go out) 2 1 = Ok c /\
      PrimFloat.ltb 10%float c = true) /\
  run4 (zero4_but 3 3 5%float) (one4_but 2 1 0%float)
    = run4 (zero4_but 3 3 5%float) one4.
Proof.
  split; [vm_compute; reflexivity |].
  split; [reflexivity |].
  split.
  - destruct (run4 (zero4_but 3 3 5%float) one4) as [[out | e] |] eqn:E;
      [| vm_compute in E; discriminate E | vm_compute in E; discriminate E].
    exists out.
    assert (Hc : exists c, get2 (out_cost2go out) 2 1 = Ok c
                           /\ PrimFloat.ltb 10%float c = true).
    { vm_compute in E. injection E as <-. eexists. split; reflexivity. }
    destruct Hc as (c & Hc1 & Hc2). exists c. auto.
  - vm_compute. reflexivity.
Qed.

(** Where the names [row] and [col] are not bound at all, [f_work] cannot
    read a single error: it raises [NameError]. *)
Lemma f_work_unbound_names {F : Type} {N : Num F}
  (solve_gambit solve_nashpy : Grid F -> result (list F * list F))
  (i : cell) (m n : Z) (cost2go : Grid F) (D_max : F) (env : Grid Z)
  (traveler : Traveler F) (e : Grid F)
  (ugrids vgrids egrids wgrids : list (Grid F)) (method : Z) :
  f_work solve_gambit solve_nashpy None None i m n cost2go D_max env traveler
         ugrids vgrids (e :: egrids) wgrids method = Raise NameError.
Proof. reflexivity. Qed.

(** The work grid [getCost2go] returns is the grid of zeros it allocated. *)
Lemma getCost2go_work2go {F : Type} {N : Num F}
  (solve_gambit solve_nashpy : Grid F -> result (list F * list F))
  (traveler : Traveler F) (occgrid : Grid Z)
  (ugrids vgrids egrids wgrids : list (Grid F))
  (bounds : Bounds) (iterations : option Z) (out : cost2go_output F) :
  getCost2go solve_gambit solve_nashpy traveler occgrid
             ugrids vgrids egrids wgrids (Some bounds) iterations
    = Some (Ok out) ->
  out_work2go out = full (fst (shape occgrid)) (snd (shape occgrid)) (ofZ 0).
Proof.
  intros H.
  destruct (getCost2go_sweeps _ _ _ _ _ _ _ _ _ _ _ H) as (? & ? & ? & ? & _ & Hw).
  exact Hw.
Qed.

(** C5 at a failing input: the sweep evaluates (2, 1) and chooses the move
    "^" there, whose immediate effort against the zero field is 10; the
    returned work grid holds 0 at (2, 1), as everywhere. *)
Theorem getCost2go_work2go_stays_zero :
  exists out,
    run4 zero4 one4 = Some (Ok out) /\
    get2 (out_action2go out) 2 1 = Ok "^" /\
    getOutcome "^" [0%float] [0%float] [1%float] (traveler_float (1, 1)) D4
               None None None = Ok (10%float, 10%float) /\
    get2 (out_work2go out) 2 1 = Ok 0%float /\
    out_work2go out = full 4 4 0%float.
Proof.
  exists out4. split; [exact run4_out4 |].
  split; [reflexivity |].
  split; [vm_compute; reflexivity |].
  split; reflexivity.
Qed.

(** C7 on a concrete call: everything before the branch succeeds, and the
    branch raises [NameError]. *)
Lemma getOutcome_target_symbol_NameError :
  getOutcome "*" [1%float] [0%float] [1%float] (traveler_float (2, 1)) D3
             (Some cost_below_known) (Some 1) (Some 1) = Raise NameError.
Proof. vm_compute. reflexivity. Qed.

(* ================================================================== *)
(** * The Williams solver *)

Definition zsum (l : list Z) : Z := fold_right Z.add 0 l.

Lemma In_range (n k : Z) : In k (range n) <-> 0 <= k < n.
Proof.
  unfold range. rewrite in_map_iff. split.
  - intros (p & <- & Hp). apply in_seq in Hp. lia.
  - intros H. exists (Z.to_nat k). split; [lia | apply in_seq; lia].
Qed.

Lemma length_range (n : Z) : List.length (range n) = Z.to_nat n.
Proof. unfold range. rewrite length_map, length_seq. reflexivity. Qed.

Lemma Forall_set_nth {A : Type} (P : A -> Prop) (l : list A) (p : nat) (a : A) :
  P a -> Forall P l -> Forall P (set_nth l p a).
Proof.
  intros Ha. revert p. induction l as [| x l IH]; intros p Hl; simpl.
  - destruct p; constructor.
  - inversion Hl; subst. destruct p; constructor; auto.
Qed.

Lemma zsum_set_nth (l : list Z) (p : nat) (c a : Z) :
  nth_error l p = Some c -> zsum (set_nth l p a) = zsum l - c + a.
Proof.
  revert p. induction l as [| x l IH]; intros [| p]; simpl; try discriminate.
  - intros [= ->]. lia.
  - intros H. rewrite (IH p H). lia.
Qed.

(** The columns of a rectangular matrix with at least one row. *)
Lemma zip_star_rect {A : Type} (m n : nat) :
  forall rows : Grid A,
    List.length rows = S m ->
    Forall (fun r => List.length r = n) rows ->
    List.length (zip_star rows) = n /\
    Forall (fun c => List.length c = S m) (zip_star rows).
Proof.
  induction m as [| m IH]; intros rows Hlen Hall.
  - destruct rows as [| r [| r2 rest]]; try discriminate.
    inversion Hall; subst. simpl. rewrite length_map. split; [reflexivity |].
    apply Forall_map. apply Forall_forall. reflexivity.
  - destruct rows as [| r [| r2 rest]]; try discriminate.
    inversion Hall as [| ? ? Hr Hrest]; subst.
    destruct (IH (r2 :: rest)) as [Hl Hc]; [simpl in *; lia | exact Hrest |].
    change (zip_star (r :: r2 :: rest))
      with (map (fun '(x, col) => x :: col) (combine r (zip_star (r2 :: rest)))).
    rewrite length_map, length_combine, Hl. split; [lia |].
    apply Forall_map. apply Forall_forall. intros [x col] Hin.
    apply in_combine_r in Hin. rewrite Forall_forall in Hc.
    simpl. rewrite (Hc _ Hin). reflexivity.
Qed.

Lemma fold_select_In {A : Type} (better : A -> A -> bool) (l : list A) (x : A) :
  In (fold_left (fun cur it => if better it cur then it else cur) l x) (x :: l).
Proof.
  revert x. induction l as [| y l IH]; intros x; simpl; [left; reflexivity |].
  destruct (better y x).
  - destruct (IH y) as [H | H]; [right; left; exact H | right; right; exact H].
  - destruct (IH x) as [H | H]; [left; exact H | right; right; exact H].
Qed.

Section Williams.

Context {F : Type} {N : Num F}.

Lemma pymin_In (l : list (F * Z)) :
  l <> [] -> exists x, pymin l = Ok x /\ In x l.
Proof.
  destruct l as [| x l]; [congruence |]. intros _.
  eexists. split; [reflexivity | apply fold_select_In].
Qed.

Lemma pymax_In (l : list (F * Z)) :
  l <> [] -> exists x, pymax l = Ok x /\ In x l.
Proof.
  destruct l as [| x l]; [congruence |]. intros _.
  eexists. split; [reflexivity | apply fold_select_In].
Qed.

Lemma map_add_ok (xs ys : list F) :
  List.length xs = List.length ys ->
  exists r, map_add xs ys = Ok r /\ List.length r = List.length ys.
Proof.
  revert ys. induction xs as [| x xs IH]; intros [| y ys] Hlen;
    try discriminate.
  - exists []. split; reflexivity.
  - destruct (IH ys) as (r & Hr & Hl); [simpl in Hlen; lia |].
    exists (fadd x y :: r). simpl. rewrite Hr. simpl. rewrite Hl.
    split; reflexivity.
Qed.

Lemma incr_ok (cnt : list Z) (k : Z) :
  0 <= k < len cnt ->
  exists cnt',
    incr cnt k = Ok cnt' /\
    List.length cnt' = List.length cnt /\
    (Forall (Z.le 0) cnt -> Forall (Z.le 0) cnt') /\
    zsum cnt' = zsum cnt + 1.
Proof.
  intros Hk. unfold incr.
  destruct (pyget_in_range cnt k Hk) as (c & Hc & Hnth).
  rewrite Hc. cbn [bind]. unfold pyset.
  rewrite (norm_index_in_range _ _ Hk).
  eexists. split; [reflexivity |].
  split; [apply length_set_nth |]. split.
  - intros Hall. apply Forall_set_nth; [| exact Hall].
    rewrite Forall_forall in Hall.
    assert (0 <= c) by (apply Hall; eapply nth_error_In; eassumption). lia.
  - rewrite (zsum_set_nth _ _ _ _ Hnth). lia.
Qed.

(** The state of the loop after [k] passes on an [m] by [n] matrix. *)
Record williams_wf (m n : nat) (k : Z) (s : williams_state F) : Prop := {
  wf_rowcnt : List.length (rowcnt s) = m;
  wf_colcnt : List.length (colcnt s) = n;
  wf_rowcum : List.length (row_cum_payoff s) = m;
  wf_colcum : List.length (col_cum_payoff s) = n;
  wf_active : 0 <= active s < Z.of_nat m;
  wf_rownn  : Forall (Z.le 0) (rowcnt s);
  wf_colnn  : Forall (Z.le 0) (colcnt s);
  wf_rowsum : zsum (rowcnt s) = k;
  wf_colsum : zsum (colcnt s) = k
}.

Variables (pm tr : Grid F) (m n : nat).
Hypothesis pm_rows : List.length pm = S m.
Hypothesis pm_cols : Forall (fun r => List.length r = S n) pm.
Hypothesis tr_rows : List.length tr = S n.
Hypothesis tr_cols : Forall (fun c => List.length c = S m) tr.

Let colpos : list Z := range (Z.of_nat (S n)).
Let rowpos : list Z := map Z.opp (range (Z.of_nat (S m))).

Lemma williams_step_ok (k : Z) (s : williams_state F) :
  williams_wf (S m) (S n) k s ->
  exists s', williams_step pm tr colpos rowpos s = Ok s' /\
             williams_wf (S m) (S n) (k + 1) s'.
Proof.
  intros [Hrc Hcc Hrcum Hccum Hact Hrnn Hcnn Hrs Hcs]. unfold williams_step.
  destruct (incr_ok (rowcnt s) (active s)) as (rc' & Ei & Hl1 & Hn1 & Hs1).
  { unfold len. lia. }
  rewrite Ei. cbn [bind].
  destruct (pyget_in_range pm (active s)) as (prow & Eprow & Hnth).
  { unfold len. lia. }
  rewrite Eprow. cbn [bind].
  assert (Hprow : List.length prow = S n).
  { rewrite Forall_forall in pm_cols. apply pm_cols.
    eapply nth_error_In; eassumption. }
  destruct (map_add_ok prow (col_cum_payoff s)) as (cc & Ecc & Hlcc); [lia |].
  rewrite Ecc. cbn [bind].
  destruct (pymin_In (combine cc colpos)) as (cmin & Emin & Hmin).
  { intros Hnil. apply (f_equal (@List.length _)) in Hnil.
    rewrite length_combine in Hnil. subst colpos.
    rewrite length_range in Hnil. simpl in Hnil. lia. }
  rewrite Emin. cbn [bind].
  assert (Hj : 0 <= snd cmin < Z.of_nat (S n)).
  { destruct cmin as [v j]. apply in_combine_r in Hmin.
    apply In_range in Hmin. exact Hmin. }
  destruct (incr_ok (colcnt s) (snd cmin)) as (ccnt' & Ej & Hl2 & Hn2 & Hs2).
  { unfold len. lia. }
  rewrite Ej. cbn [bind].
  destruct (pyget_in_range tr (snd cmin)) as (pcol & Epcol & Hnth2).
  { unfold len. lia. }
  rewrite Epcol. cbn [bind].
  assert (Hpcol : List.length pcol = S m).
  { rewrite Forall_forall in tr_cols. apply tr_cols.
    eapply nth_error_In; eassumption. }
  destruct (map_add_ok pcol (row_cum_payoff s)) as (rcum & Ercum & Hlrc); [lia |].
  rewrite Ercum. cbn [bind].
  destruct (pymax_In (combine rcum rowpos)) as (rmax & Emax & Hmax).
  { intros Hnil. apply (f_equal (@List.length _)) in Hnil.
    rewrite length_combine in Hnil. subst rowpos.
    rewrite length_map, length_range in Hnil. simpl in Hnil. lia. }
  rewrite Emax. cbn [bind].
  assert (Hi : 0 <= - snd rmax < Z.of_nat (S m)).
  { destruct rmax as [v i]. apply in_combine_r in Hmax.
    subst rowpos. apply in_map_iff in Hmax as (i' & <- & Hi').
    apply In_range in Hi'. simpl. lia. }
  eexists. split; [reflexivity |].
  constructor; cbn [rowcnt colcnt row_cum_payoff col_cum_payoff active];
    try lia; auto.
Qed.

Lemma williams_loop_ok (iters : nat) :
  forall (k : Z) (s : williams_state F),
    williams_wf (S m) (S n) k s ->
    exists s', williams_loop pm tr colpos rowpos iters s = Ok s' /\
               williams_wf (S m) (S n) (k + Z.of_nat iters) s'.
Proof.
  induction iters as [| iters IH]; intros k s Hwf.
  - exists s. split; [reflexivity |]. replace (k + Z.of_nat 0) with k by lia.
    exact Hwf.
  - destruct (williams_step_ok k s Hwf) as (s1 & E1 & Hwf1).
    destruct (IH (k + 1) s1 Hwf1) as (s' & E' & Hwf').
    exists s'. cbn [williams_loop]. rewrite E1. cbn [bind]. split; [exact E' |].
    replace (k + Z.of_nat (S iters)) with (k + 1 + Z.of_nat iters) by lia.
    exact Hwf'.
Qed.

End Williams.

Section SolveGame.

Context {F : Type} {N : Num F}.
Variables solve_gambit solve_nashpy : Grid F -> result (list F * list F).

(** The mixed strategy [solve_williams] makes of a play-count vector. *)
Definition frequencies (iterations : Z) (cnt : list Z) : list F :=
  map (fun c => fdiv (ofZ c) (ofZ iterations)) cnt.

(** On a matrix with at least one row and one column, all rows of one
    length, [solve_williams] raises nothing; the strategies it returns are
    play counts, none negative and adding up to the number of iterations,
    divided by that number. *)
Lemma solve_williams_ok (game : Grid F) (m n : nat) (iterations : Z) :
  List.length game = S m ->
  Forall (fun r => List.length r = S n) game ->
  0 < iterations ->
  exists rc cc,
    solve_williams game iterations
      = Ok (frequencies iterations rc, frequencies iterations cc) /\
    List.length rc = S m /\ List.length cc = S n /\
    Forall (Z.le 0) rc /\ Forall (Z.le 0) cc /\
    zsum rc = iterations /\ zsum cc = iterations.
Proof.
  intros Hrows Hcols Hit. unfold solve_williams.
  set (pm := map (map (fun x => fmul (ofZ (-1)) x)) game).
  assert (Hpm_rows : List.length pm = S m).
  { unfold pm. rewrite length_map. exact Hrows. }
  assert (Hpm_cols : Forall (fun r => List.length r = S n) pm).
  { unfold pm. apply Forall_map. eapply Forall_impl; [| exact Hcols].
    intros r Hr. simpl. rewrite length_map. exact Hr. }
  destruct (zip_star_rect m (S n) pm Hpm_rows Hpm_cols) as [Htr_rows Htr_cols].
  assert (Hnr : len pm = Z.of_nat (S m)) by (unfold len; rewrite Hpm_rows; reflexivity).
  assert (Hnc : len (zip_star pm) = Z.of_nat (S n))
    by (unfold len; rewrite Htr_rows; reflexivity).
  rewrite Hnr, Hnc, !Nat2Z.id.
  destruct (williams_loop_ok pm (zip_star pm) m n Hpm_rows Hpm_cols
              Htr_rows Htr_cols (Z.to_nat iterations) 0
              {| rowcnt := repeat 0 (S m);
                 colcnt := repeat 0 (S n);
                 row_cum_payoff := repeat (ofZ 0) (S m);
                 col_cum_payoff := repeat (ofZ 0) (S n);
                 active := 0 |})
    as (s & Es & Hwf).
  { constructor; cbn [rowcnt colcnt row_cum_payoff col_cum_payoff active];
      rewrite ?repeat_length; try reflexivity; try lia.
    - apply Forall_forall. intros x Hx. apply repeat_spec in Hx. lia.
    - apply Forall_forall. intros x Hx. apply repeat_spec in Hx. lia.
    - clear. induction m as [| k IH]; simpl in *; lia.
    - clear. induction n as [| k IH]; simpl in *; lia. }
  rewrite Es. cbn [bind].
  destruct Hwf as [Hrc Hcc Hrcum Hccum Hact Hrnn Hcnn Hrs Hcs].
  destruct (row_cum_payoff s) as [| r0 rs]; [discriminate |].
  destruct (col_cum_payoff s) as [| c0 cs]; [discriminate |].
  cbn [bind].
  destruct (iterations =? 0) eqn:E0; [lia |]. cbn [bind].
  exists (rowcnt s), (colcnt s). unfold frequencies.
  repeat split; auto; lia.
Qed.

Lemma argmax_from_range (l : list F) :
  forall (idx best_idx : Z) (best : F),
    0 <= best_idx < idx ->
    0 <= argmax_from l idx best_idx best < idx + len l.
Proof.
  induction l as [| x l IH]; intros idx bi b Hbi; simpl.
  - unfold len. simpl. lia.
  - assert (Hlen : len (x :: l) = len l + 1) by (unfold len; simpl; lia).
    destruct (fltb b x).
    + specialize (IH (idx + 1) idx x). lia.
    + specialize (IH (idx + 1) bi b). lia.
Qed.

Lemma argmax_ok (l : list F) :
  l <> [] -> exists i, argmax l = Ok i /\ 0 <= i < len l.
Proof.
  destruct l as [| x l]; [congruence |]. intros _.
  eexists. split; [reflexivity |].
  pose proof (argmax_from_range l 1 0 x). unfold len in *. simpl. lia.
Qed.

(** [solveGame] with the Williams method on a proper payoff matrix: it
    returns two frequency vectors, two positions and the matrix entry at
    those positions. *)
Lemma solveGame_williams (game : Grid F) (m n : Z) :
  rect m n game -> 0 < m -> 0 < n ->
  exists rc cc i j v,
    solveGame solve_gambit solve_nashpy game 0
      = Ok (frequencies 100 rc, frequencies 100 cc, i, j, v) /\
    Forall (Z.le 0) rc /\ Forall (Z.le 0) cc /\
    zsum rc = 100 /\ zsum cc = 100 /\
    get2 game i j = Ok v.
Proof.
  intros [Hlen Hall] Hm Hn. unfold solveGame. cbn [Z.eqb].
  destruct (solve_williams_ok game (Z.to_nat (m - 1)) (Z.to_nat (n - 1)) 100)
    as (rc & cc & Ew & Hlr & Hlc & Hrn & Hcn & Hrs & Hcs).
  { unfold len in Hlen. lia. }
  { eapply Forall_impl; [| exact Hall]. intros r Hr. unfold len in Hr.
    simpl in Hr. lia. }
  { lia. }
  rewrite Ew. cbn [bind].
  destruct (argmax_ok (frequencies 100 rc)) as (i & Ei & Hi).
  { intros Hnil. apply (f_equal (@List.length _)) in Hnil.
    unfold frequencies in Hnil. rewrite length_map in Hnil.
    simpl in Hnil. lia. }
  destruct (argmax_ok (frequencies 100 cc)) as (j & Ej & Hj).
  { intros Hnil. apply (f_equal (@List.length _)) in Hnil.
    unfold frequencies in Hnil. rewrite length_map in Hnil.
    simpl in Hnil. lia. }
  rewrite Ei. cbn [bind]. rewrite Ej. cbn [bind].
  destruct (get2_in_range m n game i j) as (v & Ev).
  { split; assumption. }
  { unfold frequencies, len in Hi. rewrite length_map in Hi. lia. }
  { unfold frequencies, len in Hj. rewrite length_map in Hj. lia. }
  rewrite Ev. cbn [bind].
  exists rc, cc, i, j, v. auto 10.
Qed.

End SolveGame.

(** ** C10: the solution in exact arithmetic *)

Definition Rsum (l : list R) : R := fold_right Rplus 0%R l.

(** The least and the greatest entry of a matrix. *)
Definition entries (game : Grid R) : list R := List.concat game.

Definition min_entry (game : Grid R) : R :=
  match entries game with
  | [] => 0%R
  | x :: l => fold_left Rmin l x
  end.

Definition max_entry (game : Grid R) : R :=
  match entries game with
  | [] => 0%R
  | x :: l => fold_left Rmax l x
  end.

Lemma fold_Rmin_le (l : list R) :
  forall x v, (v = x \/ In v l) -> (fold_left Rmin l x <= v)%R.
Proof.
  induction l as [| y l IH]; intros x v Hv; simpl.
  - destruct Hv as [-> | []]. apply Rle_refl.
  - destruct Hv as [-> | [-> | Hin]].
    + apply Rle_trans with (Rmin x y); [| apply Rmin_l].
      apply IH. left. reflexivity.
    + apply Rle_trans with (Rmin x v); [| apply Rmin_r].
      apply IH. left. reflexivity.
    + apply IH. right. exact Hin.
Qed.

Lemma fold_Rmax_ge (l : list R) :
  forall x v, (v = x \/ In v l) -> (v <= fold_left Rmax l x)%R.
Proof.
  induction l as [| y l IH]; intros x v Hv; simpl.
  - destruct Hv as [-> | []]. apply Rle_refl.
  - destruct Hv as [-> | [-> | Hin]].
    + apply Rle_trans with (Rmax x y); [apply Rmax_l |].
      apply IH. left. reflexivity.
    + apply Rle_trans with (Rmax x v); [apply Rmax_r |].
      apply IH. left. reflexivity.
    + apply IH. right. exact Hin.
Qed.

Lemma entry_between (game : Grid R) (v : R) :
  In v (entries game) -> (min_entry game <= v <= max_entry game)%R.
Proof.
  unfold min_entry, max_entry. destruct (entries game) as [| x l]; [intros [] |].
  intros Hin. split.
  - apply fold_Rmin_le. destruct Hin as [<- | H]; auto.
  - apply fold_Rmax_ge. destruct Hin as [<- | H]; auto.
Qed.

Lemma get2_entry (game : Grid R) (i j : Z) (v : R) :
  get2 game i j = Ok v -> In v (entries game).
Proof.
  unfold get2, entries.
  destruct (pyget game i) as [row | e] eqn:Erow; cbn [bind]; [| discriminate].
  intros Hv. apply in_concat. exists row. split.
  - eapply pyget_In; eassumption.
  - eapply pyget_In; eassumption.
Qed.

Lemma frequencies_nonneg (k : Z) (cnt : list Z) :
  0 < k -> Forall (Z.le 0) cnt ->
  Forall (fun p : R => (0 <= p)%R) (frequencies k cnt).
Proof.
  intros Hk Hall. unfold frequencies. apply Forall_map.
  eapply Forall_impl; [| exact Hall]. intros c Hc. simpl.
  apply Rmult_le_pos.
  - apply IZR_le. exact Hc.
  - left. apply Rinv_0_lt_compat. apply IZR_lt. exact Hk.
Qed.

Lemma frequencies_sum (k : Z) (cnt : list Z) :
  Rsum (frequencies k cnt) = (IZR (zsum cnt) / IZR k)%R.
Proof.
  induction cnt as [| c cnt IH].
  - simpl. unfold Rdiv. rewrite Rmult_0_l. reflexivity.
  - change (Rsum (frequencies k (c :: cnt)))
      with (IZR c / IZR k + Rsum (frequencies k cnt))%R.
    change (zsum (c :: cnt)) with (c + zsum cnt).
    rewrite IH, plus_IZR. unfold Rdiv. ring.
Qed.

(** C10: for every payoff matrix (at least one row and one column, all
    rows of one length), [solveGame] with the Williams method returns a
    solution whose value lies between the least and the greatest entry of
    the matrix and whose two mixed strategies have no negative entry and
    sum to 1 (the program's arithmetic taken exactly). *)
Theorem solveGame_value_and_strategies
  (solve_gambit solve_nashpy : Grid R -> result (list R * list R))
  (game : Grid R) (m n : Z) :
  rect m n game -> 0 < m -> 0 < n ->
  exists y z i j v,
    solveGame solve_gambit solve_nashpy game 0 = Ok (y, z, i, j, v) /\
    (min_entry game <= v <= max_entry game)%R /\
    Forall (fun p => (0 <= p)%R) y /\ Rsum y = 1%R /\
    Forall (fun p => (0 <= p)%R) z /\ Rsum z = 1%R.
Proof.
  intros Hrect Hm Hn.
  destruct (solveGame_williams solve_gambit solve_nashpy game m n Hrect Hm Hn)
    as (rc & cc & i & j & v & Es & Hrn & Hcn & Hrs & Hcs & Hv).
  exists (frequencies 100 rc), (frequencies 100 cc), i, j, v.
  split; [exact Es |].
  split; [apply entry_between; eapply get2_entry; eassumption |].
  split; [apply frequencies_nonneg; [lia | exact Hrn] |].
  split; [rewrite frequencies_sum, Hrs; unfold Rdiv; apply Rinv_r; lra |].
  split; [apply frequencies_nonneg; [lia | exact Hcn] |].
  rewrite frequencies_sum, Hcs. unfold Rdiv. apply Rinv_r. lra.
Qed.

(** A 2 by 2 payoff matrix. *)
Definition game22 : Grid R := [[1%R; 2%R]; [3%R; 4%R]].

Lemma solveGame_value_and_strategies_witness :
  exists y z i j v,
    solveGame no_solver no_solver game22 0 = Ok (y, z, i, j, v) /\
    (min_entry game22 <= v <= max_entry game22)%R /\
    Forall (fun p => (0 <= p)%R) y /\ Rsum y = 1%R /\
    Forall (fun p => (0 <= p)%R) z /\ Rsum z = 1%R.
Proof.
  apply (solveGame_value_and_strategies no_solver no_solver game22 2 2).
  - split; [reflexivity | repeat constructor].
  - lia.
  - lia.
Defined.

(* ================================================================== *)
(** * Further properties of the code *)

(** ** Grid connectivity *)

Lemma probe_true_inv (guard : bool) (env : Grid Z) (r c flag : Z) :
  probe guard env r c flag = Ok true ->
  guard = true /\ exists v, get2 env r c = Ok v /\ v <> flag.
Proof.
  unfold probe. destruct guard; [| discriminate].
  destruct (get2 env r c) as [v | e]; cbn [bind]; [| discriminate].
  intros [= H]. split; [reflexivity |]. exists v. split; [reflexivity |].
  apply negb_true_iff, Z.eqb_neq in H. exact H.
Qed.

(** X1: whatever the grid and the dimensions passed, every neighbor a call
    from a cell of nonnegative coordinates reports is a cell the grid has,
    of nonnegative coordinates, and not an obstacle. *)
Theorem getNeighbors_reports_free_cells (i : cell) (m n : Z) (env : Grid Z)
  (flag : Z) (B : list nbr) :
  getNeighbors i m n env flag = Ok B -> nonneg i ->
  forall r c s, In (r, c, s) B ->
    0 <= r /\ 0 <= c /\ exists v, get2 env r c = Ok v /\ v <> flag.
Proof.
  destruct i as [i0 i1]. unfold nonneg. simpl. intros H [Hi0 Hi1] r c s Hin.
  unfold getNeighbors in H. open_probes H. injection H as <-.
  in_emits Hin.
  all: destruct Hin as [-> Heq]; injection Heq as <- <- <-;
       match goal with
       | E : probe _ _ ?r' ?c' _ = Ok true |- context [get2 _ ?r' ?c'] =>
           apply probe_true_inv in E; destruct E as [Hg Hv]
       end;
       bool_to_prop; repeat split; try lia; exact Hv.
Qed.

Lemma getNeighbors_reports_free_cells_witness :
  0 <= 1 /\ 0 <= 0 /\ exists v, get2 left_blocked3 1 0 = Ok v /\ v <> 1.
Proof.
  assert (Hnn : nonneg (2, 1)) by (split; simpl; lia).
  assert (Hin : In (1, 0, "a")
                   [(1, 1, "^"); (2, 2, ">"); (1, 0, "a"); (1, 2, "b");
                    (0, 2, "n")])
    by (right; right; left; reflexivity).
  exact (getNeighbors_reports_free_cells (2, 1) 3 3 left_blocked3 1
           [(1, 1, "^"); (2, 2, ">"); (1, 0, "a"); (1, 2, "b"); (0, 2, "n")]
           eq_refl Hnn 1 0 "a" Hin).
Defined.

(** X2: on a rectangular grid and from a cell of it, each of the four
    straight moves and the four diagonal moves is reported exactly when its
    destination is inside the grid and not an obstacle, independently of
    every other cell. *)
Theorem getNeighbors_base_moves (env : Grid Z) (m n flag i0 i1 : Z) :
  rect m n env -> 0 <= i0 < m -> 0 <= i1 < n ->
  let P := passable env m n flag in
  exists B, getNeighbors (i0, i1) m n env flag = Ok B /\
    (In (i0 - 1, i1, "^") B <-> P (i0 - 1) i1) /\
    (In (i0 + 1, i1, "v") B <-> P (i0 + 1) i1) /\
    (In (i0, i1 - 1, "<") B <-> P i0 (i1 - 1)) /\
    (In (i0, i1 + 1, ">") B <-> P i0 (i1 + 1)) /\
    (In (i0 - 1, i1 - 1, "a") B <-> P (i0 - 1) (i1 - 1)) /\
    (In (i0 - 1, i1 + 1, "b") B <-> P (i0 - 1) (i1 + 1)) /\
    (In (i0 + 1, i1 - 1, "c") B <-> P (i0 + 1) (i1 - 1)) /\
    (In (i0 + 1, i1 + 1, "d") B <-> P (i0 + 1) (i1 + 1)).
Proof.
  intros Hrect Hi0 Hi1 P. subst P.
  unfold getNeighbors. run_probes Hrect.
  eexists. split; [reflexivity |].
  repeat match goal with |- _ /\ _ => split end.
  all: split; intros H.
  all: try (in_emits H; destruct H as [Hb Heq]; try discriminate Heq;
            clear Heq; bool_to_prop;
            apply (passable_iff _ _ _ _ _ _ Hrect);
            unfold passableb; props_of_bools; repeat split;
            solve [lia | assumption]).
  all: apply (passable_iff _ _ _ _ _ _ Hrect) in H;
       unfold passableb in H; bool_to_prop;
       find_emit; props_of_bools; repeat split; solve [lia | assumption].
Qed.

Lemma getNeighbors_base_moves_witness :
  exists B, getNeighbors (2, 1) 3 3 left_blocked3 1 = Ok B /\
            In (1, 1, "^") B /\ ~ In (2, 0, "<") B.
Proof.
  assert (Hrect : rect 3 3 left_blocked3)
    by (split; [reflexivity | repeat constructor]).
  destruct (getNeighbors_base_moves left_blocked3 3 3 1 2 1 Hrect
              ltac:(lia) ltac:(lia)) as (B & HB & Hup & _ & Hleft & _).
  exists B. split; [exact HB |]. split.
  - apply Hup. repeat split; try lia. exists 0. split; [reflexivity | lia].
  - intros Hin. apply Hleft in Hin.
    destruct Hin as (_ & _ & v & Hv & Hne). simpl in Hv.
    injection Hv as <-. apply Hne. reflexivity.
Defined.

(** ** Outcome function and connectivity together *)

Section OutcomeOfNeighbors.

Context {F : Type} {N : Num F}.

(** For a move [getNeighbors] reports, the if/elif chain of [getOutcome]
    reads the cost-to-go grid at the very cell reported with the move. *)
Lemma outcome_cost_neighbor (i0 i1 m n : Z) (env : Grid Z) (flag : Z)
  (B : list nbr) (r c : Z) (s : string) (work : F) (c2g : Grid F) :
  getNeighbors (i0, i1) m n env flag = Ok B -> In (r, c, s) B ->
  outcome_cost s work c2g i0 i1 = (x <- get2 c2g r c ;; Ok (fadd work x)).
Proof.
  intros H Hin. unfold getNeighbors in H. open_probes H. injection H as <-.
  in_emits Hin.
  all: destruct Hin as [_ Heq]; injection Heq as <- <- <-; reflexivity.
Qed.

Lemma pyget_first {A : Type} (l : list A) (k : Z) (a : A) :
  pyget l k = Ok a -> exists a0, pyget l 0 = Ok a0.
Proof.
  intros H. apply pyget_In in H. destruct l as [| a0 l]; [destruct H |].
  exists a0. reflexivity.
Qed.

(** X3: for every move [getNeighbors] reports from a cell, the total cost
    [getOutcome] computes at that cell for that move is its work plus the
    cost-to-go stored at the reported neighbor, and the work returned beside
    it is the same work as without a grid. *)
Theorem getOutcome_adds_neighbor_cost (i0 i1 m n : Z) (env : Grid Z) (flag : Z)
  (B : list nbr) (r c : Z) (s : string) (us vs weights : list F)
  (traveler : Traveler F) (D_max : F) (c2g : Grid F) (work x : F) :
  getNeighbors (i0, i1) m n env flag = Ok B -> In (r, c, s) B ->
  getOutcome s us vs weights traveler D_max None None None = Ok (work, work) ->
  get2 c2g r c = Ok x ->
  getOutcome s us vs weights traveler D_max (Some c2g) (Some i0) (Some i1)
    = Ok (fadd work x, work).
Proof.
  intros HB Hin Hwork Hx. unfold getOutcome in *.
  destruct (getVectorSum us vs weights) as [[uw vw] | e]; cbn [bind] in *;
    [| discriminate].
  destruct (dict_get (action2radians traveler) s) as [rad | e]; cbn [bind] in *;
    [| discriminate].
  destruct (magdir2uv (speed_cps traveler) rad) as [ut vt].
  destruct (getVectorDiff [uw; ut] [vw; vt] [ofZ 1; ofZ 1]) as [[ua va] | e];
    cbn [bind] in *; [| discriminate].
  injection Hwork as Hw. rewrite Hw.
  assert (Hrow : exists row0, pyget c2g 0 = Ok row0).
  { unfold get2 in Hx. destruct (pyget c2g r) as [row |] eqn:E; [| discriminate].
    eapply pyget_first; eassumption. }
  destruct Hrow as (row0 & ->). cbn [bind].
  rewrite (outcome_cost_neighbor _ _ _ _ _ _ _ _ _ _ work c2g HB Hin).
  rewrite Hx. reflexivity.
Qed.

End OutcomeOfNeighbors.

Lemma getOutcome_adds_neighbor_cost_witness :
  getOutcome "^" [0%float] [0%float] [1%float] (traveler_float (1, 1)) D4
             (Some (out_cost2go out4)) (Some 2) (Some 1)
    = Ok (fadd 10%float 0%float, 10%float).
Proof.
  eapply (getOutcome_adds_neighbor_cost 2 1 4 4 occ4 1 _ 1 1).
  - vm_compute. reflexivity.
  - left. reflexivity.
  - vm_compute. reflexivity.
  - reflexivity.
Defined.

(** ** Vector helpers *)

Lemma pyget_beyond {A : Type} (l : list A) (k : Z) :
  len l <= k -> pyget l k = Raise IndexError.
Proof.
  intros Hk. unfold pyget, norm_index.
  pose proof (len_nonneg l).
  destruct (0 <=? k) eqn:E1; [| lia].
  destruct (k <? len l) eqn:E2; [lia |]. simpl.
  destruct (- len l <=? k); simpl; [| reflexivity].
  destruct (k <? 0) eqn:E3; [lia | reflexivity].
Qed.

Section VectorLoops.

Context {F : Type} {N : Num F}.

(** The loop shared by [getVectorSum] ([op] is the addition) and
    [getVectorDiff] ([op] is the subtraction). *)
Definition vector_loop (op : F -> F -> F) (us vs weights : list F)
  (idx : list Z) (acc : F * F) : result (F * F) :=
  foldM (fun '(utotal, vtotal) i =>
           w <- pyget weights i ;;
           u <- pyget us i ;;
           v <- pyget vs i ;;
           Ok (op utotal (fmul w u), op vtotal (fmul w v)))
        idx acc.

Lemma vector_loop_ok (op : F -> F -> F) (us vs weights : list F) :
  forall (idx : list Z) (acc : F * F),
    Forall (fun i => 0 <= i < len us /\ i < len weights /\ i < len vs) idx ->
    exists r, vector_loop op us vs weights idx acc = Ok r.
Proof.
  induction idx as [| i idx IH]; intros [ut vt] Hall.
  - exists (ut, vt). reflexivity.
  - inversion Hall as [| ? ? (Hi & Hw & Hv) Hrest]; subst.
    unfold vector_loop. cbn [foldM].
    destruct (pyget_in_range weights i) as (w & -> & _); [lia |].
    destruct (pyget_in_range us i) as (u & -> & _); [lia |].
    destruct (pyget_in_range vs i) as (v & -> & _); [lia |].
    cbn [bind]. apply (IH _ Hrest).
Qed.

Lemma vector_loop_raises (op : F -> F -> F) (us vs weights : list F) :
  forall (idx : list Z) (acc : F * F),
    Forall (fun i => 0 <= i < len us) idx ->
    Exists (fun i => len weights <= i \/ len vs <= i) idx ->
    vector_loop op us vs weights idx acc = Raise IndexError.
Proof.
  induction idx as [| i idx IH]; intros [ut vt] Hall Hex.
  - inversion Hex.
  - inversion Hall as [| ? ? Hi Hrest]; subst.
    unfold vector_loop. cbn [foldM].
    destruct (Z_lt_le_dec i (len weights)) as [Hw | Hw].
    2: { rewrite (pyget_beyond weights i Hw). reflexivity. }
    destruct (pyget_in_range weights i) as (w & -> & _); [lia |].
    destruct (pyget_in_range us i) as (u & -> & _); [lia |].
    cbn [bind].
    destruct (Z_lt_le_dec i (len vs)) as [Hv | Hv].
    2: { rewrite (pyget_beyond vs i Hv). reflexivity. }
    destruct (pyget_in_range vs i) as (v & -> & _); [lia |].
    cbn [bind]. apply (IH _ Hrest).
    inversion Hex as [? ? [H | H] | ? ? H]; subst; [lia | lia | exact H].
Qed.

Lemma vector_loop_range (op : F -> F -> F) (us vs weights : list F) :
  if (len us <=? len weights) && (len us <=? len vs)
  then exists r, vector_loop op us vs weights (range (len us)) (ofZ 0, ofZ 0) = Ok r
  else vector_loop op us vs weights (range (len us)) (ofZ 0, ofZ 0)
       = Raise IndexError.
Proof.
  destruct ((len us <=? len weights) && (len us <=? len vs)) eqn:E.
  - apply andb_prop in E as [E1 E2]. apply Z.leb_le in E1, E2.
    apply vector_loop_ok. apply Forall_forall. intros i Hi.
    apply In_range in Hi. lia.
  - apply vector_loop_raises.
    + apply Forall_forall. intros i Hi. apply In_range in Hi. exact Hi.
    + apply Exists_exists.
      pose proof (len_nonneg weights). pose proof (len_nonneg vs).
      apply andb_false_iff in E as [E | E]; apply Z.leb_gt in E.
      * exists (len weights). split; [apply In_range; lia | left; lia].
      * exists (len vs). split; [apply In_range; lia | right; lia].
Qed.

(** X4: [getVectorSum] and [getVectorDiff] loop over the positions of [us]
    only: they return when [weights] and [vs] are at least as long as [us]
    (entries beyond are ignored), and raise [IndexError] when one of them is
    shorter. *)
Theorem getVectorSum_getVectorDiff_lengths (us vs weights : list F) :
  if (len us <=? len weights) && (len us <=? len vs)
  then (exists r, getVectorSum us vs weights = Ok r) /\
       (exists r, getVectorDiff us vs weights = Ok r)
  else getVectorSum us vs weights = Raise IndexError /\
       getVectorDiff us vs weights = Raise IndexError.
Proof.
  pose proof (vector_loop_range fadd us vs weights) as Hs.
  pose proof (vector_loop_range fsub us vs weights) as Hd.
  destruct ((len us <=? len weights) && (len us <=? len vs));
    split; assumption.
Qed.

End VectorLoops.

(** In exact arithmetic the two loops, started at opposite totals, end at
    opposite totals, and fail together. *)
Lemma vector_loop_opposite (us vs weights : list R) :
  forall (idx : list Z) (a b : R),
    vector_loop Rminus us vs weights idx ((- a)%R, (- b)%R)
    = match vector_loop Rplus us vs weights idx (a, b) with
      | Ok (u, v) => Ok ((- u)%R, (- v)%R)
      | Raise e => Raise e
      end.
Proof.
  induction idx as [| i idx IH]; intros a b; [reflexivity |].
  unfold vector_loop in *. cbn [foldM].
  destruct (pyget weights i) as [w | e]; cbn [bind]; [| reflexivity].
  destruct (pyget us i) as [u | e]; cbn [bind]; [| reflexivity].
  destruct (pyget vs i) as [v | e]; cbn [bind]; [| reflexivity].
  replace (- a - fmul w u)%R with (- (a + fmul w u))%R by (simpl; ring).
  replace (- b - fmul w v)%R with (- (b + fmul w v))%R by (simpl; ring).
  apply IH.
Qed.

(** X5: in exact arithmetic [getVectorDiff] returns the opposite of what
    [getVectorSum] returns on the same arguments, and raises what it
    raises: it subtracts every weighted vector from zero, the first one
    included. *)
Theorem getVectorDiff_is_opposite_of_getVectorSum (us vs weights : list R) :
  getVectorDiff us vs weights
  = match getVectorSum us vs weights with
    | Ok (u, v) => Ok ((- u)%R, (- v)%R)
    | Raise e => Raise e
    end.
Proof.
  pose proof (vector_loop_opposite us vs weights (range (len us)) 0%R 0%R) as H.
  rewrite Ropp_0 in H. exact H.
Qed.

(** X6: in exact arithmetic the magnitude [uv2magdir] gives back for the
    vector [magdir2uv] made of a magnitude and a direction is the absolute
    value of that magnitude, whatever the direction. *)
Theorem uv2magdir_magdir2uv (mag dir_radians : R) :
  uv2magdir (fst (magdir2uv mag dir_radians)) (snd (magdir2uv mag dir_radians))
  = Rabs mag.
Proof.
  unfold uv2magdir, magdir2uv. simpl.
  replace (mag * cos dir_radians * (mag * cos dir_radians)
           + mag * sin dir_radians * (mag * sin dir_radians))%R
    with (Rsqr mag * (Rsqr (sin dir_radians) + Rsqr (cos dir_radians)))%R
    by (unfold Rsqr; ring).
  rewrite sin2_cos2, Rmult_1_r. apply sqrt_Rsqr_abs.
Qed.

(** X7: in exact arithmetic, whenever [getOutcome] returns, the work is
    not negative and is at most the magnitude of the weighted environmental
    resultant plus the traveler's speed in absolute value. *)
Theorem getOutcome_work_bounds (move : string) (us vs weights : list R)
  (traveler : Traveler R) (D_max uw vw : R)
  (cost2go : option (Grid R)) (row col : option Z) (workc work : R) :
  getVectorSum us vs weights = Ok (uw, vw) ->
  getOutcome move us vs weights traveler D_max cost2go row col
    = Ok (workc, work) ->
  (0 <= work <= R_sqrt.sqrt (uw * uw + vw * vw) + Rabs (speed_cps traveler))%R.
Proof.
  intros Hsum H. unfold getOutcome in H. rewrite Hsum in H. cbn [bind] in H.
  destruct (dict_get (action2radians traveler) move) as [rad | e];
    cbn [bind] in H; [| discriminate].
  unfold magdir2uv in H. rewrite getVectorDiff_two in H. cbn [bind] in H.
  match type of H with
  | context [uv2magdir ?a ?b] => set (ua := a) in *; set (va := b) in *
  end.
  assert (Hw : work = uv2magdir ua va).
  { destruct cost2go as [c2g |]; [| injection H as _ <-; reflexivity].
    destruct row as [r |]; [| injection H as _ <-; reflexivity].
    destruct col as [c |]; [| injection H as _ <-; reflexivity].
    destruct (pyget c2g 0); cbn [bind] in H; [| discriminate].
    destruct (outcome_cost move _ c2g r c); cbn [bind] in H; [| discriminate].
    injection H as _ <-. reflexivity. }
  rewrite Hw. unfold uv2magdir. simpl. split; [apply sqrt_pos |].
  set (s := speed_cps traveler) in *.
  pose proof (triangle uw vw (- (s * cos rad)) (- (s * sin rad)) 0 0)%R as T.
  unfold dist_euc in T.
  replace (ua * ua + va * va)%R
    with (Rsqr (uw - - (s * cos rad)) + Rsqr (vw - - (s * sin rad)))%R
    by (subst ua va; unfold Rsqr; simpl; ring).
  eapply Rle_trans; [exact T |].
  replace (Rsqr (uw - 0) + Rsqr (vw - 0))%R with (uw * uw + vw * vw)%R
    by (unfold Rsqr; ring).
  apply Rplus_le_compat_l.
  replace (Rsqr (0 - - (s * cos rad)) + Rsqr (0 - - (s * sin rad)))%R
    with (Rsqr s * (Rsqr (sin rad) + Rsqr (cos rad)))%R
    by (unfold Rsqr; ring).
  rewrite sin2_cos2, Rmult_1_r, sqrt_Rsqr_abs. apply Rle_refl.
Qed.

(** The call of C3's failing input, evaluated once more for the bounds. *)
Lemma getOutcome_in_aligned_current :
  getOutcome ">" [1%R] [0%R] [1%R] traveler_R 0%R None None None
    = Ok (2%R, 2%R).
Proof.
  assert (Hrad : dict_get (action2radians traveler_R) ">" = Ok (0 / 1)%R)
    by reflexivity.
  assert (Hsum : getVectorSum [1%R] [0%R] [1%R]
                 = Ok ((0 + 1 * 1)%R, (0 + 1 * 0)%R)) by reflexivity.
  rewrite (getOutcome_work_R ">" _ _ _ traveler_R 0%R _ _ _ Hsum Hrad).
  cbv zeta. simpl speed_cps.
  replace (0 / 1)%R with 0%R by lra. rewrite cos_0, sin_0.
  replace ((0 + 1 * 1 + 1 * 1) * (0 + 1 * 1 + 1 * 1)
           + (0 + 1 * 0 + 1 * 0) * (0 + 1 * 0 + 1 * 0))%R
    with (2 * 2)%R by ring.
  rewrite sqrt_square by lra. reflexivity.
Qed.

Lemma getOutcome_work_bounds_witness :
  (0 <= 2 <= R_sqrt.sqrt ((0 + 1 * 1) * (0 + 1 * 1) + (0 + 1 * 0) * (0 + 1 * 0))
            + Rabs (speed_cps traveler_R))%R.
Proof.
  assert (Hsum : getVectorSum [1%R] [0%R] [1%R]
                 = Ok ((0 + 1 * 1)%R, (0 + 1 * 0)%R)) by reflexivity.
  exact (getOutcome_work_bounds ">" [1%R] [0%R] [1%R] traveler_R 0%R _ _
           None None None 2%R 2%R Hsum getOutcome_in_aligned_current).
Defined.

(** ** Payoff matrix builder *)

Lemma mapM_Forall2 {A B : Type} (f : A -> result B) :
  forall (l : list A) (r : list B),
    mapM f l = Ok r -> Forall2 (fun a b => f a = Ok b) l r.
Proof.
  induction l as [| a l IH]; intros r H; simpl in H.
  - injection H as <-. constructor.
  - destruct (f a) as [b | e] eqn:Ea; cbn [bind] in H; [| discriminate].
    destruct (mapM f l) as [bs | e] eqn:El; cbn [bind] in H; [| discriminate].
    injection H as <-. constructor; [exact Ea | apply IH; reflexivity].
Qed.

Lemma Forall2_nth_error_l {A B : Type} (P : A -> B -> Prop) :
  forall (l : list A) (r : list B) (k : nat) (a : A),
    Forall2 P l r -> nth_error l k = Some a ->
    exists b, nth_error r k = Some b /\ P a b.
Proof.
  intros l r k a H. revert k. induction H as [| x y l r Hxy H IH]; intros k Hk.
  - destruct k; discriminate.
  - destruct k as [| k]; simpl in *.
    + injection Hk as ->. exists y. split; [reflexivity | exact Hxy].
    + apply IH. exact Hk.
Qed.

Lemma len_range (n : Z) : len (range n) = Z.max 0 n.
Proof. unfold len. rewrite length_range. lia. Qed.

Section GameShape.

Context {F : Type} {N : Num F}.

Lemma sample_ranges_ten (row col : Z) (ugrids vgrids : list (Grid F))
  (errors : list F) (g : Z) (ru rv : list F) :
  sample_ranges row col ugrids vgrids errors g = Ok (ru, rv) ->
  len ru = 10 /\ len rv = 10.
Proof.
  unfold sample_ranges.
  destruct (pyget ugrids g); cbn [bind]; [| discriminate].
  destruct (get2 _ row col); cbn [bind]; [| discriminate].
  destruct (pyget errors g); cbn [bind]; [| discriminate].
  destruct (pyget vgrids g); cbn [bind]; [| discriminate].
  destruct (get2 _ row col); cbn [bind]; [| discriminate].
  intros [= <- <-]. split; reflexivity.
Qed.

Lemma fold_count_tens {A : Type} (rs : list (list A)) :
  Forall (fun r => len r = 10) rs ->
  fold_left (fun acc r => acc * len r) rs 1 = 10 ^ len rs.
Proof.
  induction rs as [| r rs IH]; intros Hall; [reflexivity |].
  inversion Hall as [| ? ? Hr Hrest]; subst.
  cbn [fold_left]. rewrite fold_count_scale, (IH Hrest), Hr.
  replace (len (r :: rs)) with (Z.succ (len rs)) by (unfold len; simpl; lia).
  rewrite Z.pow_succ_r by apply len_nonneg. lia.
Qed.

(** The adversary has ten to the number of sources actions. *)
Lemma getWorldActionsForCell_num (row col : Z)
  (ugrids vgrids : list (Grid F)) (errors : list F) (w : world_actionspace F) :
  getWorldActionsForCell row col ugrids vgrids errors = Ok w ->
  num w = 10 ^ len ugrids /\ len (uactions w) = 10 ^ len ugrids
  /\ len (vactions w) = 10 ^ len ugrids.
Proof.
  intros H.
  destruct (getWorldActionsForCell_uactions _ _ _ _ _ _ H)
    as (ranges & Hr & Hu & Hn & Hv).
  assert (Hten : Forall (fun r => len r = 10) (map fst ranges)).
  { apply mapM_Forall2 in Hr. apply Forall_map.
    clear -Hr. induction Hr as [| g [ru rv] l r Hg _ IH]; constructor.
    - apply sample_ranges_ten in Hg. exact (proj1 Hg).
    - exact IH. }
  assert (Hlen : len (map fst ranges) = len ugrids).
  { apply mapM_Forall2, Forall2_length in Hr. unfold len.
    rewrite length_map, <- Hr, length_range.
    unfold len. rewrite Nat2Z.id. reflexivity. }
  assert (E : len (uactions w) = 10 ^ len ugrids).
  { rewrite Hu, len_product, (fold_count_tens _ Hten), Hlen. reflexivity. }
  rewrite Hn, Hv. auto.
Qed.

(** The rows [getGameForCell] builds, one traveler action after the other. *)
Lemma getGameForCell_rows (row col : Z) (traveler : Traveler F)
  (ugrids vgrids : list (Grid F)) (errors weights : list F)
  (env : Grid Z) (D_max : F) (cost2go : option (Grid F))
  (game game_work : Grid F) :
  getGameForCell row col traveler ugrids vgrids errors weights env D_max cost2go
    = Ok (game, game_work) ->
  exists B cells,
    getNeighbors (row, col) (fst (shape env)) (snd (shape env)) env 1 = Ok B /\
    game = map (map fst) cells /\ game_work = map (map snd) cells /\
    Forall2 (fun ta cs =>
               len cs = 10 ^ len ugrids /\
               (~ In ta (map (fun b : nbr => snd b) B) ->
                Forall (fun p => p = (D_max, D_max)) cs))
            (actionspace traveler) cells.
Proof.
  unfold getGameForCell. intros H.
  destruct (getWorldActionsForCell row col ugrids vgrids errors)
    as [was | e] eqn:Ew; cbn [bind] in H; [| discriminate].
  destruct (getNeighbors (row, col) _ _ env 1) as [B | e] eqn:EB;
    cbn [bind] in H; [| discriminate].
  destruct (mapM _ (actionspace traveler)) as [cells | e] eqn:Ec;
    cbn [bind] in H; [| discriminate].
  injection H as <- <-. exists B, cells.
  split; [reflexivity |]. split; [reflexivity |]. split; [reflexivity |].
  destruct (getWorldActionsForCell_num _ _ _ _ _ _ Ew) as (Hnum & _ & _).
  apply mapM_Forall2 in Ec.
  eapply Forall2_impl; [| exact Ec]. clear Ec.
  intros ta cs Hcs. cbv beta in Hcs. split.
  - apply mapM_Forall2, Forall2_length in Hcs.
    assert (E : len cs = len (range (num was)))
      by (unfold len; rewrite Hcs; reflexivity).
    rewrite E, len_range, Hnum.
    assert (0 <= 10 ^ len ugrids) by (apply Z.pow_nonneg; lia). lia.
  - intros Hnot.
    assert (Ev : existsb (String.eqb ta) (map (fun b : nbr => snd b) B) = false).
    { destruct (existsb _ _) eqn:E; [| reflexivity].
      apply existsb_exists in E as (s & Hs & Heq).
      apply String.eqb_eq in Heq. subst s. contradiction. }
    rewrite Ev in Hcs. apply mapM_Forall2 in Hcs.
    clear -Hcs. induction Hcs as [| c p l r Hp _ IH]; constructor.
    + injection Hp as <-. reflexivity.
    + exact IH.
Qed.

(** X8: when [getGameForCell] returns, both matrices have one row per
    action of the traveler's action space and ten to the number of force
    sources columns. *)
Theorem getGameForCell_shape (row col : Z) (traveler : Traveler F)
  (ugrids vgrids : list (Grid F)) (errors weights : list F)
  (env : Grid Z) (D_max : F) (cost2go : option (Grid F))
  (game game_work : Grid F) :
  getGameForCell row col traveler ugrids vgrids errors weights env D_max cost2go
    = Ok (game, game_work) ->
  rect (len (actionspace traveler)) (10 ^ len ugrids) game /\
  rect (len (actionspace traveler)) (10 ^ len ugrids) game_work.
Proof.
  intros H.
  destruct (getGameForCell_rows _ _ _ _ _ _ _ _ _ _ _ _ H)
    as (B & cells & _ & -> & -> & Hrows).
  assert (Hlen : len cells = len (actionspace traveler)).
  { apply Forall2_length in Hrows. unfold len. rewrite Hrows. reflexivity. }
  assert (Hall : Forall (fun cs => len cs = 10 ^ len ugrids) cells).
  { clear -Hrows. induction Hrows as [| ta cs l r [Hc _] _ IH]; constructor;
      assumption. }
  split; (split; [unfold len in *; rewrite length_map; exact Hlen |]);
    apply Forall_map; (eapply Forall_impl; [| exact Hall]);
    intros cs Hcs; unfold len in *; rewrite length_map; exact Hcs.
Qed.

(** X9: a traveler action that [getNeighbors] does not report from the
    cell gets a row of [D_max] in both matrices: no outcome is computed for
    it. *)
Theorem getGameForCell_blocked_rows (row col : Z) (traveler : Traveler F)
  (ugrids vgrids : list (Grid F)) (errors weights : list F)
  (env : Grid Z) (D_max : F) (cost2go : option (Grid F))
  (game game_work : Grid F) (B : list nbr) (k : nat) (ta : string) :
  getGameForCell row col traveler ugrids vgrids errors weights env D_max cost2go
    = Ok (game, game_work) ->
  getNeighbors (row, col) (fst (shape env)) (snd (shape env)) env 1 = Ok B ->
  nth_error (actionspace traveler) k = Some ta ->
  ~ In ta (map (fun b : nbr => snd b) B) ->
  exists grow wrow,
    nth_error game k = Some grow /\ nth_error game_work k = Some wrow /\
    Forall (fun x => x = D_max) grow /\ Forall (fun x => x = D_max) wrow.
Proof.
  intros H HB Hk Hnot.
  destruct (getGameForCell_rows _ _ _ _ _ _ _ _ _ _ _ _ H)
    as (B' & cells & HB' & -> & -> & Hrows).
  rewrite HB in HB'. injection HB' as <-.
  destruct (Forall2_nth_error_l _ _ _ _ _ Hrows Hk) as (cs & Hcs & _ & Hall).
  specialize (Hall Hnot).
  exists (map fst cs), (map snd cs).
  rewrite !nth_error_map, Hcs. simpl.
  split; [reflexivity |]. split; [reflexivity |].
  split; apply Forall_map; (eapply Forall_impl; [| exact Hall]);
    intros p ->; reflexivity.
Qed.

End GameShape.

(** The game of the cell (2, 1) of the 4 by 4 region after its first
    sweep: four actions against ten samples of the one force source. *)
Lemma getGameForCell_shape_witness :
  exists game game_work,
    getGameForCell 2 1 (traveler_float (1, 1)) [zero4] [zero4]
                   [0%float] [1%float] occ4 D4 (Some (out_cost2go out4))
      = Ok (game, game_work) /\
    rect 4 10 game /\ rect 4 10 game_work.
Proof.
  assert (H : exists p,
             getGameForCell 2 1 (traveler_float (1, 1)) [zero4] [zero4]
                            [0%float] [1%float] occ4 D4 (Some (out_cost2go out4))
               = Ok p)
    by (vm_compute; eexists; reflexivity).
  destruct H as [[game game_work] H]. exists game, game_work.
  split; [exact H |].
  exact (getGameForCell_shape 2 1 (traveler_float (1, 1)) [zero4] [zero4]
           [0%float] [1%float] occ4 D4 (Some (out_cost2go out4))
           game game_work H).
Defined.

(** From the cell (2, 1) of [left_blocked3] the move "<" leads to an
    obstacle: the third row of both matrices is [D_max]. *)
Lemma getGameForCell_blocked_rows_witness :
  exists game game_work grow wrow,
    getGameForCell 2 1 (traveler_float (0, 0)) [zero3] [zero3]
                   [0%float] [1%float] left_blocked3 D3 (Some cost_below_known)
      = Ok (game, game_work) /\
    nth_error game 2 = Some grow /\ nth_error game_work 2 = Some wrow /\
    Forall (fun x => x = D3) grow /\ Forall (fun x => x = D3) wrow.
Proof.
  assert (H : exists p,
             getGameForCell 2 1 (traveler_float (0, 0)) [zero3] [zero3]
                            [0%float] [1%float] left_blocked3 D3
                            (Some cost_below_known) = Ok p)
    by (vm_compute; eexists; reflexivity).
  destruct H as [[game game_work] H].
  assert (HB : getNeighbors (2, 1) (fst (shape left_blocked3))
                            (snd (shape left_blocked3)) left_blocked3 1
               = Ok [(1, 1, "^"); (2, 2, ">"); (1, 0, "a"); (1, 2, "b");
                     (0, 2, "n")])
    by (vm_compute; reflexivity).
  assert (Hk : nth_error (actionspace (traveler_float (0, 0))) 2 = Some "<")
    by reflexivity.
  assert (Hnot : ~ In "<" (map (fun b : nbr => snd b)
                             [(1, 1, "^"); (2, 2, ">"); (1, 0, "a");
                              (1, 2, "b"); (0, 2, "n")])).
  { simpl. intros Hin.
    repeat (destruct Hin as [Hin | Hin]; [discriminate Hin |]). exact Hin. }
  destruct (getGameForCell_blocked_rows 2 1 (traveler_float (0, 0))
              [zero3] [zero3] [0%float] [1%float] left_blocked3 D3
              (Some cost_below_known) game game_work _ 2 "<" H HB Hk Hnot)
    as (grow & wrow & Hg & Hw & Hall).
  exists game, game_work, grow, wrow. auto.
Defined.

(** ** Cell classification and sweeps *)

Lemma getNeighbors_free (i : cell) (m n : Z) (env : Grid Z) (flag : Z)
  (B : list nbr) :
  getNeighbors i m n env flag = Ok B ->
  Forall (fun b : nbr =>
            exists v, get2 env (fst (fst b)) (snd (fst b)) = Ok v /\ v <> flag) B.
Proof.
  destruct i as [i0 i1]. intros H.
  unfold getNeighbors in H. open_probes H. injection H as <-.
  repeat (apply Forall_app; split).
  all: apply Forall_emit; intros ->; simpl;
       match goal with
       | E : probe _ _ ?r' ?c' _ = Ok true |- context [get2 _ ?r' ?c'] =>
           apply probe_true_inv in E; exact (proj2 E)
       end.
Qed.

Lemma set2_Forall {A : Type} (P : A -> Prop) (g g' : Grid A) (r c : Z) (a : A) :
  Forall (Forall P) g -> P a -> set2 g r c a = Ok g' -> Forall (Forall P) g'.
Proof.
  intros Hg Ha. unfold set2.
  destruct (pyget g r) as [row | e] eqn:Erow; cbn [bind]; [| discriminate].
  unfold pyset at 1.
  destruct (norm_index (len row) c) as [p |]; cbn [bind]; [| discriminate].
  unfold pyset. destruct (norm_index (len g) r) as [q |]; [| discriminate].
  intros [= <-]. apply Forall_set_nth; [| exact Hg].
  apply Forall_set_nth; [exact Ha |].
  rewrite Forall_forall in Hg. apply Hg. eapply pyget_In; eassumption.
Qed.

Lemma set2_rect {A : Type} (m n : Z) (g g' : Grid A) (r c : Z) (a : A) :
  rect m n g -> set2 g r c a = Ok g' -> rect m n g'.
Proof.
  intros [Hlen Hall]. unfold set2.
  destruct (pyget g r) as [row | e] eqn:Erow; cbn [bind]; [| discriminate].
  unfold pyset at 1.
  destruct (norm_index (len row) c) as [p |]; cbn [bind]; [| discriminate].
  unfold pyset. destruct (norm_index (len g) r) as [q |]; [| discriminate].
  intros [= <-]. split.
  - unfold len in *. rewrite length_set_nth. exact Hlen.
  - apply Forall_set_nth; [| exact Hall].
    unfold len. rewrite length_set_nth.
    rewrite Forall_forall in Hall. apply Hall. eapply pyget_In; eassumption.
Qed.

Lemma rect_full {A : Type} (m n : Z) (x : A) :
  0 <= m -> 0 <= n -> rect m n (full m n x).
Proof.
  intros Hm Hn. unfold rect, full, len. rewrite repeat_length. split; [lia |].
  apply Forall_forall. intros row Hrow. apply repeat_spec in Hrow. subst row.
  rewrite repeat_length. lia.
Qed.

Lemma shape_nonneg {A : Type} (g : Grid A) : 0 <= fst (shape g) /\ 0 <= snd (shape g).
Proof.
  unfold shape. simpl. split; [apply len_nonneg |].
  destruct g; [lia | apply len_nonneg].
Qed.

Lemma get2_Forall {A : Type} (P : A -> Prop) (g : Grid A) (r c : Z) (a : A) :
  Forall (Forall P) g -> get2 g r c = Ok a -> P a.
Proof.
  intros Hg. unfold get2.
  destruct (pyget g r) as [row | e] eqn:Erow; cbn [bind]; [| discriminate].
  intros Ha. apply pyget_In in Erow, Ha.
  rewrite Forall_forall in Hg. specialize (Hg _ Erow).
  rewrite Forall_forall in Hg. apply Hg, Ha.
Qed.

Lemma Forall2_In_r {A B : Type} (R : A -> B -> Prop) (l : list A)
  (l' : list B) (y : B) :
  Forall2 R l l' -> In y l' -> exists x, In x l /\ R x y.
Proof.
  induction 1 as [| a b l l' Hab _ IH]; intros Hin; [contradiction |].
  destruct Hin as [<- | Hin].
  - exists a. split; [left; reflexivity | exact Hab].
  - destruct (IH Hin) as (x & Hx & HR). exists x. split; [right |]; assumption.
Qed.

Section Classification.

Context {F : Type} {N : Num F}.
Variables solve_gambit solve_nashpy : Grid F -> result (list F * list F).

(** The value [solveGame] reports is the entry of the matrix at the two
    pure positions it reports, whatever the method. *)
Lemma solveGame_value_entry (game : Grid F) (method : Z)
  (y z : list F) (i j : Z) (v : F) :
  solveGame solve_gambit solve_nashpy game method = Ok (y, z, i, j, v) ->
  get2 game i j = Ok v.
Proof.
  unfold solveGame.
  match goal with
  | |- bind ?X _ = _ -> _ => destruct X as [[y' z'] | e]
  end; cbn [bind]; [| discriminate].
  destruct (argmax y') as [i' | e]; cbn [bind]; [| discriminate].
  destruct (argmax z') as [j' | e]; cbn [bind]; [| discriminate].
  destruct (get2 game i' j') as [v' | e] eqn:Ev; cbn [bind]; [| discriminate].
  intros [= <- <- <- <- <-]. exact Ev.
Qed.

(** A successful call of [f_work], taken apart. *)
Lemma f_work_inv (row col : option Z) (i : cell) (m n : Z) (cost2go : Grid F)
  (D_max : F) (env : Grid Z) (traveler : Traveler F)
  (ugrids vgrids egrids wgrids : list (Grid F)) (method : Z)
  (c : F) (b : string) :
  f_work solve_gambit solve_nashpy row col i m n cost2go D_max env traveler
         ugrids vgrids egrids wgrids method = Ok (c, b) ->
  exists errors weights g g_work y z s2 s3,
    getGameForCell (fst i) (snd i) traveler ugrids vgrids errors weights
                   env D_max (Some cost2go) = Ok (g, g_work) /\
    solveGame solve_gambit solve_nashpy g method = Ok (y, z, s2, s3, c) /\
    pyget (actionspace traveler) s2 = Ok b.
Proof.
  unfold f_work. intros H.
  destruct (mapM _ egrids) as [errors | e]; cbn [bind] in H; [| discriminate].
  destruct (mapM _ wgrids) as [weights | e]; cbn [bind] in H; [| discriminate].
  destruct (getGameForCell _ _ _ _ _ errors weights env D_max (Some cost2go))
    as [[g g_work] | e] eqn:Eg; cbn [bind] in H; [| discriminate].
  destruct (solveGame _ _ g method) as [[[[[y z] s2] s3] s4] | e] eqn:Es;
    cbn [bind] in H; [| discriminate].
  destruct (pyget (actionspace traveler) s2) as [a | e] eqn:Ea;
    cbn [bind] in H; [| discriminate].
  injection H as <- <-.
  exists errors, weights, g, g_work, y, z, s2, s3. auto.
Qed.

(** What [getNewCost] can return: 0 and "*" at the target; [D_max] and the
    blank for an obstacle; [D_max] and "-"; or a value below [D_max] with an
    action of the traveler. *)
Lemma getNewCost_cases (row col : option Z) (i G : cell) (occgrid : Grid Z)
  (m n : Z) (cost2go : Grid F) (D_max : F) (traveler : Traveler F)
  (ugrids vgrids egrids wgrids : list (Grid F)) (cost : F) (action : string) :
  getNewCost solve_gambit solve_nashpy row col i G occgrid m n cost2go D_max
             traveler ugrids vgrids egrids wgrids = Ok (cost, action) ->
  (i = G /\ cost = ofZ 0 /\ action = "*") \/
  (i <> G /\ get2 occgrid (fst i) (snd i) = Ok 1 /\ cost = D_max /\ action = " ") \/
  (i <> G /\ cost = D_max /\ action = "-") \/
  (i <> G /\ fleb D_max cost = false /\ In action (actionspace traveler)).
Proof.
  unfold getNewCost. intros H.
  destruct (cell_eqb i G) eqn:EG.
  { apply cell_eqb_eq in EG. injection H as <- <-. left. auto. }
  assert (Hne : i <> G).
  { intros ->. rewrite (proj2 (cell_eqb_eq G G) eq_refl) in EG. discriminate. }
  right.
  destruct (get2 occgrid (fst i) (snd i)) as [occ | e] eqn:Eocc;
    cbn [bind] in H; [| discriminate].
  destruct (occ =? 1) eqn:E1.
  { apply Z.eqb_eq in E1. subst occ. injection H as <- <-. left. auto. }
  right.
  destruct (surrounded cost2go D_max i) as [[|] | e]; cbn [bind] in H;
    [| | discriminate].
  { injection H as <- <-. left. auto. }
  match type of H with
  | bind ?X _ = _ => destruct X as [[c b] | e] eqn:Ef
  end; cbn [bind] in H; [| discriminate].
  destruct (fleb D_max c) eqn:Ele.
  - injection H as <- <-. left. auto.
  - injection H as <- <-. right. split; [exact Hne |]. split; [exact Ele |].
    destruct (f_work_inv _ _ _ _ _ _ _ _ _ _ _ _ _ _ _ _ Ef)
      as (? & ? & ? & ? & ? & ? & s2 & ? & _ & _ & Hb).
    eapply pyget_In; eassumption.
Qed.

(** X10: a cell from which [getNeighbors] reports none of the traveler's
    actions is never given a cost other than [D_max], nor one of the
    traveler's actions: every row of its game is [D_max], so is the value of
    the game, and the comparison with [D_max] rejects it (where [D_max] is
    a number that compares equal to itself). *)
Theorem getNewCost_cell_without_moves (row col : option Z) (i G : cell)
  (occgrid : Grid Z) (m n : Z) (cost2go : Grid F) (D_max : F)
  (traveler : Traveler F) (ugrids vgrids egrids wgrids : list (Grid F))
  (B : list nbr) (cost : F) (action : string) :
  fleb D_max D_max = true ->
  i <> G ->
  getNeighbors i (fst (shape occgrid)) (snd (shape occgrid)) occgrid 1 = Ok B ->
  (forall ta, In ta (actionspace traveler) ->
              ~ In ta (map (fun b : nbr => snd b) B)) ->
  getNewCost solve_gambit solve_nashpy row col i G occgrid m n cost2go D_max
             traveler ugrids vgrids egrids wgrids = Ok (cost, action) ->
  cost = D_max /\ (action = " " \/ action = "-").
Proof.
  intros Hrefl Hne HB Hnone H. unfold getNewCost in H.
  destruct (cell_eqb i G) eqn:EG.
  { apply cell_eqb_eq in EG. contradiction. }
  destruct (get2 occgrid (fst i) (snd i)) as [occ | e]; cbn [bind] in H;
    [| discriminate].
  destruct (occ =? 1).
  { injection H as <- <-. auto. }
  destruct (surrounded cost2go D_max i) as [[|] | e]; cbn [bind] in H;
    [| | discriminate].
  { injection H as <- <-. auto. }
  match type of H with
  | bind ?X _ = _ => destruct X as [[c b] | e] eqn:Ef
  end; cbn [bind] in H; [| discriminate].
  destruct (f_work_inv _ _ _ _ _ _ _ _ _ _ _ _ _ _ _ _ Ef)
    as (errors & weights & g & gw & y & z & s2 & s3 & Hg & Hs & Hb).
  assert (Hc : c = D_max).
  { destruct i as [i0 i1]. cbn [fst snd] in Hg.
    destruct (getGameForCell_rows _ _ _ _ _ _ _ _ _ _ _ _ Hg)
      as (B' & cells & HB' & -> & _ & Hrows).
    rewrite HB in HB'. injection HB' as <-.
    apply solveGame_value_entry in Hs.
    apply (get2_Forall (fun x => x = D_max) _ _ _ _) in Hs; [exact Hs |].
    apply Forall_map, Forall_forall. intros cs Hcs.
    destruct (Forall2_In_r _ _ _ _ Hrows Hcs) as (ta & Hta & _ & Hblocked).
    apply Forall_map. eapply Forall_impl; [| apply Hblocked, Hnone, Hta].
    intros p ->. reflexivity. }
  subst c. rewrite Hrefl in H. injection H as <- <-. auto.
Qed.

End Classification.

(** A cell whose only free neighbors are diagonal, for a traveler that
    moves along rows and columns: next to a cell of cost 0, it is still
    given [D_max] and "-". *)
Definition diagonal3 : Grid Z := [[0; 1; 0]; [1; 0; 1]; [0; 1; 0]].

Definition cost_upper_left_known : Grid float :=
  [ [0%float; D3; D3];
    [D3; D3; D3];
    [D3; D3; D3] ].

Lemma getNewCost_cell_without_moves_witness :
  exists cost action,
    getNewCost no_solver no_solver (Some 2) (Some 2) (1, 1) (0, 0) diagonal3
               3 3 cost_upper_left_known D3 (traveler_float (0, 0))
               [zero3] [zero3] [zero3] [one3] = Ok (cost, action) /\
    surrounded cost_upper_left_known D3 (1, 1) = Ok false /\
    cost = D3 /\ (action = " " \/ action = "-").
Proof.
  assert (H : exists p,
             getNewCost no_solver no_solver (Some 2) (Some 2) (1, 1) (0, 0)
                        diagonal3 3 3 cost_upper_left_known D3
                        (traveler_float (0, 0))
                        [zero3] [zero3] [zero3] [one3] = Ok p)
    by (vm_compute; eexists; reflexivity).
  destruct H as [[cost action] H]. exists cost, action.
  split; [exact H |]. split; [vm_compute; reflexivity |].
  assert (Hrefl : fleb D3 D3 = true) by (vm_compute; reflexivity).
  assert (Hne : (1, 1) <> (0, 0)) by discriminate.
  assert (HB : getNeighbors (1, 1) (fst (shape diagonal3))
                            (snd (shape diagonal3)) diagonal3 1
               = Ok [(0, 0, "a"); (0, 2, "b"); (2, 0, "c"); (2, 2, "d")])
    by (vm_compute; reflexivity).
  assert (Hnone : forall ta, In ta (actionspace (traveler_float (0, 0))) ->
                    ~ In ta (map (fun b : nbr => snd b)
                               [(0, 0, "a"); (0, 2, "b"); (2, 0, "c");
                                (2, 2, "d")])).
  { simpl. intros ta Hta Hin.
    repeat (destruct Hta as [<- | Hta];
            [repeat (destruct Hin as [Hin | Hin]; [discriminate Hin |]);
             exact Hin |]).
    exact Hta. }
  exact (getNewCost_cell_without_moves no_solver no_solver (Some 2) (Some 2)
           (1, 1) (0, 0) diagonal3 3 3 cost_upper_left_known D3
           (traveler_float (0, 0)) [zero3] [zero3] [zero3] [one3]
           _ cost action Hrefl Hne HB Hnone H).
Defined.

(** ** Invariants of the sweeps *)

Lemma full_Forall {A : Type} (P : A -> Prop) (m n : Z) (x : A) :
  P x -> Forall (Forall P) (full m n x).
Proof.
  intros Hx. unfold full. apply Forall_forall. intros row Hrow.
  apply repeat_spec in Hrow. subst row.
  apply Forall_forall. intros y Hy. apply repeat_spec in Hy. subst y. exact Hx.
Qed.

Lemma get2_full {A : Type} (m n r c : Z) (x : A) :
  0 <= r < m -> 0 <= c < n -> get2 (full m n x) r c = Ok x.
Proof.
  intros Hr Hc.
  destruct (get2_in_range m n (full m n x) r c) as (v & Hv); [| lia | lia |].
  { apply rect_full; lia. }
  rewrite Hv. f_equal.
  exact (get2_Forall (fun y => y = x) _ _ _ _ (full_Forall _ m n x eq_refl) Hv).
Qed.

(** A cell that is free in the occupancy grid. *)
Definition free (occgrid : Grid Z) (c : cell) : Prop :=
  exists v, get2 occgrid (fst c) (snd c) = Ok v /\ v <> 1.

Section Sweeping.

Context {F : Type} {N : Num F}.
Variables solve_gambit solve_nashpy : Grid F -> result (list F * list F).
Variables (row col : option Z) (G : cell) (occgrid : Grid Z) (m n : Z)
          (D_max : F) (traveler : Traveler F)
          (ugrids vgrids egrids wgrids : list (Grid F)) (bounds : Bounds).

Local Abbreviation visit' :=
  (visit solve_gambit solve_nashpy row col G occgrid m n D_max traveler
         ugrids vgrids egrids wgrids bounds).
Local Abbreviation sweep_loop' fuel :=
  (sweep_loop solve_gambit solve_nashpy fuel row col G occgrid m n D_max
              traveler ugrids vgrids egrids wgrids bounds).
Local Abbreviation sweep' :=
  (sweep solve_gambit solve_nashpy row col G occgrid m n D_max traveler
         ugrids vgrids egrids wgrids bounds).
Local Abbreviation sweeps' k :=
  (sweeps solve_gambit solve_nashpy k row col G occgrid m n D_max traveler
          ugrids vgrids egrids wgrids bounds).
Local Abbreviation getNewCost' i c2g :=
  (getNewCost solve_gambit solve_nashpy row col i G occgrid m n c2g D_max
              traveler ugrids vgrids egrids wgrids).

(** A property [C] of the cells that holds of the target and passes from a
    cell to the neighbors it enqueues holds of every cell a sweep visits; a
    property [Q] of the two grids that every write at such a cell preserves
    then survives any number of sweeps. *)
Variable C : cell -> Prop.
Variable Q : Grid F -> Grid string -> Prop.

Hypothesis C_target : C G.
Hypothesis C_neighbors :
  forall i B, C i ->
    getNeighbors i (fst (shape occgrid)) (snd (shape occgrid)) occgrid 1 = Ok B ->
    forall b s, In (fst b, snd b, s) B -> in_bounds bounds b = true -> C b.
Hypothesis Q_write :
  forall i c2g a2g cost action c2g' a2g',
    C i -> Q c2g a2g ->
    getNewCost' i c2g = Ok (cost, action) ->
    set2 c2g (fst i) (snd i) cost = Ok c2g' ->
    set2 a2g (fst i) (snd i) action = Ok a2g' ->
    Q c2g' a2g'.

Lemma sweep_preserves (grids grids' : Grid F * Grid string) :
  Q (fst grids) (snd grids) -> sweep' grids = Some (Ok grids') ->
  Q (fst grids') (snd grids').
Proof.
  intros HQ H. unfold sweep in H.
  destruct (sweep_loop' (sweep_fuel bounds) _) as [[s' | e] |] eqn:Eloop;
    try discriminate.
  injection H as <-. cbn [fst snd].
  pose (Inv := fun s : sweep_state F =>
     Forall C (visitQueue s) /\ Q (cost2go s) (action2go s)).
  assert (Hres : Inv s' /\ visitQueue s' = []).
  { eapply (sweep_loop_invariant _ _ _ _ _ _ _ _ _ _ _ _ _ _ _ Inv);
      [| | exact Eloop].
    - intros s i rest s1 Hq [Hall HQs] Hv.
      rewrite Hq in Hall. inversion Hall as [| ? ? Hi Hrest]; subst.
      destruct (visit_inv _ _ _ _ _ _ _ _ _ _ _ _ _ _ _ _ _ _ Hv)
        as (cost & action & B & Hc & Hs1 & Hs2 & HB & Henq).
      cbn [popped cost2go action2go visitQueue visitHistory] in *.
      split.
      + destruct (enqueue_spec _ _ _ _ _ _ Henq)
          as (added & -> & _ & Hin & Hfrom & _).
        apply Forall_app. split; [exact Hrest |].
        rewrite Forall_forall in *. intros b Hb.
        destruct (Hfrom b Hb) as (sym & Hsym).
        eapply C_neighbors; [exact Hi | exact HB | exact Hsym | apply Hin, Hb].
      + eapply Q_write; eassumption.
    - split; cbn [visitQueue cost2go action2go].
      + constructor; [exact C_target | constructor].
      + exact HQ. }
  exact (proj2 (proj1 Hres)).
Qed.

Lemma sweeps_preserves (k : nat) :
  forall grids grids',
    Q (fst grids) (snd grids) -> sweeps' k grids = Some (Ok grids') ->
    Q (fst grids') (snd grids').
Proof.
  induction k as [| k IH]; intros grids grids' HQ H; simpl in H.
  - injection H as <-. exact HQ.
  - destruct (sweep' grids) as [[g1 | e] |] eqn:E1; try discriminate.
    eapply IH; [| exact H]. eapply sweep_preserves; eassumption.
Qed.

End Sweeping.

Section GridInvariants.

Context {F : Type} {N : Num F}.
Variables solve_gambit solve_nashpy : Grid F -> result (list F * list F).

(** The neighbors of any cell are free cells. *)
Lemma free_neighbors (occgrid : Grid Z) (i : cell) (mm nn : Z) (B : list nbr)
  (b : cell) (s : string) :
  getNeighbors i mm nn occgrid 1 = Ok B -> In (fst b, snd b, s) B ->
  free occgrid b.
Proof.
  intros HB Hin. apply getNeighbors_free in HB.
  rewrite Forall_forall in HB. exact (HB _ Hin).
Qed.

(** X11: the action grid [getCost2go] returns holds nothing but "-", "*"
    and actions of the traveler's action space. In particular the blank
    that [getNewCost] returns for an obstacle is never stored: only the
    target and free cells are ever evaluated, so obstacles and unreachable
    cells both show "-". *)
Theorem getCost2go_action_symbols (traveler : Traveler F) (occgrid : Grid Z)
  (ugrids vgrids egrids wgrids : list (Grid F))
  (bounds : option Bounds) (iterations : option Z) (out : cost2go_output F)
  (r c : Z) (a : string) :
  getCost2go solve_gambit solve_nashpy traveler occgrid
             ugrids vgrids egrids wgrids bounds iterations = Some (Ok out) ->
  get2 (out_action2go out) r c = Ok a ->
  a = "-" \/ a = "*" \/ In a (actionspace traveler).
Proof.
  intros H Ha.
  destruct bounds as [bounds |].
  2:{ unfold getCost2go in H. destruct (shape occgrid). discriminate. }
  destruct (getCost2go_sweeps _ _ _ _ _ _ _ _ _ _ _ H)
    as (row & col & m & n & Hsw & _).
  pose (P := fun a : string => a = "-" \/ a = "*" \/ In a (actionspace traveler)).
  refine (get2_Forall P _ _ _ _ _ Ha).
  refine (sweeps_preserves _ _ _ _ _ _ _ _ _ _ _ _ _ _ _
            (fun c => c = target traveler \/ free occgrid c)
            (fun _ a2g => Forall (Forall P) a2g) _ _ _ _ _ _ _ Hsw).
  - left. reflexivity.
  - intros i B _ HB b s Hin _. right. eapply free_neighbors; eassumption.
  - intros i c2g a2g cost action c2g' a2g' Hi Hall Hc _ Hs2.
    eapply set2_Forall; [exact Hall | | exact Hs2].
    destruct (getNewCost_cases _ _ _ _ _ _ _ _ _ _ _ _ _ _ _ _ _ _ Hc)
      as [(_ & _ & ->) | [(Hne & Hocc & _) | [(_ & _ & ->) | (_ & _ & Hin)]]].
    + right. left. reflexivity.
    + exfalso. destruct Hi as [Hi | (v & Hv & Hv1)]; [exact (Hne Hi) |].
      rewrite Hocc in Hv. injection Hv as <-. apply Hv1. reflexivity.
    + left. reflexivity.
    + right. right. exact Hin.
  - cbn [fst snd]. apply full_Forall. left. reflexivity.
Qed.

(** X12: an obstacle other than the target is never evaluated: its entry
    of the cost-to-go grid is still the initial [0 + D_max] and its entry of
    the action grid still "-" when [getCost2go] returns (cells and target of
    nonnegative coordinates, the occupancy grid rectangular). *)
Theorem getCost2go_obstacles_untouched (traveler : Traveler F)
  (occgrid : Grid Z) (ugrids vgrids egrids wgrids : list (Grid F))
  (bounds : Bounds) (iterations : option Z) (out : cost2go_output F)
  (x : cell) :
  rect (fst (shape occgrid)) (snd (shape occgrid)) occgrid ->
  nonneg (target traveler) -> nonneg x -> x <> target traveler ->
  get2 occgrid (fst x) (snd x) = Ok 1 ->
  getCost2go solve_gambit solve_nashpy traveler occgrid
             ugrids vgrids egrids wgrids (Some bounds) iterations
    = Some (Ok out) ->
  get2 (out_cost2go out) (fst x) (snd x)
    = Ok (fadd (ofZ 0) (D_max_of (region_cells bounds))) /\
  get2 (out_action2go out) (fst x) (snd x) = Ok "-".
Proof.
  intros Hrect HG [Hx0 Hx1] HxG Hocc H.
  destruct (getCost2go_sweeps _ _ _ _ _ _ _ _ _ _ _ H)
    as (row & col & m & n & Hsw & _).
  assert (Hin : 0 <= fst x < fst (shape occgrid) /\
                0 <= snd x < snd (shape occgrid)).
  { unfold get2 in Hocc.
    destruct (pyget occgrid (fst x)) as [orow | e] eqn:Erow;
      cbn [bind] in Hocc; [| discriminate].
    destruct (pyget_nonneg_inv _ _ _ Hx0 Erow) as [_ Hlt0].
    destruct (pyget_nonneg_inv _ _ _ Hx1 Hocc) as [_ Hlt1].
    pose proof (rect_row _ _ _ _ Hrect (pyget_In _ _ _ Erow)) as Hrl.
    destruct Hrect as [Hlen _]. lia. }
  destruct Hin as [Hr Hc].
  refine (sweeps_preserves _ _ _ _ _ _ _ _ _ _ _ _ _ _ _
            (fun c => nonneg c /\ (c = target traveler \/ free occgrid c))
            (fun c2g a2g =>
               get2 c2g (fst x) (snd x)
                 = Ok (fadd (ofZ 0) (D_max_of (region_cells bounds))) /\
               get2 a2g (fst x) (snd x) = Ok "-") _ _ _ _ _ _ _ Hsw).
  - split; [exact HG | left; reflexivity].
  - intros i B [Hi _] HB b s Hb _. split.
    + pose proof (getNeighbors_nonneg _ _ _ _ _ _ HB Hi) as Hnn.
      rewrite Forall_forall in Hnn. exact (Hnn _ Hb).
    + right. eapply free_neighbors; eassumption.
  - intros i c2g a2g cost action c2g' a2g' [[Hi0 Hi1] Hi] [Hc0 Ha0] _ Hs1 Hs2.
    assert (Hne : (fst i, snd i) <> (fst x, snd x)).
    { intros Heq. assert (Hix : i = x).
      { destruct i, x. simpl in Heq. exact Heq. }
      subst i. destruct Hi as [Hi | (v & Hv & Hv1)]; [exact (HxG Hi) |].
      rewrite Hocc in Hv. injection Hv as <-. apply Hv1. reflexivity. }
    split.
    + rewrite (set2_other _ _ _ _ _ _ _ Hs1 Hi0 Hi1 Hx0 Hx1 Hne). exact Hc0.
    + rewrite (set2_other _ _ _ _ _ _ _ Hs2 Hi0 Hi1 Hx0 Hx1 Hne). exact Ha0.
  - cbn [fst snd]. unfold initial_cost2go, initial_action2go.
    split; apply get2_full; assumption.
Qed.

(** X13: the three grids [getCost2go] returns have the shape of the
    occupancy grid: every write of a sweep replaces an entry in place. *)
Theorem getCost2go_output_shape (traveler : Traveler F) (occgrid : Grid Z)
  (ugrids vgrids egrids wgrids : list (Grid F))
  (bounds : option Bounds) (iterations : option Z) (out : cost2go_output F) :
  getCost2go solve_gambit solve_nashpy traveler occgrid
             ugrids vgrids egrids wgrids bounds iterations = Some (Ok out) ->
  rect (fst (shape occgrid)) (snd (shape occgrid)) (out_cost2go out) /\
  rect (fst (shape occgrid)) (snd (shape occgrid)) (out_work2go out) /\
  rect (fst (shape occgrid)) (snd (shape occgrid)) (out_action2go out).
Proof.
  intros H.
  destruct bounds as [bounds |].
  2:{ unfold getCost2go in H. destruct (shape occgrid). discriminate. }
  destruct (getCost2go_sweeps _ _ _ _ _ _ _ _ _ _ _ H)
    as (row & col & m & n & Hsw & Hwork).
  destruct (shape_nonneg occgrid) as [Hm Hn].
  assert (Hcost : rect (fst (shape occgrid)) (snd (shape occgrid)) (out_cost2go out) /\
                  rect (fst (shape occgrid)) (snd (shape occgrid)) (out_action2go out)).
  { refine (sweeps_preserves _ _ _ _ _ _ _ _ _ _ _ _ _ _ _
              (fun _ => True)
              (fun c2g a2g =>
                 rect (fst (shape occgrid)) (snd (shape occgrid)) c2g /\
                 rect (fst (shape occgrid)) (snd (shape occgrid)) a2g)
              _ _ _ _ _ _ _ Hsw).
    - exact I.
    - intros. exact I.
    - intros i c2g a2g cost action c2g' a2g' _ [Hc Ha] _ Hs1 Hs2.
      split; eapply set2_rect; eassumption.
    - cbn [fst snd]. split; apply rect_full; assumption. }
  destruct Hcost as [Hc Ha]. split; [exact Hc |]. split; [| exact Ha].
  rewrite Hwork. apply rect_full; assumption.
Qed.

(** X14: [getCost2go] always ends, with a result or with an exception: the
    worklist of a sweep is emptied within as many passes as there are cells
    strictly inside the bounds, plus one, since a cell is appended at most
    once per sweep. Without bounds (the default) it raises [TypeError]. *)
Theorem getCost2go_ends (traveler : Traveler F) (occgrid : Grid Z)
  (ugrids vgrids egrids wgrids : list (Grid F))
  (bounds : option Bounds) (iterations : option Z) :
  (exists r, getCost2go solve_gambit solve_nashpy traveler occgrid
               ugrids vgrids egrids wgrids bounds iterations = Some r) /\
  getCost2go solve_gambit solve_nashpy traveler occgrid
             ugrids vgrids egrids wgrids None iterations
    = Some (Raise TypeError).
Proof.
  split.
  - unfold getCost2go. destruct (shape occgrid) as [full_m full_n].
    destruct bounds as [bounds |]; [| eexists; reflexivity].
    match goal with
    | |- exists r, match ?X with _ => _ end = _ =>
        destruct X as [[[c2g a2g] | e] |] eqn:E
    end; try (eexists; reflexivity).
    exfalso. revert E. apply sweeps_terminates.
  - unfold getCost2go. destruct (shape occgrid). reflexivity.
Qed.

End GridInvariants.

Lemma getCost2go_action_symbols_witness :
  "^" = "-" \/ "^" = "*" \/ In "^" (actionspace (traveler_float (1, 1))).
Proof.
  exact (getCost2go_action_symbols no_solver no_solver
           (traveler_float (1, 1)) occ4 [zero4] [zero4] [zero4] [one4]
           (Some bounds4) (Some 1) out4 2 1 "^" run4_out4 eq_refl).
Defined.

(** The 4 by 4 region with an obstacle at (2, 2), strictly inside the
    bounds and diagonal to the target (1, 1). *)
Definition occ4_wall : Grid Z :=
  [[0; 0; 0; 0]; [0; 0; 0; 0]; [0; 0; 1; 0]; [0; 0; 0; 0]].

Lemma getCost2go_obstacles_untouched_witness :
  exists out,
    getCost2go no_solver no_solver (traveler_float (1, 1)) occ4_wall
               [zero4] [zero4] [zero4] [one4] (Some bounds4) (Some 1)
      = Some (Ok out) /\
    get2 (out_cost2go out) 2 2 = Ok (fadd 0%float D4) /\
    get2 (out_action2go out) 2 2 = Ok "-".
Proof.
  assert (H : exists out,
             getCost2go no_solver no_solver (traveler_float (1, 1)) occ4_wall
                        [zero4] [zero4] [zero4] [one4] (Some bounds4) (Some 1)
               = Some (Ok out))
    by (vm_compute; eexists; reflexivity).
  destruct H as [out H]. exists out. split; [exact H |].
  assert (Hrect : rect (fst (shape occ4_wall)) (snd (shape occ4_wall)) occ4_wall)
    by (split; [reflexivity | repeat constructor]).
  assert (HG : nonneg (target (traveler_float (1, 1)))) by (split; simpl; lia).
  assert (Hx : nonneg (2, 2)) by (split; simpl; lia).
  assert (Hne : (2, 2) <> target (traveler_float (1, 1))) by discriminate.
  exact (getCost2go_obstacles_untouched no_solver no_solver
           (traveler_float (1, 1)) occ4_wall [zero4] [zero4] [zero4] [one4]
           bounds4 (Some 1) out (2, 2) Hrect HG Hx Hne eq_refl H).
Defined.

Lemma getCost2go_output_shape_witness :
  rect 4 4 (out_cost2go out4) /\ rect 4 4 (out_work2go out4) /\
  rect 4 4 (out_action2go out4).
Proof.
  exact (getCost2go_output_shape no_solver no_solver
           (traveler_float (1, 1)) occ4 [zero4] [zero4] [zero4] [one4]
           (Some bounds4) (Some 1) out4 run4_out4).
Defined.

(** ** The costs a sweep stores *)

Section GameEntries.

Context {F : Type} {N : Num F}.
Variables solve_gambit solve_nashpy : Grid F -> result (list F * list F).

(** Every entry of the payoff matrix is [D_max] or the total cost of an
    outcome computed at the cell. *)
Lemma getGameForCell_entries (row col : Z) (traveler : Traveler F)
  (ugrids vgrids : list (Grid F)) (errors weights : list F)
  (env : Grid Z) (D_max : F) (cost2go : option (Grid F))
  (game game_work : Grid F) :
  getGameForCell row col traveler ugrids vgrids errors weights env D_max cost2go
    = Ok (game, game_work) ->
  Forall (Forall (fun x =>
            x = D_max \/
            exists ta ua va w,
              getOutcome ta ua va weights traveler D_max cost2go
                         (Some row) (Some col) = Ok (x, w))) game.
Proof.
  unfold getGameForCell. intros H.
  destruct (getWorldActionsForCell row col ugrids vgrids errors)
    as [was | e]; cbn [bind] in H; [| discriminate].
  destruct (getNeighbors (row, col) _ _ env 1) as [B | e];
    cbn [bind] in H; [| discriminate].
  destruct (mapM _ (actionspace traveler)) as [cells | e] eqn:Ec;
    cbn [bind] in H; [| discriminate].
  injection H as <- _.
  apply mapM_Forall2 in Ec.
  apply Forall_map, Forall_forall. intros cs Hcs.
  destruct (Forall2_In_r _ _ _ _ Ec Hcs) as (ta & _ & Hrow).
  cbv beta in Hrow. apply mapM_Forall2 in Hrow.
  apply Forall_map, Forall_forall. intros p Hp.
  destruct (Forall2_In_r _ _ _ _ Hrow Hp) as (c & _ & Hc).
  cbv beta in Hc.
  destruct (existsb (String.eqb ta) (map (fun b : nbr => snd b) B)).
  - destruct (pyget (uactions was) c) as [ua | e]; cbn [bind] in Hc;
      [| discriminate].
    destruct (pyget (vactions was) c) as [va | e]; cbn [bind] in Hc;
      [| discriminate].
    right. exists ta, ua, va, (snd p). destruct p. exact Hc.
  - injection Hc as <-. left. reflexivity.
Qed.

(** The cost [getNewCost] returns is 0, [D_max], or a value of [f_work]
    that the comparison with [D_max] let through. *)
Lemma getNewCost_value (row col : option Z) (i G : cell) (occgrid : Grid Z)
  (m n : Z) (cost2go : Grid F) (D_max : F) (traveler : Traveler F)
  (ugrids vgrids egrids wgrids : list (Grid F)) (cost : F) (action : string) :
  getNewCost solve_gambit solve_nashpy row col i G occgrid m n cost2go D_max
             traveler ugrids vgrids egrids wgrids = Ok (cost, action) ->
  cost = ofZ 0 \/ cost = D_max \/
  (fleb D_max cost = false /\
   f_work solve_gambit solve_nashpy row col i
          (fst (shape occgrid)) (snd (shape occgrid)) cost2go D_max occgrid
          traveler ugrids vgrids egrids wgrids 0 = Ok (cost, action)).
Proof.
  unfold getNewCost. intros H.
  destruct (cell_eqb i G).
  { injection H as <- _. left. reflexivity. }
  destruct (get2 occgrid (fst i) (snd i)) as [occ | e]; cbn [bind] in H;
    [| discriminate].
  destruct (occ =? 1).
  { injection H as <- _. right. left. reflexivity. }
  destruct (surrounded cost2go D_max i) as [[|] | e]; cbn [bind] in H;
    [| | discriminate].
  { injection H as <- _. right. left. reflexivity. }
  match type of H with
  | bind ?X _ = _ => destruct X as [[c b] | e] eqn:Ef
  end; cbn [bind] in H; [| discriminate].
  destruct (fleb D_max c) eqn:Ele.
  - injection H as <- _. right. left. reflexivity.
  - injection H as <- <-. right. right. split; [exact Ele | reflexivity].
Qed.

End GameEntries.

(** *** In exact arithmetic *)

Lemma uv2magdir_nonneg (u v : R) : (0 <= uv2magdir u v)%R.
Proof. unfold uv2magdir. simpl. apply sqrt_pos. Qed.

Lemma outcome_cost_nonneg (move : string) (work : R) (c2g : Grid R)
  (r c : Z) (x : R) :
  Forall (Forall (fun y => (0 <= y)%R)) c2g -> (0 <= work)%R ->
  outcome_cost move work c2g r c = Ok x -> (0 <= x)%R.
Proof.
  intros Hall Hw. unfold outcome_cost.
  repeat match goal with
  | |- (if ?b then _ else _) = _ -> _ => destruct b
  | |- bind (get2 c2g ?r' ?c') _ = _ -> _ =>
      let E := fresh "E" in
      destruct (get2 c2g r' c') as [y | e] eqn:E; cbn [bind];
      [ intros [= <-];
        pose proof (get2_Forall _ _ _ _ _ Hall E) as Hy; cbv beta in Hy;
        simpl; lra
      | discriminate ]
  end.
  - discriminate.
  - intros [= <-]. exact Hw.
Qed.

Lemma getOutcome_cost_nonneg (move : string) (us vs weights : list R)
  (traveler : Traveler R) (D_max : R) (c2g : Grid R) (row col : option Z)
  (x w : R) :
  Forall (Forall (fun y => (0 <= y)%R)) c2g ->
  getOutcome move us vs weights traveler D_max (Some c2g) row col = Ok (x, w) ->
  (0 <= x)%R.
Proof.
  intros Hall H. unfold getOutcome in H.
  destruct (getVectorSum us vs weights) as [[uw vw] | e]; cbn [bind] in H;
    [| discriminate].
  destruct (dict_get (action2radians traveler) move) as [rad | e];
    cbn [bind] in H; [| discriminate].
  unfold magdir2uv in H. rewrite getVectorDiff_two in H. cbn [bind] in H.
  destruct row as [r |]; [| injection H as <- _; apply uv2magdir_nonneg].
  destruct col as [c |]; [| injection H as <- _; apply uv2magdir_nonneg].
  destruct (pyget c2g 0); cbn [bind] in H; [| discriminate].
  match type of H with
  | bind ?X _ = _ => destruct X as [y | e] eqn:Ey
  end; cbn [bind] in H; [| discriminate].
  injection H as <- _.
  eapply outcome_cost_nonneg; [exact Hall | | exact Ey].
  apply uv2magdir_nonneg.
Qed.

Lemma D_max_of_nonneg (M : Z) : 0 <= M -> (0 <= D_max_of (F := R) M)%R.
Proof.
  intros HM. unfold D_max_of, d_max. simpl.
  apply IZR_le in HM.
  pose proof (sqrt_pos 2) as H2.
  repeat apply Rmult_le_pos; try lra; exact HM.
Qed.

Lemma region_cells_nonneg (bounds : Bounds) : 0 <= region_cells bounds.
Proof. unfold region_cells. apply Z.mul_nonneg_nonneg; apply Z.abs_nonneg. Qed.

(** X15: in exact arithmetic every entry of the cost-to-go grid
    [getCost2go] returns lies between 0 and [D_max], whatever the forces,
    errors, weights and the traveler's speed: a cost is the 0 of the
    target, [D_max], or work (a magnitude) added to a cost stored before,
    and it is stored only when it is below [D_max]. *)
Theorem getCost2go_costs_bounded
  (solve_gambit solve_nashpy : Grid R -> result (list R * list R))
  (traveler : Traveler R) (occgrid : Grid Z)
  (ugrids vgrids egrids wgrids : list (Grid R))
  (bounds : Bounds) (iterations : option Z) (out : cost2go_output R)
  (r c : Z) (x : R) :
  getCost2go solve_gambit solve_nashpy traveler occgrid
             ugrids vgrids egrids wgrids (Some bounds) iterations
    = Some (Ok out) ->
  get2 (out_cost2go out) r c = Ok x ->
  (0 <= x <= D_max_of (region_cells bounds))%R.
Proof.
  intros H Hx.
  destruct (getCost2go_sweeps _ _ _ _ _ _ _ _ _ _ _ H)
    as (row & col & m & n & Hsw & _).
  pose proof (D_max_of_nonneg _ (region_cells_nonneg bounds)) as HD.
  set (D := D_max_of (region_cells bounds)) in *.
  pose (P := fun y : R => (0 <= y <= D)%R).
  refine (get2_Forall P _ _ _ _ _ Hx).
  refine (sweeps_preserves _ _ _ _ _ _ _ _ _ _ _ _ _ _ _
            (fun _ => True) (fun c2g _ => Forall (Forall P) c2g)
            _ _ _ _ _ _ _ Hsw).
  - exact I.
  - intros. exact I.
  - intros i c2g a2g cost action c2g' a2g' _ Hall Hc Hs1 _.
    eapply set2_Forall; [exact Hall | | exact Hs1].
    destruct (getNewCost_value _ _ _ _ _ _ _ _ _ _ _ _ _ _ _ _ _ _ Hc)
      as [-> | [-> | [Hlt Hf]]].
    + unfold P. simpl. lra.
    + unfold P. lra.
    + assert (Hlt' : (cost < D)%R).
      { simpl in Hlt. unfold R_leb in Hlt.
        destruct (Rle_dec D cost); [discriminate | lra]. }
      split; [| lra].
      destruct (f_work_inv _ _ _ _ _ _ _ _ _ _ _ _ _ _ _ _ _ _ Hf)
        as (errors & weights & g & gw & y & z & s2 & s3 & Hg & Hs & _).
      apply solveGame_value_entry in Hs.
      apply getGameForCell_entries in Hg.
      pose proof (get2_Forall _ _ _ _ _ Hg Hs) as Hentry. cbv beta in Hentry.
      destruct Hentry as [-> | (ta & ua & va & w & Ho)]; [lra |].
      eapply getOutcome_cost_nonneg; [| exact Ho].
      eapply Forall_impl; [| exact Hall].
      intros rw Hrw. eapply Forall_impl; [| exact Hrw].
      intros y' [Hy' _]. exact Hy'.
  - cbn [fst]. unfold initial_cost2go. apply full_Forall.
    unfold P. fold D. simpl. lra.
Qed.

(** A 2 by 2 region with the target at (0, 0) and bounds that hold no cell
    strictly inside: the one sweep evaluates the target alone. *)
Definition traveler_R_at (target : cell) : Traveler R :=
  {| start := (0, 0); target := target;
     actionspace := ["^"; "v"; "<"; ">"];
     action2radians := getTraveler_action2radians;
     speed_cps := 1%R |}.

Definition bounds2 : Bounds := {| upperleft := (0, 0); lowerright := (1, 1) |}.

Lemma getCost2go_target_only :
  exists out,
    getCost2go no_solver no_solver (traveler_R_at (0, 0)) (full 2 2 0)
               [full 2 2 0%R] [full 2 2 0%R] [full 2 2 0%R] [full 2 2 1%R]
               (Some bounds2) (Some 1) = Some (Ok out) /\
    get2 (out_cost2go out) 0 0 = Ok 0%R.
Proof.
  eexists. split; [cbv; reflexivity | reflexivity].
Qed.

Lemma getCost2go_costs_bounded_witness :
  (0 <= 0 <= D_max_of (F := R) (region_cells bounds2))%R.
Proof.
  destruct getCost2go_target_only as (out & Hrun & Hx).
  exact (getCost2go_costs_bounded no_solver no_solver (traveler_R_at (0, 0))
           (full 2 2 0) [full 2 2 0%R] [full 2 2 0%R] [full 2 2 0%R]
           [full 2 2 1%R] bounds2 (Some 1) out 0 0 0%R Hrun Hx).
Defined.

(** ** Well-formed input raises nothing *)

Lemma mapM_ok {A B : Type} (f : A -> result B) (l : list A) :
  Forall (fun x => exists y, f x = Ok y) l -> exists ys, mapM f l = Ok ys.
Proof.
  induction 1 as [| x l [y Hy] _ [ys IH]]; [exists []; reflexivity |].
  exists (y :: ys). simpl. rewrite Hy. cbn [bind]. rewrite IH. reflexivity.
Qed.

Lemma mapM_len {A B : Type} (f : A -> result B) (l : list A) (ys : list B) :
  mapM f l = Ok ys -> len ys = len l.
Proof.
  intros H. apply mapM_Forall2, Forall2_length in H. unfold len. lia.
Qed.

(** Python's indexing accepts the positions [-n .. n-1]. *)
Lemma norm_index_wrap (n k : Z) :
  - n <= k < n -> exists p, norm_index n k = Some p /\ (p < Z.to_nat n)%nat.
Proof.
  intros Hk. unfold norm_index.
  destruct (0 <=? k) eqn:E1; cbn [andb].
  - apply Z.leb_le in E1. destruct (k <? n) eqn:E2; [| apply Z.ltb_ge in E2; lia].
    eexists. split; [reflexivity | lia].
  - apply Z.leb_gt in E1.
    destruct (- n <=? k) eqn:E3; [| apply Z.leb_gt in E3; lia].
    destruct (k <? 0) eqn:E4; [| apply Z.ltb_ge in E4; lia].
    eexists. split; [reflexivity | lia].
Qed.

Lemma pyget_wrap {A : Type} (l : list A) (k : Z) :
  - len l <= k < len l -> exists a, pyget l k = Ok a.
Proof.
  intros Hk. unfold pyget.
  destruct (norm_index_wrap _ _ Hk) as (p & -> & Hp).
  destruct (nth_error l p) eqn:E; [eexists; reflexivity |].
  apply nth_error_None in E. unfold len in Hp. lia.
Qed.

Lemma pyset_wrap {A : Type} (l : list A) (k : Z) (a : A) :
  - len l <= k < len l -> exists l', pyset l k a = Ok l'.
Proof.
  intros Hk. unfold pyset.
  destruct (norm_index_wrap _ _ Hk) as (p & -> & _). eexists. reflexivity.
Qed.

Lemma get2_wrap {A : Type} (m n : Z) (g : Grid A) (r c : Z) :
  rect m n g -> - m <= r < m -> - n <= c < n -> exists v, get2 g r c = Ok v.
Proof.
  intros Hrect Hr Hc. unfold get2.
  destruct (pyget_wrap g r) as (row & Hrow).
  { destruct Hrect as [Hlen _]. lia. }
  rewrite Hrow. cbn [bind]. apply pyget_wrap.
  rewrite (rect_row _ _ _ _ Hrect (pyget_In _ _ _ Hrow)). exact Hc.
Qed.

Lemma set2_wrap {A : Type} (m n : Z) (g : Grid A) (r c : Z) (a : A) :
  rect m n g -> - m <= r < m -> - n <= c < n -> exists g', set2 g r c a = Ok g'.
Proof.
  intros Hrect Hr Hc. unfold set2.
  destruct (pyget_wrap g r) as (row & Hrow).
  { destruct Hrect as [Hlen _]. lia. }
  rewrite Hrow. cbn [bind].
  destruct (pyset_wrap row c a) as (row' & Hrow').
  { rewrite (rect_row _ _ _ _ Hrect (pyget_In _ _ _ Hrow)). exact Hc. }
  rewrite Hrow'. cbn [bind]. apply pyset_wrap.
  destruct Hrect as [Hlen _]. lia.
Qed.

Lemma get2_nonneg_inv {A : Type} (m n : Z) (g : Grid A) (r c : Z) (v : A) :
  rect m n g -> 0 <= r -> 0 <= c -> get2 g r c = Ok v -> r < m /\ c < n.
Proof.
  intros Hrect Hr Hc H. unfold get2 in H.
  destruct (pyget g r) as [row | e] eqn:Erow; cbn [bind] in H; [| discriminate].
  destruct (pyget_nonneg_inv _ _ _ Hr Erow) as [_ Hlt0].
  destruct (pyget_nonneg_inv _ _ _ Hc H) as [_ Hlt1].
  pose proof (rect_row _ _ _ _ Hrect (pyget_In _ _ _ Erow)) as Hrl.
  destruct Hrect as [Hlen _]. lia.
Qed.

Lemma pyget_same_len {A B : Type} (l : list A) (l' : list B) (k : Z) (a : A) :
  len l' = len l -> pyget l k = Ok a -> exists b, pyget l' k = Ok b.
Proof.
  intros Hlen H. unfold pyget in *. rewrite Hlen.
  destruct (norm_index (len l) k) as [p |]; [| discriminate].
  destruct (nth_error l p) eqn:E; [| discriminate].
  destruct (nth_error l' p) eqn:E'; [eexists; reflexivity |].
  apply nth_error_None in E'.
  assert (nth_error l p <> None) as Hp by congruence.
  apply nth_error_Some in Hp. unfold len in Hlen. lia.
Qed.

(** The tuples of a Cartesian product have one component per range. *)
Lemma product_component_count {A : Type} (rs : list (list A)) (t : list A) :
  In t (product rs) -> len t = len rs.
Proof.
  revert t. induction rs as [| r rs IH]; intros t Hin.
  - destruct Hin as [<- | []]. reflexivity.
  - cbn [product] in Hin. apply in_flat_map in Hin as (x & _ & Hin).
    apply in_map_iff in Hin as (t' & <- & Ht').
    specialize (IH _ Ht'). unfold len in *. simpl. lia.
Qed.

(** On a rectangular grid and from a cell of it, [getNeighbors] raises
    nothing, and what it reports are cells of the grid. *)
Lemma getNeighbors_total (env : Grid Z) (m n flag i0 i1 : Z) :
  rect m n env -> 0 <= i0 < m -> 0 <= i1 < n ->
  exists B, getNeighbors (i0, i1) m n env flag = Ok B.
Proof.
  intros Hrect Hi0 Hi1. unfold getNeighbors. run_probes Hrect.
  eexists. reflexivity.
Qed.

Lemma getNeighbors_in_grid (env : Grid Z) (m n mm nn flag : Z) (i : cell)
  (B : list nbr) (r c : Z) (s : string) :
  rect m n env -> nonneg i ->
  getNeighbors i mm nn env flag = Ok B -> In (r, c, s) B ->
  0 <= r < m /\ 0 <= c < n.
Proof.
  intros Hrect Hi HB Hin.
  pose proof (getNeighbors_nonneg _ _ _ _ _ _ HB Hi) as Hnn.
  pose proof (getNeighbors_free _ _ _ _ _ _ HB) as Hfree.
  rewrite Forall_forall in Hnn, Hfree.
  destruct (Hnn _ Hin) as [Hr Hc]. destruct (Hfree _ Hin) as (v & Hv & _).
  simpl in Hr, Hc, Hv.
  destruct (get2_nonneg_inv _ _ _ _ _ _ Hrect Hr Hc Hv). lia.
Qed.

Section WellFormed.

Context {F : Type} {N : Num F}.
Variables solve_gambit solve_nashpy : Grid F -> result (list F * list F).
Variables (occgrid : Grid Z) (traveler : Traveler F)
          (ugrids vgrids egrids wgrids : list (Grid F)) (bounds : Bounds).
Variables (m n : Z).

Hypothesis shape_occgrid : shape occgrid = (m, n).
Hypothesis rect_occgrid : rect m n occgrid.
Hypothesis target_row : 0 <= fst (target traveler) < m.
Hypothesis target_col : 0 <= snd (target traveler) < n.
Hypothesis bounds_rows :
  -1 <= fst (upperleft bounds) /\ fst (lowerright bounds) <= m - 1.
Hypothesis bounds_cols :
  -1 <= snd (upperleft bounds) /\ snd (lowerright bounds) <= n - 1.
Hypothesis rect_ugrids : Forall (rect m n) ugrids.
Hypothesis rect_vgrids : Forall (rect m n) vgrids.
Hypothesis rect_egrids : Forall (rect m n) egrids.
Hypothesis rect_wgrids : Forall (rect m n) wgrids.
Hypothesis count_vgrids : len ugrids <= len vgrids.
Hypothesis count_egrids : len ugrids <= len egrids.
Hypothesis count_wgrids : len ugrids <= len wgrids.
Hypothesis some_action : actionspace traveler <> [].
Hypothesis headings :
  Forall (fun a => exists rad, dict_get (action2radians traveler) a = Ok rad)
         (actionspace traveler).

(** The cells a sweep evaluates: the target, and cells strictly inside the
    bounds. *)
Definition evaluated (i : cell) : Prop :=
  i = target traveler \/ in_bounds bounds i = true.

Lemma evaluated_in_grid (i : cell) :
  evaluated i -> 0 <= fst i < m /\ 0 <= snd i < n.
Proof.
  intros [-> | Hin]; [split; assumption |].
  apply in_bounds_iff in Hin. lia.
Qed.

Lemma sample_ranges_ok (row col : Z) (errors : list F) (g : Z) :
  0 <= row < m -> 0 <= col < n -> len ugrids <= len errors ->
  0 <= g < len ugrids ->
  exists p, sample_ranges row col ugrids vgrids errors g = Ok p.
Proof.
  intros Hrow Hcol Herr Hg. unfold sample_ranges.
  destruct (pyget_in_range ugrids g Hg) as (ug & -> & Hug). cbn [bind].
  apply nth_error_In in Hug.
  rewrite Forall_forall in rect_ugrids.
  destruct (get2_in_range m n ug row col (rect_ugrids _ Hug) Hrow Hcol)
    as (u & ->). cbn [bind].
  destruct (pyget_in_range errors g) as (e & -> & _); [lia |]. cbn [bind].
  destruct (pyget_in_range vgrids g) as (vg & -> & Hvg); [lia |]. cbn [bind].
  apply nth_error_In in Hvg.
  rewrite Forall_forall in rect_vgrids.
  destruct (get2_in_range m n vg row col (rect_vgrids _ Hvg) Hrow Hcol)
    as (v & ->). cbn [bind].
  eexists. reflexivity.
Qed.

Lemma getWorldActionsForCell_ok (row col : Z) (errors : list F) :
  0 <= row < m -> 0 <= col < n -> len ugrids <= len errors ->
  exists was,
    getWorldActionsForCell row col ugrids vgrids errors = Ok was /\
    Forall (fun t => len t = len ugrids) (uactions was).
Proof.
  intros Hrow Hcol Herr.
  destruct (mapM_ok (sample_ranges row col ugrids vgrids errors)
                    (range (len ugrids))) as (ranges & Hranges).
  { apply Forall_forall. intros g Hg. apply In_range in Hg.
    apply sample_ranges_ok; assumption. }
  unfold getWorldActionsForCell. rewrite Hranges. cbn [bind].
  eexists. split; [reflexivity |]. cbn [uactions].
  apply Forall_forall. intros t Ht.
  apply product_component_count in Ht. rewrite Ht.
  unfold len at 1. rewrite length_map. fold (len ranges).
  rewrite (mapM_len _ _ _ Hranges), len_range.
  pose proof (len_nonneg ugrids). lia.
Qed.

Lemma getVectorSum_ok (us vs weights : list F) :
  len us <= len weights -> len us <= len vs ->
  exists r, getVectorSum us vs weights = Ok r.
Proof.
  intros Hw Hv. pose proof (vector_loop_range fadd us vs weights) as H.
  apply Z.leb_le in Hw, Hv. rewrite Hw, Hv in H. exact H.
Qed.

(** The outcome of a move that [getNeighbors] reports from the cell. *)
Lemma getOutcome_ok (i0 i1 : Z) (B : list nbr) (r c : Z) (ta : string)
  (us vs weights : list F) (D_max : F) (c2g : Grid F) :
  nonneg (i0, i1) ->
  getNeighbors (i0, i1) m n occgrid 1 = Ok B -> In (r, c, ta) B ->
  In ta (actionspace traveler) ->
  len us <= len weights -> len us <= len vs ->
  rect m n c2g ->
  exists p, getOutcome ta us vs weights traveler D_max
                       (Some c2g) (Some i0) (Some i1) = Ok p.
Proof.
  intros Hi HB Hin Hta Hw Hv Hc2g. unfold getOutcome.
  destruct (getVectorSum_ok us vs weights Hw Hv) as ([uw vw] & ->).
  cbn [bind].
  rewrite Forall_forall in headings.
  destruct (headings _ Hta) as (rad & ->). cbn [bind].
  unfold magdir2uv. rewrite getVectorDiff_two. cbn [bind].
  destruct (getNeighbors_in_grid _ _ _ _ _ _ _ _ _ _ _ rect_occgrid Hi HB Hin)
    as [Hr Hc].
  destruct (get2_in_range m n c2g r c Hc2g Hr Hc) as (x & Hx).
  destruct (pyget_in_range c2g 0) as (row0 & -> & _).
  { destruct Hc2g as [Hlen _]. lia. }
  cbn [bind].
  rewrite (outcome_cost_neighbor _ _ _ _ _ _ _ _ _ _ _ c2g HB Hin).
  rewrite Hx. cbn [bind]. eexists. reflexivity.
Qed.

Lemma getGameForCell_ok (i0 i1 : Z) (errors weights : list F) (D_max : F)
  (c2g : Grid F) :
  0 <= i0 < m -> 0 <= i1 < n ->
  len ugrids <= len errors -> len ugrids <= len weights ->
  rect m n c2g ->
  exists game game_work,
    getGameForCell i0 i1 traveler ugrids vgrids errors weights occgrid D_max
                   (Some c2g) = Ok (game, game_work).
Proof.
  intros Hi0 Hi1 Herr Hw Hc2g. unfold getGameForCell.
  destruct (getWorldActionsForCell_ok i0 i1 errors Hi0 Hi1 Herr)
    as (was & Hwas & Hcomp).
  rewrite Hwas. cbn [bind].
  pose proof (getWorldActionsForCell_vactions _ _ _ _ _ _ Hwas) as Hva.
  destruct (getWorldActionsForCell_num _ _ _ _ _ _ Hwas) as (Hnum & Hlu & _).
  rewrite shape_occgrid. cbn [fst snd].
  destruct (getNeighbors_total occgrid m n 1 i0 i1 rect_occgrid Hi0 Hi1)
    as (B & HB).
  rewrite HB. cbn [bind].
  match goal with
  | |- exists g gw, bind (mapM ?f ?l) _ = _ =>
      destruct (mapM_ok f l) as (cells & Hcells)
  end.
  { apply Forall_forall. intros ta Hta. apply mapM_ok.
    apply Forall_forall. intros c Hc. apply In_range in Hc.
    destruct (existsb (String.eqb ta) (map (fun b : nbr => snd b) B)) eqn:Ev;
      [| eexists; reflexivity].
    apply existsb_exists in Ev as (s & Hs & Heq).
    apply String.eqb_eq in Heq. subst s.
    apply in_map_iff in Hs as ([[r c'] s] & Hsnd & Hb). simpl in Hsnd. subst s.
    destruct (pyget_in_range (uactions was) c) as (ua & Hua & Hnth); [lia |].
    rewrite Hva, Hua. cbn [bind].
    rewrite Forall_forall in Hcomp.
    pose proof (Hcomp _ (nth_error_In _ _ Hnth)) as Hlen.
    eapply getOutcome_ok; try eassumption.
    - split; simpl; lia.
    - lia.
    - lia. }
  rewrite Hcells. cbn [bind]. do 2 eexists. reflexivity.
Qed.

(** [f_work] with [row] and [col] bound to a cell of the grid. *)
Lemma f_work_ok (r0 c0 : Z) (i : cell) (mm nn : Z) (D_max : F) (c2g : Grid F) :
  0 <= r0 < m -> 0 <= c0 < n ->
  0 <= fst i < m -> 0 <= snd i < n -> rect m n c2g ->
  exists p, f_work solve_gambit solve_nashpy (Some r0) (Some c0) i mm nn c2g
                   D_max occgrid traveler ugrids vgrids egrids wgrids 0 = Ok p.
Proof.
  intros Hr0 Hc0 Hi0 Hi1 Hc2g. unfold f_work.
  match goal with
  | |- exists p, bind (mapM ?f egrids) _ = _ =>
      destruct (mapM_ok f egrids) as (errors & Herrors)
  end.
  { eapply Forall_impl; [| exact rect_egrids]. intros e He. cbn [deref bind].
    exact (get2_in_range m n e r0 c0 He Hr0 Hc0). }
  rewrite Herrors. cbn [bind].
  match goal with
  | |- exists p, bind (mapM ?f wgrids) _ = _ =>
      destruct (mapM_ok f wgrids) as (weights & Hweights)
  end.
  { eapply Forall_impl; [| exact rect_wgrids]. intros w Hw. cbn [deref bind].
    exact (get2_in_range m n w r0 c0 Hw Hr0 Hc0). }
  rewrite Hweights. cbn [bind].
  apply mapM_len in Herrors, Hweights.
  destruct (getGameForCell_ok (fst i) (snd i) errors weights D_max c2g)
    as (game & game_work & Hgame); try assumption; try lia.
  rewrite Hgame. cbn [bind].
  destruct (getGameForCell_rows _ _ _ _ _ _ _ _ _ _ _ _ Hgame)
    as (B & cells & _ & Hg & _ & Hrows).
  assert (Hrect : rect (len (actionspace traveler)) (10 ^ len ugrids) game).
  { subst game. split.
    - unfold len. rewrite length_map. f_equal. symmetry.
      eapply Forall2_length; eassumption.
    - apply Forall_map. apply Forall_forall. intros cs Hcs.
      destruct (Forall2_In_r _ _ _ _ Hrows Hcs) as (ta & _ & Hlen & _).
      unfold len in *. rewrite length_map. exact Hlen. }
  destruct (solveGame_williams solve_gambit solve_nashpy game _ _ Hrect)
    as (rc & cc & s2 & s3 & v & Hs & _ & _ & _ & _ & Hv).
  { destruct (actionspace traveler); [congruence |]. unfold len. simpl. lia. }
  { apply Z.pow_pos_nonneg; [lia | apply len_nonneg]. }
  rewrite Hs. cbn [bind].
  unfold get2 in Hv.
  destruct (pyget game s2) as [grow | e] eqn:Erow; cbn [bind] in Hv;
    [| discriminate].
  destruct (pyget_same_len game (actionspace traveler) s2 grow) as (a & ->);
    [symmetry; exact (proj1 Hrect) | exact Erow |].
  cbn [bind]. eexists. reflexivity.
Qed.

Lemma surrounded_ok (c2g : Grid F) (D_max : F) (i : cell) :
  rect m n c2g -> 0 <= fst i <= m - 2 -> 0 <= snd i <= n - 2 ->
  exists b, surrounded c2g D_max i = Ok b.
Proof.
  destruct i as [i0 i1]. cbn [fst snd]. intros Hc2g Hi0 Hi1.
  unfold surrounded, and_then, at_D_max.
  repeat match goal with
  | |- context [get2 c2g ?r ?c] =>
      let v := fresh "v" in
      let E := fresh "E" in
      destruct (get2_wrap m n c2g r c Hc2g) as [v E]; [lia | lia |];
      rewrite E; clear E
  end.
  cbn [bind].
  repeat match goal with
  | |- context [if ?b then _ else _] => destruct b; cbn [bind]
  end; eexists; reflexivity.
Qed.

Lemma getNewCost_ok (r0 c0 : Z) (i : cell) (mm nn : Z) (D_max : F)
  (c2g : Grid F) :
  0 <= r0 < m -> 0 <= c0 < n -> evaluated i -> rect m n c2g ->
  exists p, getNewCost solve_gambit solve_nashpy (Some r0) (Some c0) i
                       (target traveler) occgrid mm nn c2g D_max traveler
                       ugrids vgrids egrids wgrids = Ok p.
Proof.
  intros Hr0 Hc0 Hi Hc2g. unfold getNewCost.
  destruct (cell_eqb i (target traveler)) eqn:EG; [eexists; reflexivity |].
  destruct Hi as [-> | Hin].
  { rewrite (proj2 (cell_eqb_eq _ _) eq_refl) in EG. discriminate. }
  apply in_bounds_iff in Hin.
  destruct (get2_in_range m n occgrid (fst i) (snd i) rect_occgrid)
    as (occ & ->); [lia | lia |].
  cbn [bind]. destruct (occ =? 1); [eexists; reflexivity |].
  destruct (surrounded_ok c2g D_max i Hc2g) as (b & ->); [lia | lia |].
  cbn [bind]. destruct b; [eexists; reflexivity |].
  destruct (f_work_ok r0 c0 i (fst (shape occgrid)) (snd (shape occgrid))
                      D_max c2g) as ([c b] & ->); try assumption; try lia.
  cbn [bind]. destruct (fleb D_max c); eexists; reflexivity.
Qed.

(** One pass of the worklist loop at an evaluated cell. *)
Lemma visit_ok (r0 c0 mm nn : Z) (D_max : F) (i : cell) (s : sweep_state F) :
  0 <= r0 < m -> 0 <= c0 < n -> evaluated i ->
  rect m n (cost2go s) -> rect m n (action2go s) ->
  Forall evaluated (visitQueue s) ->
  exists s',
    visit solve_gambit solve_nashpy (Some r0) (Some c0) (target traveler)
          occgrid mm nn D_max traveler ugrids vgrids egrids wgrids bounds i s
      = Ok s' /\
    rect m n (cost2go s') /\ rect m n (action2go s') /\
    Forall evaluated (visitQueue s').
Proof.
  intros Hr0 Hc0 Hi Hc2g Ha2g Hq. unfold visit.
  destruct (getNewCost_ok r0 c0 i mm nn D_max (cost2go s) Hr0 Hc0 Hi Hc2g)
    as ([cost action] & ->). cbn [bind].
  destruct (evaluated_in_grid i Hi) as [Hi0 Hi1].
  destruct (set2_wrap m n (cost2go s) (fst i) (snd i) cost Hc2g)
    as (c2g' & Hs1); [lia | lia |].
  rewrite Hs1. cbn [bind].
  destruct (set2_wrap m n (action2go s) (fst i) (snd i) action Ha2g)
    as (a2g' & Hs2); [lia | lia |].
  rewrite Hs2. cbn [bind].
  rewrite shape_occgrid. cbn [fst snd].
  destruct (getNeighbors_total occgrid m n 1 (fst i) (snd i) rect_occgrid
              Hi0 Hi1) as (B & HB).
  rewrite <- surjective_pairing in HB. rewrite HB. cbn [bind].
  destruct (enqueue bounds B (visitQueue s) (visitHistory s)) as [q h] eqn:Eq.
  eexists. split; [reflexivity |].
  cbn [cost2go action2go visitQueue].
  split; [eapply set2_rect; eassumption |].
  split; [eapply set2_rect; eassumption |].
  destruct (enqueue_spec _ _ _ _ _ _ Eq) as (added & -> & _ & Hin & _ & _).
  apply Forall_app. split; [exact Hq |].
  eapply Forall_impl; [| exact Hin]. intros b Hb. right. exact Hb.
Qed.

(** The worklist loop raises nothing. *)
Lemma sweep_loop_ok (r0 c0 mm nn : Z) (D_max : F) (fuel : nat) :
  0 <= r0 < m -> 0 <= c0 < n ->
  forall s : sweep_state F,
    rect m n (cost2go s) -> rect m n (action2go s) ->
    Forall evaluated (visitQueue s) ->
    sweep_loop solve_gambit solve_nashpy fuel (Some r0) (Some c0)
               (target traveler) occgrid mm nn D_max traveler
               ugrids vgrids egrids wgrids bounds s = None \/
    exists s',
      sweep_loop solve_gambit solve_nashpy fuel (Some r0) (Some c0)
                 (target traveler) occgrid mm nn D_max traveler
                 ugrids vgrids egrids wgrids bounds s = Some (Ok s') /\
      rect m n (cost2go s') /\ rect m n (action2go s').
Proof.
  intros Hr0 Hc0. induction fuel as [| fuel IH]; intros s Hc2g Ha2g Hq;
    cbn [sweep_loop].
  - destruct (visitQueue s); [right; exists s; auto | left; reflexivity].
  - destruct (visitQueue s) as [| i rest] eqn:Eq; [right; exists s; auto |].
    inversion Hq as [| ? ? Hi Hrest]; subst.
    destruct (visit_ok r0 c0 mm nn D_max i (popped s rest))
      as (s1 & -> & Hc1 & Ha1 & Hq1); try assumption.
    apply IH; assumption.
Qed.

Lemma sweep_ok (r0 c0 mm nn : Z) (D_max : F) (grids : Grid F * Grid string) :
  0 <= r0 < m -> 0 <= c0 < n ->
  rect m n (fst grids) -> rect m n (snd grids) ->
  exists grids',
    sweep solve_gambit solve_nashpy (Some r0) (Some c0) (target traveler)
          occgrid mm nn D_max traveler ugrids vgrids egrids wgrids bounds grids
      = Some (Ok grids') /\
    rect m n (fst grids') /\ rect m n (snd grids').
Proof.
  intros Hr0 Hc0 Hc2g Ha2g.
  pose proof (sweep_terminates solve_gambit solve_nashpy (Some r0) (Some c0)
                (target traveler) occgrid mm nn D_max traveler
                ugrids vgrids egrids wgrids bounds grids) as Hend.
  unfold sweep in *.
  match goal with
  | |- context [sweep_loop _ _ ?fuel _ _ _ _ _ _ _ _ _ _ _ _ _ ?s] =>
      destruct (sweep_loop_ok r0 c0 mm nn D_max fuel Hr0 Hc0 s)
        as [HN | (s' & Hs & Hc' & Ha')]
  end; try assumption.
  - constructor; [left; reflexivity | constructor].
  - rewrite HN in Hend. congruence.
  - rewrite Hs. eexists. split; [reflexivity |]. split; assumption.
Qed.

Lemma sweeps_ok (r0 c0 mm nn : Z) (D_max : F) (k : nat) :
  0 <= r0 < m -> 0 <= c0 < n ->
  forall grids : Grid F * Grid string,
    rect m n (fst grids) -> rect m n (snd grids) ->
    exists grids',
      sweeps solve_gambit solve_nashpy k (Some r0) (Some c0) (target traveler)
             occgrid mm nn D_max traveler ugrids vgrids egrids wgrids bounds
             grids = Some (Ok grids').
Proof.
  intros Hr0 Hc0. induction k as [| k IH]; intros grids Hc2g Ha2g;
    cbn [sweeps].
  - eexists. reflexivity.
  - destruct (sweep_ok r0 c0 mm nn D_max grids Hr0 Hc0 Hc2g Ha2g)
      as (g1 & -> & Hc1 & Ha1).
    apply IH; assumption.
Qed.


End WellFormed.


(** The bounds may not reach beyond the last row and column: with the
    lower right corner at (4, 4), one past the last cell of the 4 by 4
    region, the cell (3, 1) is evaluated and the test for cells surrounded
    by [D_max] reads row 4. *)
Remark bounds_beyond_last_row_raise :
  getCost2go no_solver no_solver (traveler_float (1, 1)) occ4
             [zero4] [zero4] [zero4] [one4]
             (Some {| upperleft := (0, 0); lowerright := (4, 4) |}) (Some 1)
    = Some (Raise IndexError).
Proof. vm_compute. reflexivity. Qed.

(** ** The travelers of [getTraveler] *)

(** X17: every traveler [getTraveler] builds ("4way", "8way" or "16way")
    has at least one action and no action twice; its heading table has an
    angle for each action of its action space (no lookup of
    [action2radians] for an action raises [KeyError]), and each of its
    actions is the symbol of a move that [getNeighbors] reports from the
    middle of an open 5 by 5 grid, so that no row of a game is blocked for
    want of a move with that symbol. *)
Theorem getTraveler_actions_have_headings {F : Type} {N : Num F}
  (start target : cell) (speed_cps : F) (travelType : string)
  (t : Traveler F) :
  getTraveler start target speed_cps travelType = Some t ->
  actionspace t <> [] /\ NoDup (actionspace t) /\
  exists B,
    getNeighbors (2, 2) 5 5 (full 5 5 0) 1 = Ok B /\
    Forall (fun a => (exists rad, dict_get (action2radians t) a = Ok rad) /\
                     In a (map (fun b : nbr => snd b) B))
           (actionspace t).
Proof.
  unfold getTraveler, getTraveler_actionspace.
  destruct (travelType =? "4way")%string;
    [| destruct (travelType =? "8way")%string;
       [| destruct (travelType =? "16way")%string; [| discriminate]]].
  all: intros [= <-]; cbn [actionspace action2radians].
  all: split; [discriminate |].
  all: split;
    [ repeat (apply NoDup_cons;
              [ simpl; intros H;
                repeat (destruct H as [H | H]; [discriminate H |]); exact H |]);
      apply NoDup_nil |].
  all: eexists; split; [cbv; reflexivity |].
  all: repeat (apply Forall_cons;
               [ split; [eexists; reflexivity |];
                 simpl; repeat (first [left; reflexivity | right]) |]);
       apply Forall_nil.
Qed.

Lemma getTraveler_actions_have_headings_witness :
  actionspace (traveler_float (1, 1)) <> [] /\
  NoDup (actionspace (traveler_float (1, 1))) /\
  exists B,
    getNeighbors (2, 2) 5 5 (full 5 5 0) 1 = Ok B /\
    Forall (fun a => (exists rad,
                        dict_get (action2radians (traveler_float (1, 1))) a
                        = Ok rad) /\
                     In a (map (fun b : nbr => snd b) B))
           (actionspace (traveler_float (1, 1))).
Proof.
  exact (getTraveler_actions_have_headings (0, 0) (1, 1) 10%float "4way"
           (traveler_float (1, 1)) eq_refl).
Defined.

(** ** The grids of [env_setup] *)

(** A list of constant grids of one shape, built from the constants
    [xs]. *)
Definition constant_grids {A : Type} (m n : Z) (xs : list A) (gs : list (Grid A))
  : Prop :=
  Forall2 (fun x g => g = full m n x) xs gs.

Lemma constant_grids_rect {A : Type} (m n : Z) (xs : list A) (gs : list (Grid A)) :
  0 <= m -> 0 <= n -> constant_grids m n xs gs -> Forall (rect m n) gs.
Proof.
  intros Hm Hn H. induction H as [| x g xs gs -> _ IH]; constructor.
  - apply rect_full; assumption.
  - exact IH.
Qed.

(** Reading constant grids at a cell they have gives the constants,
    whichever the cell. *)
Lemma constant_grids_read {A : Type} (m n : Z) (xs : list A) (gs : list (Grid A))
  (r c : Z) :
  0 <= r < m -> 0 <= c < n -> constant_grids m n xs gs ->
  mapM (fun g => r' <- deref (Some r) ;; c' <- deref (Some c) ;; get2 g r' c') gs
  = Ok xs.
Proof.
  intros Hr Hc H. induction H as [| x g xs gs -> _ IH]; [reflexivity |].
  cbn [mapM deref bind] in *. rewrite get2_full by assumption. cbn [bind].
  rewrite IH. reflexivity.
Qed.

Section EnvGrids.

Context {F : Type} {N : Num F}.
Variable loadtxt : string -> result (Grid F).

(** The loop of [getWeightGrids] and [getErrorGrids] over the constants. *)
Lemma constants_loop (m n numGrids : Z) (cs : list F) :
  if numGrids <=? len cs
  then exists gs,
         mapM (fun i => c <- pyget cs i ;; Ok (full m n (fmul (ofZ 1) c)))
              (range numGrids) = Ok gs /\
         len gs = Z.max 0 numGrids /\
         constant_grids m n
           (map (fun c => fmul (ofZ 1) c) (firstn (Z.to_nat numGrids) cs)) gs
  else mapM (fun i => c <- pyget cs i ;; Ok (full m n (fmul (ofZ 1) c)))
            (range numGrids) = Raise IndexError.
Proof.
  unfold range.
  destruct (numGrids <=? len cs) eqn:E.
  - apply Z.leb_le in E.
    assert (Hk : (Z.to_nat numGrids <= List.length cs)%nat)
      by (unfold len in E; lia).
    replace (Z.max 0 numGrids) with (Z.of_nat (Z.to_nat numGrids)) by lia.
    generalize dependent (Z.to_nat numGrids). clear E numGrids.
    intros k Hk.
    assert (Hgen : forall (k : nat) (cs0 : list F) (s : nat),
               (k <= List.length cs0)%nat ->
               (forall j, nth_error cs (s + j) = nth_error cs0 j) ->
               exists gs,
                 mapM (fun i => c <- pyget cs i ;;
                                Ok (full m n (fmul (ofZ 1) c)))
                      (map Z.of_nat (seq s k)) = Ok gs /\
                 len gs = Z.of_nat k /\
                 constant_grids m n
                   (map (fun c => fmul (ofZ 1) c) (firstn k cs0)) gs).
    { clear k Hk. induction k as [| k IH]; intros cs0 s Hk Hnth.
      - exists []. split; [reflexivity |]. split; [reflexivity | constructor].
      - destruct cs0 as [| c0 cs0]; [simpl in Hk; lia |].
        destruct (IH cs0 (S s)) as (gs & Hgs & Hlen & Hconst).
        { simpl in Hk. lia. }
        { intros j. pose proof (Hnth (S j)) as Hj. simpl in Hj.
          rewrite <- Hj. f_equal. lia. }
        pose proof (Hnth 0%nat) as H0. rewrite Nat.add_0_r in H0. simpl in H0.
        assert (Hget : pyget cs (Z.of_nat s) = Ok c0).
        { unfold pyget. rewrite norm_index_in_range.
          - rewrite Nat2Z.id, H0. reflexivity.
          - assert (nth_error cs s <> None) as Hs by congruence.
            apply nth_error_Some in Hs. unfold len. lia. }
        exists (full m n (fmul (ofZ 1) c0) :: gs).
        cbn [seq map mapM]. rewrite Hget. cbn [bind]. rewrite Hgs. cbn [bind].
        split; [reflexivity |]. split.
        + unfold len in *. simpl. lia.
        + cbn [firstn map]. constructor; [reflexivity | exact Hconst]. }
    apply (Hgen k cs 0%nat Hk). intros j. reflexivity.
  - apply Z.leb_gt in E. pose proof (len_nonneg cs) as Hlen.
    assert (Hk : (List.length cs < Z.to_nat numGrids)%nat)
      by (unfold len in *; lia).
    generalize dependent (Z.to_nat numGrids). clear E numGrids.
    intros k Hk.
    assert (Hgen : forall (k s : nat),
               (s <= List.length cs < s + k)%nat ->
               mapM (fun i => c <- pyget cs i ;;
                              Ok (full m n (fmul (ofZ 1) c)))
                    (map Z.of_nat (seq s k)) = Raise IndexError).
    { clear k Hk. induction k as [| k IH]; intros s Hs; [lia |].
      cbn [seq map mapM].
      destruct (Nat.eq_dec s (List.length cs)) as [-> | Hne].
      - rewrite pyget_beyond by (unfold len; lia). reflexivity.
      - destruct (pyget_in_range cs (Z.of_nat s)) as (c & -> & _).
        { unfold len. lia. }
        cbn [bind]. rewrite IH by lia. reflexivity. }
    apply Hgen. lia.
Qed.

(** The default grids: [numGrids] copies of one constant grid. *)
Lemma defaults_loop (m n numGrids : Z) (x : F) :
  len (map (fun _ : Z => full m n x) (range numGrids)) = Z.max 0 numGrids /\
  constant_grids m n (repeat x (Z.to_nat numGrids))
    (map (fun _ : Z => full m n x) (range numGrids)).
Proof.
  split.
  - unfold len. rewrite length_map, length_range. lia.
  - assert (Hl : forall l : list nat,
               constant_grids m n (repeat x (List.length l))
                 (map (fun _ : Z => full m n x) (map Z.of_nat l))).
    { intros l. induction l; constructor; [reflexivity | assumption]. }
    pose proof (Hl (seq 0 (Z.to_nat numGrids))) as H.
    rewrite length_seq in H. exact H.
Qed.

(** X18: without files, [getWeightGrids] and [getErrorGrids] build
    [numGrids] constant grids of the occupancy grid's shape: grid [i] holds
    [1 * weights[i]] (or [1 * errors[i]]) in every cell; constants beyond
    [numGrids] are ignored, and with fewer constants than grids both raise
    [IndexError]. Without constants the weight grids hold one and the error
    grids zero. *)
Theorem getWeightGrids_getErrorGrids_constants (occgrid : Grid Z)
  (constants : option (list F)) (numGrids : Z) :
  let m := fst (shape occgrid) in
  let n := snd (shape occgrid) in
  match constants with
  | Some cs =>
      if numGrids <=? len cs
      then
        exists gs,
          getWeightGrids loadtxt occgrid (Some cs) None numGrids = Ok gs /\
          getErrorGrids loadtxt occgrid (Some cs) None numGrids = Ok gs /\
          len gs = Z.max 0 numGrids /\
          constant_grids m n
            (map (fun c => fmul (ofZ 1) c) (firstn (Z.to_nat numGrids) cs)) gs
      else
        getWeightGrids loadtxt occgrid (Some cs) None numGrids
          = Raise IndexError /\
        getErrorGrids loadtxt occgrid (Some cs) None numGrids
          = Raise IndexError
  | None =>
      exists ws es,
        getWeightGrids loadtxt occgrid None None numGrids = Ok ws /\
        getErrorGrids loadtxt occgrid None None numGrids = Ok es /\
        len ws = Z.max 0 numGrids /\ len es = Z.max 0 numGrids /\
        constant_grids m n (repeat (ofZ 1) (Z.to_nat numGrids)) ws /\
        constant_grids m n (repeat (ofZ 0) (Z.to_nat numGrids)) es
  end.
Proof.
  intros m n. destruct constants as [cs |].
  - pose proof (constants_loop m n numGrids cs) as H.
    unfold getWeightGrids, getErrorGrids. fold m n.
    destruct (numGrids <=? len cs).
    + destruct H as (gs & Hgs & Hlen & Hconst). exists gs. auto.
    + split; exact H.
  - unfold getWeightGrids, getErrorGrids. fold m n.
    destruct (defaults_loop m n numGrids (ofZ 1)) as [Hl1 Hc1].
    destruct (defaults_loop m n numGrids (ofZ 0)) as [Hl0 Hc0].
    do 2 eexists. split; [reflexivity |]. split; [reflexivity |]. auto.
Qed.

End EnvGrids.

Section EnvironmentAndSolver.

Context {F : Type} {N : Num F}.
Variables solve_gambit solve_nashpy : Grid F -> result (list F * list F).
Variable loadtxt : string -> result (Grid F).
Variable getComponentGrid : string -> result (Grid F).

(** What [getWeightGrids] and [getErrorGrids] return without files are
    constant grids of the occupancy grid's shape, [numGrids] of them. *)
Lemma getWeightGrids_built (occgrid : Grid Z) (weights : option (list F))
  (numGrids : Z) (gs : list (Grid F)) :
  getWeightGrids loadtxt occgrid weights None numGrids = Ok gs ->
  len gs = Z.max 0 numGrids /\
  exists xs, constant_grids (fst (shape occgrid)) (snd (shape occgrid)) xs gs.
Proof.
  unfold getWeightGrids. destruct weights as [cs |]; intros Hgs.
  - pose proof (constants_loop (fst (shape occgrid)) (snd (shape occgrid))
                  numGrids cs) as H.
    destruct (numGrids <=? len cs).
    + destruct H as (gs' & Hw & Hlen & Hconst).
      rewrite Hw in Hgs. injection Hgs as <-. split; [exact Hlen | eauto].
    + rewrite H in Hgs. discriminate.
  - injection Hgs as <-.
    destruct (defaults_loop (fst (shape occgrid)) (snd (shape occgrid))
                numGrids (ofZ 1)) as [Hlen Hconst].
    split; [exact Hlen | eauto].
Qed.

Lemma getErrorGrids_built (occgrid : Grid Z) (errors : option (list F))
  (numGrids : Z) (gs : list (Grid F)) :
  getErrorGrids loadtxt occgrid errors None numGrids = Ok gs ->
  len gs = Z.max 0 numGrids /\
  exists xs, constant_grids (fst (shape occgrid)) (snd (shape occgrid)) xs gs.
Proof.
  unfold getErrorGrids. destruct errors as [cs |]; intros Hgs.
  - pose proof (constants_loop (fst (shape occgrid)) (snd (shape occgrid))
                  numGrids cs) as H.
    destruct (numGrids <=? len cs).
    + destruct H as (gs' & Hw & Hlen & Hconst).
      rewrite Hw in Hgs. injection Hgs as <-. split; [exact Hlen | eauto].
    + rewrite H in Hgs. discriminate.
  - injection Hgs as <-.
    destruct (defaults_loop (fst (shape occgrid)) (snd (shape occgrid))
                numGrids (ofZ 0)) as [Hlen Hconst].
    split; [exact Hlen | eauto].
Qed.

(** X19: with error and weight grids built from constants (no files),
    [f_work] returns the same whichever cell of the grid the names [row]
    and [col] denote: reading them at the last cell of the grid, as
    [getCost2go] makes it do, gives what reading them at the evaluated cell
    would give. *)
Theorem f_work_constant_grids_any_cell (occgrid : Grid Z)
  (errors weights : option (list F)) (numErrors numWeights : Z)
  (egrids wgrids : list (Grid F)) (r c r' c' : Z)
  (i : cell) (mm nn : Z) (cost2go : Grid F) (D_max : F)
  (traveler : Traveler F) (ugrids vgrids : list (Grid F)) (method : Z) :
  getErrorGrids loadtxt occgrid errors None numErrors = Ok egrids ->
  getWeightGrids loadtxt occgrid weights None numWeights = Ok wgrids ->
  0 <= r < fst (shape occgrid) -> 0 <= c < snd (shape occgrid) ->
  0 <= r' < fst (shape occgrid) -> 0 <= c' < snd (shape occgrid) ->
  f_work solve_gambit solve_nashpy (Some r) (Some c) i mm nn cost2go D_max
         occgrid traveler ugrids vgrids egrids wgrids method
  = f_work solve_gambit solve_nashpy (Some r') (Some c') i mm nn cost2go D_max
           occgrid traveler ugrids vgrids egrids wgrids method.
Proof.
  intros He Hw Hr Hc Hr' Hc'.
  destruct (getErrorGrids_built _ _ _ _ He) as (_ & es & Hes).
  destruct (getWeightGrids_built _ _ _ _ Hw) as (_ & ws & Hws).
  unfold f_work.
  rewrite (constant_grids_read _ _ _ _ r c Hr Hc Hes).
  rewrite (constant_grids_read _ _ _ _ r' c' Hr' Hc' Hes).
  rewrite (constant_grids_read _ _ _ _ r c Hr Hc Hws).
  rewrite (constant_grids_read _ _ _ _ r' c' Hr' Hc' Hws).
  reflexivity.
Qed.

(** The traveler of [getTraveler]: its target, and a heading for each of
    its actions. *)
Lemma getTraveler_well_formed (start goal : cell) (speed_cps : F)
  (travelType : string) (t : Traveler F) :
  getTraveler start goal speed_cps travelType = Some t ->
  target t = goal /\ actionspace t <> [] /\
  Forall (fun a => exists rad, dict_get (action2radians t) a = Ok rad)
         (actionspace t).
Proof.
  unfold getTraveler, getTraveler_actionspace.
  destruct (travelType =? "4way")%string;
    [| destruct (travelType =? "8way")%string;
       [| destruct (travelType =? "16way")%string; [| discriminate]]].
  all: intros [= <-]; cbn [actionspace action2radians target].
  all: split; [reflexivity |]; split; [discriminate |].
  all: repeat (apply Forall_cons; [eexists; reflexivity |]); apply Forall_nil.
Qed.

(** X20: planning in the environment [env_setup] builds without files
    raises nothing. For a rectangular occupancy grid holding the target,
    bounds within the grid, a traveler of [getTraveler], the force grids
    of [getVectorGrids] without component files, and error and weight
    grids built by [getErrorGrids] and [getWeightGrids] from constants or
    defaults (at least one grid each), [getCost2go] returns its grids. *)
Theorem getCost2go_default_environment (occgrid : Grid Z) (m n : Z)
  (start target : cell) (speed_cps : F) (travelType : string)
  (t : Traveler F) (errors weights : option (list F))
  (numErrors numWeights : Z)
  (ugrids vgrids egrids wgrids : list (Grid F))
  (bounds : Bounds) (iterations : option Z) :
  shape occgrid = (m, n) -> rect m n occgrid ->
  0 <= fst target < m -> 0 <= snd target < n ->
  -1 <= fst (upperleft bounds) /\ fst (lowerright bounds) <= m - 1 ->
  -1 <= snd (upperleft bounds) /\ snd (lowerright bounds) <= n - 1 ->
  getTraveler start target speed_cps travelType = Some t ->
  getVectorGrids getComponentGrid None None occgrid = Ok (ugrids, vgrids) ->
  1 <= numErrors -> 1 <= numWeights ->
  getErrorGrids loadtxt occgrid errors None numErrors = Ok egrids ->
  getWeightGrids loadtxt occgrid weights None numWeights = Ok wgrids ->
  exists out,
    getCost2go solve_gambit solve_nashpy t occgrid
               ugrids vgrids egrids wgrids (Some bounds) iterations
      = Some (Ok out).
Proof.
  intros Hshape Hrect Ht0 Ht1 Hb0 Hb1 Htrav Hvec Hke Hkw He Hw.
  destruct (getTraveler_well_formed _ _ _ _ _ Htrav) as (Htarget & Hact & Hhead).
  destruct (getErrorGrids_built _ _ _ _ He) as (Hle & es & Hes).
  destruct (getWeightGrids_built _ _ _ _ Hw) as (Hlw & ws & Hws).
  rewrite Hshape in Hes, Hws. cbn [fst snd] in Hes, Hws.
  unfold getVectorGrids in Hvec. rewrite Hshape in Hvec. cbn [fst snd] in Hvec.
  injection Hvec as <- <-.
  assert (Hzero : Forall (rect m n) [full m n (ofZ (F := F) 0)])
    by (constructor; [apply rect_full; lia | constructor]).
  unfold getCost2go. rewrite Hshape.
  assert (Hm : (0 <? m) = true) by (apply Z.ltb_lt; lia).
  assert (Hn : (0 <? n) = true) by (apply Z.ltb_lt; lia).
  rewrite Hm, Hn. cbn [andb].
  match goal with
  | |- context [sweeps _ _ ?k0 _ _ _ _ ?m0 ?n0 ?D0 _ _ _ _ _ _ ?g0] =>
      destruct (sweeps_ok solve_gambit solve_nashpy occgrid t
                  [full m n (ofZ 0)] [full m n (ofZ 0)] egrids wgrids bounds
                  m n Hshape Hrect) with (r0 := m - 1) (c0 := n - 1)
                  (mm := m0) (nn := n0) (D_max := D0) (k := k0) (grids := g0)
        as ([c2g a2g] & ->)
  end; try (rewrite Htarget; assumption); try assumption; try lia.
  - apply (constant_grids_rect m n es); [lia | lia | exact Hes].
  - apply (constant_grids_rect m n ws); [lia | lia | exact Hws].
  - unfold len at 1. simpl. lia.
  - unfold len at 1. simpl. lia.
  - cbn [fst]. apply rect_full; lia.
  - cbn [snd]. apply rect_full; lia.
  - eexists. reflexivity.
Qed.

End EnvironmentAndSolver.

(** A loader for the runs below, where no file is read. *)
Definition load_one4 (_ : string) : result (Grid float) := Ok one4.

Lemma f_work_constant_grids_any_cell_witness :
  f_work no_solver no_solver (Some 3) (Some 3) (2, 1) 4 4 (out_cost2go out4)
         D4 occ4 (traveler_float (1, 1)) [zero4] [zero4] [zero4] [one4] 0
  = f_work no_solver no_solver (Some 2) (Some 1) (2, 1) 4 4 (out_cost2go out4)
           D4 occ4 (traveler_float (1, 1)) [zero4] [zero4] [zero4] [one4] 0.
Proof.
  assert (He : getErrorGrids load_one4 occ4 None None 1 = Ok [zero4])
    by (vm_compute; reflexivity).
  assert (Hw : getWeightGrids load_one4 occ4 None None 1 = Ok [one4])
    by (vm_compute; reflexivity).
  assert (H3 : 0 <= 3 < 4) by lia.
  assert (H2 : 0 <= 2 < 4) by lia.
  assert (H1 : 0 <= 1 < 4) by lia.
  exact (f_work_constant_grids_any_cell no_solver no_solver load_one4 occ4
           None None 1 1 [zero4] [one4] 3 3 2 1 (2, 1) 4 4 (out_cost2go out4)
           D4 (traveler_float (1, 1)) [zero4] [zero4] 0 He Hw H3 H3 H2 H1).
Defined.

(** An 8-way traveler in the 4 by 4 region, with the error 2 and the
    weight 1/2 everywhere. *)
Lemma getCost2go_default_environment_witness :
  exists t out,
    getTraveler (0, 0) (1, 1) 10%float "8way" = Some t /\
    getCost2go no_solver no_solver t occ4 [zero4] [zero4]
               [full 4 4 2%float] [full 4 4 0.5%float] (Some bounds4) None
      = Some (Ok out).
Proof.
  assert (Ht : getTraveler (0, 0) (1, 1) 10%float "8way"
               = Some {| start := (0, 0); target := (1, 1);
                         actionspace := ["^"; "v"; "<"; ">"; "a"; "b"; "c"; "d"];
                         action2radians := getTraveler_action2radians;
                         speed_cps := 10%float |})
    by reflexivity.
  assert (Hv : getVectorGrids load_one4 None None occ4 = Ok ([zero4], [zero4]))
    by (vm_compute; reflexivity).
  assert (He : getErrorGrids load_one4 occ4 (Some [2%float]) None 1
               = Ok [full 4 4 2%float])
    by (vm_compute; reflexivity).
  assert (Hw : getWeightGrids load_one4 occ4 (Some [0.5%float]) None 1
               = Ok [full 4 4 0.5%float])
    by (vm_compute; reflexivity).
  assert (Hrect : rect 4 4 occ4) by (split; [reflexivity | repeat constructor]).
  assert (H1 : 0 <= 1 < 4) by lia.
  assert (Hb : -1 <= 0 /\ 3 <= 4 - 1) by lia.
  assert (Hk : 1 <= 1) by lia.
  eexists. 
  destruct (getCost2go_default_environment no_solver no_solver load_one4
              load_one4 occ4 4 4 (0, 0) (1, 1) 10%float "8way" _
              (Some [2%float]) (Some [0.5%float]) 1 1
              [zero4] [zero4] [full 4 4 2%float] [full 4 4 0.5%float]
              bounds4 None eq_refl Hrect H1 H1 Hb Hb Ht Hv Hk Hk He Hw)
    as (out & Hout).
  exists out. split; [exact Ht | exact Hout].
Defined.

(** ** The adversary's samples *)

(** The tuples of a Cartesian product take their components from the
    ranges, in order. *)
Lemma product_components {A : Type} (rs : list (list A)) (t : list A) :
  In t (product rs) -> Forall2 (fun x r => In x r) t rs.
Proof.
  revert t. induction rs as [| r rs IH]; intros t Hin.
  - destruct Hin as [<- | []]. constructor.
  - cbn [product] in Hin. apply in_flat_map in Hin as (x & Hx & Hin).
    apply in_map_iff in Hin as (t' & <- & Ht').
    constructor; [exact Hx | apply IH, Ht'].
Qed.

(** In exact arithmetic the samples of [np.linspace] lie between its two
    ends. *)
Lemma linspace_between (start stop : R) (num : nat) (x : R) :
  (start <= stop)%R -> In x (linspace start stop num) ->
  (start <= x <= stop)%R.
Proof.
  intros Hle. destruct num as [| [| d]]; cbn [linspace].
  - intros [].
  - intros [<- | []]. lra.
  - intros Hin. apply in_app_or in Hin as [Hin | [<- | []]]; [| lra].
    apply in_map_iff in Hin as (k & <- & Hk). apply in_seq in Hk.
    assert (Hd : (0 < IZR (Z.of_nat (S d)))%R) by (apply IZR_lt; lia).
    assert (Hk0 : (0 <= IZR (Z.of_nat k))%R) by (apply IZR_le; lia).
    assert (Hkd : (IZR (Z.of_nat k) <= IZR (Z.of_nat (S d)))%R)
      by (apply IZR_le; lia).
    change (start <= IZR (Z.of_nat k)
                     * ((stop - start) / IZR (Z.of_nat (S d))) + start
            <= stop)%R.
    set (K := IZR (Z.of_nat k)) in *. set (D := IZR (Z.of_nat (S d))) in *.
    assert (Hq : (0 <= K / D <= 1)%R).
    { split.
      - apply Rmult_le_pos; [exact Hk0 |]. left. apply Rinv_0_lt_compat, Hd.
      - apply (Rmult_le_reg_r D); [exact Hd |].
        unfold Rdiv. rewrite Rmult_assoc, Rinv_l by lra. lra. }
    replace (K * ((stop - start) / D) + start)%R
      with (start + K / D * (stop - start))%R by (field; lra).
    assert (Hs : (0 <= stop - start)%R) by lra.
    pose proof (Rmult_le_pos _ _ (proj1 Hq) Hs) as H0.
    pose proof (Rmult_le_compat_r _ _ _ Hs (proj2 Hq)) as H1.
    lra.
Qed.

(** X21: in exact arithmetic, with errors that are not negative, every
    component of every world action [getWorldActionsForCell] returns lies
    within the source's error of the u-component of that source at the
    cell; this holds of the tuples stored under "vactions" too, which are
    u-samples. *)
Theorem getWorldActionsForCell_samples_within_error (row col : Z)
  (ugrids vgrids : list (Grid R)) (errors : list R)
  (was : world_actionspace R) (t : list R) :
  Forall (fun e => (0 <= e)%R) errors ->
  getWorldActionsForCell row col ugrids vgrids errors = Ok was ->
  In t (uactions was) \/ In t (vactions was) ->
  Forall2 (fun x g =>
             exists ug u e,
               pyget ugrids g = Ok ug /\ get2 ug row col = Ok u /\
               pyget errors g = Ok e /\ (u - e <= x <= u + e)%R)
          t (range (len ugrids)).
Proof.
  intros Herr Hwas Ht.
  rewrite (getWorldActionsForCell_vactions _ _ _ _ _ _ Hwas) in Ht.
  assert (Hin : In t (uactions was)) by tauto. clear Ht.
  destruct (getWorldActionsForCell_uactions _ _ _ _ _ _ Hwas)
    as (ranges & Hranges & Hu & _).
  rewrite Hu in Hin. apply product_components in Hin.
  apply mapM_Forall2 in Hranges. clear Hu Hwas.
  revert t Hin. induction Hranges as [| g p gs ps Hp _ IH]; intros t Hin.
  - inversion Hin; subst. constructor.
  - cbn [map] in Hin. inversion Hin as [| x r t' rs Hx Hrest]; subst.
    constructor; [| apply IH, Hrest].
    unfold sample_ranges in Hp.
    destruct (pyget ugrids g) as [ug | e0] eqn:Eug; cbn [bind] in Hp;
      [| discriminate].
    destruct (get2 ug row col) as [u | e0] eqn:Eu; cbn [bind] in Hp;
      [| discriminate].
    destruct (pyget errors g) as [e | e0] eqn:Ee; cbn [bind] in Hp;
      [| discriminate].
    destruct (pyget vgrids g) as [vg | e0]; cbn [bind] in Hp; [| discriminate].
    destruct (get2 vg row col) as [v | e0]; cbn [bind] in Hp; [| discriminate].
    injection Hp as <-. cbn [fst] in Hx.
    exists ug, u, e. repeat split; try reflexivity; try assumption.
    all: rewrite Forall_forall in Herr;
         pose proof (Herr _ (pyget_In _ _ _ Ee)) as He;
         assert (Hle : (u - e <= u + e)%R) by lra;
         pose proof (linspace_between (u - e)%R (u + e)%R 10 x Hle Hx) as Hb;
         lra.
Qed.

(** One source with u = 1 and v = 5 at the cell, and the error 2. *)
Lemma getWorldActionsForCell_samples_within_error_witness :
  exists was t,
    getWorldActionsForCell 0 0 [[[1%R]]] [[[5%R]]] [2%R] = Ok was /\
    In t (vactions was) /\
    Forall2 (fun x g =>
               exists ug u e,
                 pyget [[[1%R]]] g = Ok ug /\ get2 ug 0 0 = Ok u /\
                 pyget [2%R] g = Ok e /\ (u - e <= x <= u + e)%R)
            t (range (len [[[1%R]]])).
Proof.
  assert (Herr : Forall (fun e => (0 <= e)%R) [2%R])
    by (constructor; [lra | constructor]).
  assert (Hwas : exists was,
             getWorldActionsForCell 0 0 [[[1%R]]] [[[5%R]]] [2%R] = Ok was)
    by (eexists; reflexivity).
  destruct Hwas as [was Hwas].
  assert (Hex : exists t, In t (vactions was)).
  { pose proof (getWorldActionsForCell_num _ _ _ _ _ _ Hwas) as (_ & _ & Hlen).
    destruct (vactions was) as [| t ts]; [discriminate Hlen |].
    exists t. left. reflexivity. }
  destruct Hex as [t Ht].
  exists was, t. split; [exact Hwas |]. split; [exact Ht |].
  exact (getWorldActionsForCell_samples_within_error 0 0 [[[1%R]]] [[[5%R]]]
           [2%R] was t Herr Hwas (or_intror Ht)).
Defined.

(** ** The occupancy grid of text files *)






Section OccupancyOfTextFiles.

Variable splitext : string -> string * string.
Variable loadtxt_int : string -> result (Grid Z).
Variable occupancy_of_png : list string -> result (Grid Z).
Variable occupancy_of_tif : list string -> result (Grid Z).


End OccupancyOfTextFiles.


